(** * tv-tracker-series: the local-first media store and the initialization gate

    A shallow embedding of [src/store/mediaStore.ts] (the local cache, the
    write-through operations, hydration and guest migration),
    [src/services/userMediaService.ts], [src/store/sessionStore.ts]
    ([isLoggedIn]) and [src/store/appStore.ts] (the two-flag initialization
    gate), followed by the properties the specification states about them.

    The program is imperative and asynchronous.  Every function whose source
    reads or writes module state, [localStorage], the console or the hosted
    table is a computation in the monad [M] below: a function from the
    [World] to a [Result] (a returned value or a thrown exception) and the
    next [World].  [await] is sequencing: the source assumes a single writer. *)

From Stdlib Require Import ZArith List Ascii String Bool Lia PeanoNat Permutation.
From Stdlib Require QArith.
Import ListNotations.

Local Open Scope string_scope.
Local Open Scope list_scope.

(** JavaScript numbers that are not compared by the code (the local [id],
    the rating) are carried as rationals. *)
Definition number : Type := QArith_base.Q.

(** ** types/Media.ts *)

Inductive MediaType : Type := movie | tv.

(** [WatchStatus = 'want_to_watch' | 'watching' | 'completed'].  The
    constructors are capitalised because the same three identifiers are the
    fields of [UserMediaStore]. *)
Inductive WatchStatus : Type := WantToWatch | Watching | Completed.

(** A JavaScript property that may be missing ([undefined]), [null], or
    hold a value.  [JSON.stringify] drops [undefined] properties and
    [JSON.parse] reads a dropped property back as [undefined]. *)
Inductive opt (A : Type) : Type :=
| Undefined
| Null
| Val (a : A).
Arguments Undefined {A}.
Arguments Null {A}.
Arguments Val {A} a.

Definition MediaType_eqb (a b : MediaType) : bool :=
  match a, b with
  | movie, movie | tv, tv => true
  | _, _ => false
  end.

Definition WatchStatus_eqb (a b : WatchStatus) : bool :=
  match a, b with
  | WantToWatch, WantToWatch | Watching, Watching | Completed, Completed => true
  | _, _ => false
  end.

Module MediaItem.
Record t : Type := mk {
  id : number;
  tmdbId : Z;
  title : string;
  mediaType : MediaType;
  posterPath : option string;
  releaseYear : string;
  rating : number;
  status : WatchStatus;
  addedAt : string;
  currentSeason : opt Z;
  currentEpisode : opt Z;
  overview : opt string;
  runtime : opt Z;
  numberOfSeasons : opt Z;
  numberOfEpisodes : opt Z
}.

(** [item.status = s] *)
Definition set_status (s : WatchStatus) (i : t) : t :=
  mk (id i) (tmdbId i) (title i) (mediaType i) (posterPath i)
     (releaseYear i) (rating i) s (addedAt i) (currentSeason i)
     (currentEpisode i) (overview i) (runtime i) (numberOfSeasons i)
     (numberOfEpisodes i).

(** [item.currentSeason = se; item.currentEpisode = ep] *)
Definition set_progress (se ep : Z) (i : t) : t :=
  mk (id i) (tmdbId i) (title i) (mediaType i) (posterPath i)
     (releaseYear i) (rating i) (status i) (addedAt i) (Val se) (Val ep)
     (overview i) (runtime i) (numberOfSeasons i) (numberOfEpisodes i).
End MediaItem.

Record UserMediaStore : Type := mkStore {
  want_to_watch : list MediaItem.t;
  watching : list MediaItem.t;
  completed : list MediaItem.t
}.

(** [store[status]] *)
Definition at_status (s : WatchStatus) (st : UserMediaStore) : list MediaItem.t :=
  match s with
  | WantToWatch => want_to_watch st
  | Watching => watching st
  | Completed => completed st
  end.

(** [store[status] = l] *)
Definition set_status_list (s : WatchStatus) (l : list MediaItem.t)
    (st : UserMediaStore) : UserMediaStore :=
  match s with
  | WantToWatch => mkStore l (watching st) (completed st)
  | Watching => mkStore (want_to_watch st) l (completed st)
  | Completed => mkStore (want_to_watch st) (watching st) l
  end.

(** [store[status].push(item)] *)
Definition push (s : WatchStatus) (i : MediaItem.t) (st : UserMediaStore)
    : UserMediaStore :=
  set_status_list s (at_status s st ++ [i]) st.

(** [[...store.want_to_watch, ...store.watching, ...store.completed]] *)
Definition spread (st : UserMediaStore) : list MediaItem.t :=
  want_to_watch st ++ watching st ++ completed st.

(** The identity of an item: the pair the code compares everywhere,
    [i.tmdbId === tmdbId && i.mediaType === mediaType]. *)
Definition Key : Type := (Z * MediaType)%type.

Definition key_of (i : MediaItem.t) : Key :=
  (MediaItem.tmdbId i, MediaItem.mediaType i).

Definition same_key (tmdbId : Z) (mediaType : MediaType) (i : MediaItem.t) : bool :=
  Z.eqb (MediaItem.tmdbId i) tmdbId && MediaType_eqb (MediaItem.mediaType i) mediaType.

(** ** types/Database.ts: the [user_media] table *)

Module Row.
Record t : Type := mk {
  id : string;
  user_id : string;
  tmdb_id : Z;
  media_type : MediaType;
  status : WatchStatus;
  current_season : option Z;
  current_episode : option Z;
  title : string;
  poster_path : option string;
  release_year : string;
  rating : number;
  overview : option string;
  runtime : option Z;
  number_of_seasons : option Z;
  number_of_episodes : option Z;
  created_at : string;
  updated_at : string
}.

Definition key (r : t) : Key := (tmdb_id r, media_type r).

Definition has_key (tmdbId : Z) (mediaType : MediaType) (r : t) : bool :=
  Z.eqb (tmdb_id r) tmdbId && MediaType_eqb (media_type r) mediaType.
End Row.

(** [Omit<UserMediaInsert, 'user_id'>] as [mediaItemToSupabase] builds it. *)
Module Insert.
Record t : Type := mk {
  tmdb_id : Z;
  media_type : MediaType;
  status : WatchStatus;
  current_season : opt Z;
  current_episode : opt Z;
  title : string;
  poster_path : option string;
  release_year : string;
  rating : number;
  overview : opt string;
  runtime : opt Z;
  number_of_seasons : opt Z;
  number_of_episodes : opt Z
}.
End Insert.

(** [Partial<UserMediaUpdate>]: the two shapes the service sends. *)
Inductive Update : Type :=
| UpdStatus (s : WatchStatus)
| UpdProgress (current_season current_episode : Z).

(** ** The hosted table *)

(** Modelled from the spec: the Remote Media Repository behind the Supabase
    client is an external service; section 6 of the specification gives its
    contract (list all, insert or duplicate-key error, update or not-found
    error, idempotent delete, rows keyed by media id and kind).  Whether a
    request gets through is not decided here: every request consumes one
    [Reply] from a script that the theorems quantify over; an accepted
    insert comes with the row identifier and the timestamp the server
    chose. *)
Inductive Reply : Type :=
| Reject (code : string)
| Accept (uuid now : string).

Inductive Exn : Type :=
| PostgrestError (code : string)
| Error (message : string).

(** What [userMediaService] was asked to do, in call order. *)
Inductive Call : Type :=
| GetAllUserMedia
| AddUserMedia (p : Insert.t)
| UpdateUserMedia (tmdbId : Z) (mediaType : MediaType) (u : Update)
| RemoveUserMedia (tmdbId : Z) (mediaType : MediaType).

Record Supabase : Type := mkSupabase {
  authUser : option string;
  user_media : list Row.t;
  replies : list Reply;
  calls : list Call
}.

Definition of_opt {A : Type} (o : opt A) : option A :=
  match o with
  | Val a => Some a
  | _ => None
  end.

Definition row_of_insert (uuid now user : string) (p : Insert.t) : Row.t :=
  Row.mk uuid user (Insert.tmdb_id p) (Insert.media_type p) (Insert.status p)
    (of_opt (Insert.current_season p)) (of_opt (Insert.current_episode p))
    (Insert.title p) (Insert.poster_path p) (Insert.release_year p)
    (Insert.rating p) (of_opt (Insert.overview p)) (of_opt (Insert.runtime p))
    (of_opt (Insert.number_of_seasons p)) (of_opt (Insert.number_of_episodes p))
    now now.

Definition apply_update (u : Update) (updated_at : string) (r : Row.t) : Row.t :=
  match u with
  | UpdStatus s =>
      Row.mk (Row.id r) (Row.user_id r) (Row.tmdb_id r) (Row.media_type r) s
        (Row.current_season r) (Row.current_episode r) (Row.title r)
        (Row.poster_path r) (Row.release_year r) (Row.rating r)
        (Row.overview r) (Row.runtime r) (Row.number_of_seasons r)
        (Row.number_of_episodes r) (Row.created_at r) updated_at
  | UpdProgress se ep =>
      Row.mk (Row.id r) (Row.user_id r) (Row.tmdb_id r) (Row.media_type r)
        (Row.status r) (Some se) (Some ep) (Row.title r)
        (Row.poster_path r) (Row.release_year r) (Row.rating r)
        (Row.overview r) (Row.runtime r) (Row.number_of_seasons r)
        (Row.number_of_episodes r) (Row.created_at r) updated_at
  end.

(** The next reply of the script; a script that has run out rejects. *)
Definition next_reply (sb : Supabase) : Reply * Supabase :=
  match replies sb with
  | [] => (Reject "offline", sb)
  | r :: rs => (r, mkSupabase (authUser sb) (user_media sb) rs (calls sb))
  end.

Definition with_table (t : list Row.t) (sb : Supabase) : Supabase :=
  mkSupabase (authUser sb) t (replies sb) (calls sb).

Definition record_call (c : Call) (sb : Supabase) : Supabase :=
  mkSupabase (authUser sb) (user_media sb) (replies sb) (calls sb ++ [c]).

(** [{ data, error }] of a request. *)
Definition Response (A : Type) : Type := (Exn + A)%type.

(** [from('user_media').select('*').order('created_at', {ascending: false})]:
    the table is kept newest first. *)
Definition db_select (sb : Supabase) : Response (list Row.t) * Supabase :=
  match next_reply sb with
  | (Reject c, sb') => (inl (PostgrestError c), sb')
  | (Accept _ _, sb') => (inr (user_media sb'), sb')
  end.

(** [from('user_media').insert({...}).select().single()] *)
Definition db_insert (user : string) (p : Insert.t) (sb : Supabase)
    : Response Row.t * Supabase :=
  match next_reply sb with
  | (Reject c, sb') => (inl (PostgrestError c), sb')
  | (Accept uuid now, sb') =>
      if existsb (Row.has_key (Insert.tmdb_id p) (Insert.media_type p)) (user_media sb')
      then (inl (PostgrestError "23505"), sb')
      else
        let r := row_of_insert uuid now user p in
        (inr r, with_table (r :: user_media sb') sb')
  end.

(** [from('user_media').update({...}).eq(...).eq(...).select().single()] *)
Definition db_update (tmdbId : Z) (mediaType : MediaType) (u : Update)
    (updated_at : string) (sb : Supabase) : Response Row.t * Supabase :=
  match next_reply sb with
  | (Reject c, sb') => (inl (PostgrestError c), sb')
  | (Accept _ _, sb') =>
      match find (Row.has_key tmdbId mediaType) (user_media sb') with
      | None => (inl (PostgrestError "PGRST116"), sb')
      | Some r =>
          (inr (apply_update u updated_at r),
           with_table
             (map (fun x => if Row.has_key tmdbId mediaType x
                            then apply_update u updated_at x else x)
                  (user_media sb')) sb')
      end
  end.

(** [from('user_media').delete().eq(...).eq(...)] *)
Definition db_delete (tmdbId : Z) (mediaType : MediaType) (sb : Supabase)
    : option Exn * Supabase :=
  match next_reply sb with
  | (Reject c, sb') => (Some (PostgrestError c), sb')
  | (Accept _ _, sb') =>
      (None,
       with_table
         (filter (fun x => negb (Row.has_key tmdbId mediaType x)) (user_media sb'))
         sb')
  end.

(** ** The world the store runs in *)

Inductive Log : Type :=
| LogError (m : string)
| LogWarn (m : string).

(** What [localStorage] holds under [STORAGE_KEY], seen through
    [getItem] and [JSON.parse].  A stored text that parses is identified
    with the store it parses to; [saveLocalStore] writes such texts, and the
    program writes no others under this key.  [getLocalStore] returns what
    [JSON.parse] gives without looking at it: a text put there by something
    else, which parses to a value that is no collection ([null], [{}]),
    would make its callers throw a [TypeError] at their first list access.
    Such a text has no constructor here; every statement below that speaks
    of the stored payload speaks of these five states. *)
Inductive Slot : Type :=
| Blocked                      (* getItem throws *)
| Missing                      (* getItem returns null *)
| Blank                        (* getItem returns the empty string *)
| Corrupt                      (* JSON.parse throws on the text *)
| Stored (s : UserMediaStore). (* JSON.parse returns s *)

Record World : Type := mkWorld {
  currentUser : option string;   (* sessionStore: let currentUser *)
  hasWindow : bool;              (* typeof window !== 'undefined' *)
  emptyStore : UserMediaStore;   (* mediaStore: const emptyStore, a shared object *)
  slot : Slot;                   (* localStorage[STORAGE_KEY] *)
  quotaExceeded : bool;          (* localStorage.setItem throws *)
  dispatched : nat;              (* 'mediaStoreUpdate' events dispatched *)
  console : list Log;
  nowRandom : list number;       (* upcoming values of Date.now() + Math.random() *)
  isoNow : string;               (* new Date().toISOString() *)
  supabase : Supabase
}.

Definition set_emptyStore (e : UserMediaStore) (w : World) : World :=
  mkWorld (currentUser w) (hasWindow w) e (slot w) (quotaExceeded w)
    (dispatched w) (console w) (nowRandom w) (isoNow w) (supabase w).

Definition set_slot (s : Slot) (w : World) : World :=
  mkWorld (currentUser w) (hasWindow w) (emptyStore w) s (quotaExceeded w)
    (dispatched w) (console w) (nowRandom w) (isoNow w) (supabase w).

Definition set_dispatched (n : nat) (w : World) : World :=
  mkWorld (currentUser w) (hasWindow w) (emptyStore w) (slot w) (quotaExceeded w)
    n (console w) (nowRandom w) (isoNow w) (supabase w).

Definition set_console (c : list Log) (w : World) : World :=
  mkWorld (currentUser w) (hasWindow w) (emptyStore w) (slot w) (quotaExceeded w)
    (dispatched w) c (nowRandom w) (isoNow w) (supabase w).

Definition set_nowRandom (r : list number) (w : World) : World :=
  mkWorld (currentUser w) (hasWindow w) (emptyStore w) (slot w) (quotaExceeded w)
    (dispatched w) (console w) r (isoNow w) (supabase w).

Definition set_supabase (sb : Supabase) (w : World) : World :=
  mkWorld (currentUser w) (hasWindow w) (emptyStore w) (slot w) (quotaExceeded w)
    (dispatched w) (console w) (nowRandom w) (isoNow w) sb.

(** ** Computations: state and exceptions *)

Inductive Result (A : Type) : Type :=
| Return (a : A)
| Throw (e : Exn).
Arguments Return {A} a.
Arguments Throw {A} e.

Definition M (A : Type) : Type := World -> Result A * World.

Definition ret {A : Type} (a : A) : M A := fun w => (Return a, w).

Definition throw {A : Type} (e : Exn) : M A := fun w => (Throw e, w).

Definition bind {A B : Type} (m : M A) (k : A -> M B) : M B :=
  fun w =>
    match m w with
    | (Return a, w') => k a w'
    | (Throw e, w') => (Throw e, w')
    end.

(** [try { m } catch (error) { h error }] *)
Definition try_catch {A : Type} (m : M A) (h : Exn -> M A) : M A :=
  fun w =>
    match m w with
    | (Return a, w') => (Return a, w')
    | (Throw e, w') => h e w'
    end.

Definition modify (f : World -> World) : M unit := fun w => (Return tt, f w).

Definition read {A : Type} (f : World -> A) : M A := fun w => (Return (f w), w).

Declare Scope m_scope.
Delimit Scope m_scope with m.
Notation "x <- m ;; k" := (bind m (fun x => k))
  (at level 61, m at next level, right associativity) : m_scope.
Notation "m ;; k" := (bind m (fun _ => k))
  (at level 61, right associativity) : m_scope.
Local Open Scope m_scope.

Definition console_error (m : string) : M unit :=
  modify (fun w => set_console (console w ++ [LogError m]) w).

Definition console_warn (m : string) : M unit :=
  modify (fun w => set_console (console w ++ [LogWarn m]) w).

(** [Date.now() + Math.random()]: the next value of the stream. *)
Definition date_now_plus_random : M number :=
  fun w =>
    match nowRandom w with
    | [] => (Return (QArith_base.Qmake 0 1), w)
    | x :: xs => (Return x, set_nowRandom xs w)
    end.

(** A request to the hosted table. *)
Definition request {A : Type} (f : Supabase -> A * Supabase) : M A :=
  fun w => let (a, sb) := f (supabase w) in (Return a, set_supabase sb w).

(** ** store/sessionStore.ts *)

Definition isLoggedIn : M bool :=
  read (fun w => match currentUser w with Some _ => true | None => false end).

(** ** services/userMediaService.ts *)

Module userMediaService.

Definition getAllUserMedia : M (list Row.t) :=
  modify (fun w => set_supabase (record_call GetAllUserMedia (supabase w)) w) ;;
  r <- request db_select ;;
  match r with
  | inl error => console_error "Error fetching user media:" ;; throw error
  | inr data => ret data
  end.

Definition addUserMedia (mediaData : Insert.t) : M Row.t :=
  modify (fun w => set_supabase (record_call (AddUserMedia mediaData) (supabase w)) w) ;;
  user <- read (fun w => authUser (supabase w)) ;;
  match user with
  | None => throw (Error "User not authenticated")
  | Some user_id =>
      r <- request (db_insert user_id mediaData) ;;
      match r with
      | inl error => console_error "Error adding user media:" ;; throw error
      | inr data => ret data
      end
  end.

Definition updateUserMedia (tmdbId : Z) (mediaType : MediaType) (updates : Update)
    : M Row.t :=
  modify (fun w => set_supabase
                     (record_call (UpdateUserMedia tmdbId mediaType updates)
                                  (supabase w)) w) ;;
  now <- read isoNow ;;
  r <- request (db_update tmdbId mediaType updates now) ;;
  match r with
  | inl error => console_error "Error updating user media:" ;; throw error
  | inr data => ret data
  end.

Definition updateMediaStatus (tmdbId : Z) (mediaType : MediaType)
    (status : WatchStatus) : M Row.t :=
  updateUserMedia tmdbId mediaType (UpdStatus status).

Definition updateTVProgress (tmdbId : Z) (currentSeason currentEpisode : Z)
    : M Row.t :=
  updateUserMedia tmdbId tv (UpdProgress currentSeason currentEpisode).

Definition removeUserMedia (tmdbId : Z) (mediaType : MediaType) : M unit :=
  modify (fun w => set_supabase
                     (record_call (RemoveUserMedia tmdbId mediaType)
                                  (supabase w)) w) ;;
  r <- request (db_delete tmdbId mediaType) ;;
  match r with
  | Some error => console_error "Error removing user media:" ;; throw error
  | None => ret tt
  end.

End userMediaService.

(** ** store/mediaStore.ts *)

(** The object a call of [getLocalStore] hands out: the module's
    [emptyStore] itself, or a fresh object made by [JSON.parse].  The callers
    mutate what they are handed, so the difference is observable. *)
Inductive Ref : Type := TheEmptyStore | Parsed.

(** A write through the reference: an assignment to a property of the
    object, or a [push] on one of its arrays. *)
Definition assign (r : Ref) (st : UserMediaStore) : M unit :=
  match r with
  | TheEmptyStore => modify (set_emptyStore st)
  | Parsed => ret tt
  end.

Definition localStorage_getItem : M Slot :=
  fun w =>
    match slot w with
    | Blocked => (Throw (Error "SecurityError"), w)
    | s => (Return s, w)
    end.

Definition localStorage_setItem (st : UserMediaStore) : M unit :=
  fun w =>
    if quotaExceeded w then (Throw (Error "QuotaExceededError"), w)
    else (Return tt, set_slot (Stored st) w).

Definition dispatchEvent_mediaStoreUpdate : M unit :=
  modify (fun w => set_dispatched (S (dispatched w)) w).

Definition getLocalStore : M (Ref * UserMediaStore) :=
  win <- read hasWindow ;;
  if negb win then
    e <- read emptyStore ;; ret (TheEmptyStore, e)
  else
    try_catch
      (stored <- localStorage_getItem ;;
       match stored with
       | Missing | Blank | Blocked =>
           e <- read emptyStore ;; ret (TheEmptyStore, e)
       | Corrupt => throw (Error "SyntaxError")
       | Stored s => ret (Parsed, s)
       end)
      (fun error =>
         console_error "Error reading from localStorage:" ;;
         e <- read emptyStore ;; ret (TheEmptyStore, e)).

Definition saveLocalStore (store : UserMediaStore) : M unit :=
  win <- read hasWindow ;;
  if negb win then ret tt
  else
    try_catch
      (localStorage_setItem store ;;
       dispatchEvent_mediaStoreUpdate)
      (fun error => console_error "Error saving to localStorage:").

Definition to_opt {A : Type} (o : option A) : opt A :=
  match o with
  | Some a => Val a
  | None => Null
  end.

Definition supabaseToMediaItem (row : Row.t) : M MediaItem.t :=
  id <- date_now_plus_random ;;
  ret (MediaItem.mk id (Row.tmdb_id row) (Row.title row) (Row.media_type row)
         (Row.poster_path row) (Row.release_year row) (Row.rating row)
         (Row.status row) (Row.created_at row)
         (to_opt (Row.current_season row)) (to_opt (Row.current_episode row))
         (to_opt (Row.overview row)) (to_opt (Row.runtime row))
         (to_opt (Row.number_of_seasons row))
         (to_opt (Row.number_of_episodes row))).

Definition mediaItemToSupabase (item : MediaItem.t) : Insert.t :=
  Insert.mk (MediaItem.tmdbId item) (MediaItem.mediaType item)
    (MediaItem.status item) (MediaItem.currentSeason item)
    (MediaItem.currentEpisode item) (MediaItem.title item)
    (MediaItem.posterPath item) (MediaItem.releaseYear item)
    (MediaItem.rating item) (MediaItem.overview item) (MediaItem.runtime item)
    (MediaItem.numberOfSeasons item) (MediaItem.numberOfEpisodes item).

Definition empty : UserMediaStore := mkStore [] [] [].

(** [media.forEach(row => { ...; store[item.status].push(item) })] *)
Fixpoint forEach_row (media : list Row.t) (store : UserMediaStore)
    : M UserMediaStore :=
  match media with
  | [] => ret store
  | row :: rest =>
      item <- supabaseToMediaItem row ;;
      forEach_row rest (push (MediaItem.status item) item store)
  end.

Definition loadFromSupabase : M unit :=
  logged <- isLoggedIn ;;
  if negb logged then ret tt
  else
    try_catch
      (media <- userMediaService.getAllUserMedia ;;
       store <- forEach_row media empty ;;
       saveLocalStore store)
      (fun error => console_error "Error loading from Supabase:").

Definition addToList (item : MediaItem.t) : M unit :=
  logged <- isLoggedIn ;;
  (if logged then
     try_catch
       (userMediaService.addUserMedia (mediaItemToSupabase item) ;; ret tt)
       (fun error => console_error "Error adding to Supabase:" ;; throw error)
   else ret tt) ;;
  rs <- getLocalStore ;;
  let (r, store) := rs in
  let allItems := spread store in
  let exists_ :=
    existsb (same_key (MediaItem.tmdbId item) (MediaItem.mediaType item)) allItems in
  if exists_ then console_warn "Item already in list"
  else
    let store := push (MediaItem.status item) item store in
    assign r store ;;
    saveLocalStore store.

Definition removeFromList (tmdbId : Z) (mediaType : MediaType) : M unit :=
  logged <- isLoggedIn ;;
  (if logged then
     try_catch
       (userMediaService.removeUserMedia tmdbId mediaType)
       (fun error => console_error "Error removing from Supabase:" ;; throw error)
   else ret tt) ;;
  rs <- getLocalStore ;;
  let (r, store) := rs in
  let keep := fun i => negb (same_key tmdbId mediaType i) in
  let store := set_status_list WantToWatch (filter keep (want_to_watch store)) store in
  let store := set_status_list Watching (filter keep (watching store)) store in
  let store := set_status_list Completed (filter keep (completed store)) store in
  assign r store ;;
  saveLocalStore store.

(** [for (const status of ['want_to_watch', 'watching', 'completed'])] of
    [updateStatus]: the first list that holds the key loses every item with
    that key, and the loop breaks with the item found. *)
Fixpoint take_out (tmdbId : Z) (mediaType : MediaType)
    (statuses : list WatchStatus) (store : UserMediaStore)
    : option MediaItem.t * UserMediaStore :=
  match statuses with
  | [] => (None, store)
  | status :: rest =>
      match find (same_key tmdbId mediaType) (at_status status store) with
      | Some item =>
          (Some item,
           set_status_list status
             (filter (fun i => negb (same_key tmdbId mediaType i))
                     (at_status status store))
             store)
      | None => take_out tmdbId mediaType rest store
      end
  end.

Definition all_statuses : list WatchStatus := [WantToWatch; Watching; Completed].

Definition updateStatus (tmdbId : Z) (mediaType : MediaType)
    (newStatus : WatchStatus) : M unit :=
  logged <- isLoggedIn ;;
  (if logged then
     try_catch
       (userMediaService.updateMediaStatus tmdbId mediaType newStatus ;; ret tt)
       (fun error => console_error "Error updating status in Supabase:" ;; throw error)
   else ret tt) ;;
  rs <- getLocalStore ;;
  let (r, store) := rs in
  match take_out tmdbId mediaType all_statuses store with
  | (None, _) => console_warn "Item not found in any list"
  | (Some item, store) =>
      let item := MediaItem.set_status newStatus item in
      let store := push newStatus item store in
      assign r store ;;
      saveLocalStore store
  end.

Definition getByStatus (status : WatchStatus) : M (list MediaItem.t) :=
  rs <- getLocalStore ;;
  ret (at_status status (snd rs)).

Definition isInList (tmdbId : Z) (mediaType : MediaType) : M bool :=
  rs <- getLocalStore ;;
  ret (existsb (same_key tmdbId mediaType) (spread (snd rs))).

Definition getItemStatus (tmdbId : Z) (mediaType : MediaType)
    : M (option WatchStatus) :=
  rs <- getLocalStore ;;
  ret (find (fun status =>
               match find (same_key tmdbId mediaType) (at_status status (snd rs)) with
               | Some _ => true
               | None => false
               end) all_statuses).

Definition getAllItems : M (list MediaItem.t) :=
  rs <- getLocalStore ;;
  ret (spread (snd rs)).

(** [item.currentSeason = ...; item.currentEpisode = ...] on the first item
    of the list with the key: the item is changed where it sits. *)
Fixpoint mark_first (tmdbId : Z) (mediaType : MediaType) (se ep : Z)
    (l : list MediaItem.t) : list MediaItem.t :=
  match l with
  | [] => []
  | i :: rest =>
      if same_key tmdbId mediaType i
      then MediaItem.set_progress se ep i :: rest
      else i :: mark_first tmdbId mediaType se ep rest
  end.

Fixpoint mark_progress (tmdbId : Z) (mediaType : MediaType) (se ep : Z)
    (statuses : list WatchStatus) (store : UserMediaStore)
    : bool * UserMediaStore :=
  match statuses with
  | [] => (false, store)
  | status :: rest =>
      match find (same_key tmdbId mediaType) (at_status status store) with
      | Some _ =>
          (true,
           set_status_list status
             (mark_first tmdbId mediaType se ep (at_status status store)) store)
      | None => mark_progress tmdbId mediaType se ep rest store
      end
  end.

Definition updateProgress (tmdbId : Z) (mediaType : MediaType)
    (currentSeason currentEpisode : Z) : M unit :=
  if negb (MediaType_eqb mediaType tv) then
    console_warn "Progress tracking is only for TV series"
  else
    logged <- isLoggedIn ;;
    (if logged then
       try_catch
         (userMediaService.updateTVProgress tmdbId currentSeason currentEpisode ;;
          ret tt)
         (fun error => console_error "Error updating progress in Supabase:" ;;
                       throw error)
     else ret tt) ;;
    rs <- getLocalStore ;;
    let (r, store) := rs in
    match mark_progress tmdbId mediaType currentSeason currentEpisode
            all_statuses store with
    | (true, store) =>
        assign r store ;;
        saveLocalStore store
    | (false, _) => console_warn "Item not found for progress update"
    end.

Definition clearLocalCache : M unit :=
  e <- read emptyStore ;;
  saveLocalStore e.

Definition clearAll : M unit := clearLocalCache.

Definition getGuestDataCount : M nat :=
  rs <- getLocalStore ;;
  let store := snd rs in
  ret (List.length (want_to_watch store) + List.length (watching store)
       + List.length (completed store)).

(** [for (const item of allGuestItems) { try { ...; migratedCount++ } catch ... }] *)
Fixpoint migrate_each (items : list MediaItem.t) (migratedCount : nat) : M nat :=
  match items with
  | [] => ret migratedCount
  | item :: rest =>
      n <- try_catch
             (userMediaService.addUserMedia (mediaItemToSupabase item) ;;
              ret (S migratedCount))
             (fun error => console_error "Error migrating item:" ;;
                           ret migratedCount) ;;
      migrate_each rest n
  end.

Definition migrateGuestDataToSupabase : M nat :=
  logged <- isLoggedIn ;;
  if negb logged then throw (Error "User must be logged in to migrate data")
  else
    rs <- getLocalStore ;;
    let allGuestItems := spread (snd rs) in
    if Nat.eqb (List.length allGuestItems) 0 then ret 0
    else
      migratedCount <- migrate_each allGuestItems 0 ;;
      loadFromSupabase ;;
      ret migratedCount.

(** ** store/appStore.ts *)

Module appStore.

Record AppState : Type := mkState {
  user : option string;
  isAuthenticated : bool;
  guestModeWarningShown : bool;
  hasGuestData : bool;
  authResolved : bool;
  dataHydrated : bool;
  appInitialized : bool
}.

(** The module: its [state], the snapshots [notifyListeners] has handed to
    the listeners (one per call), and the console. *)
Record Store : Type := mkStore {
  state : AppState;
  notified : list AppState;
  logged : list string
}.

Definition initial : Store :=
  mkStore (mkState None false false false false false false) [] [].

Definition set_state (f : AppState -> AppState) (s : Store) : Store :=
  mkStore (f (state s)) (notified s) (logged s).

Definition console_log (m : string) (s : Store) : Store :=
  mkStore (state s) (notified s) (logged s ++ [m]).

Definition notifyListeners (s : Store) : Store :=
  let currentState := state s in
  mkStore (state s) (notified s ++ [currentState]) (logged s).

Definition checkAndMarkAppInitialized (s : Store) : Store :=
  if authResolved (state s) && dataHydrated (state s)
     && negb (appInitialized (state s))
  then
    let s := set_state (fun a =>
               mkState (user a) (isAuthenticated a) (guestModeWarningShown a)
                 (hasGuestData a) (authResolved a) (dataHydrated a) true) s in
    let s := console_log "App fully initialized!" s in
    notifyListeners s
  else s.

Definition markAuthResolved (s : Store) : Store :=
  let s := set_state (fun a =>
             mkState (user a) (isAuthenticated a) (guestModeWarningShown a)
               (hasGuestData a) true (dataHydrated a) (appInitialized a)) s in
  let s := console_log "Auth resolved" s in
  checkAndMarkAppInitialized s.

Definition markDataHydrated (s : Store) : Store :=
  let s := set_state (fun a =>
             mkState (user a) (isAuthenticated a) (guestModeWarningShown a)
               (hasGuestData a) (authResolved a) true (appInitialized a)) s in
  let s := console_log "Data hydrated" s in
  checkAndMarkAppInitialized s.

Definition isAppInitialized (s : Store) : bool := appInitialized (state s).
Definition isAuthResolved (s : Store) : bool := authResolved (state s).
Definition isDataHydrated (s : Store) : bool := dataHydrated (state s).

Definition resetInitialization (s : Store) : Store :=
  let s := set_state (fun a =>
             mkState (user a) (isAuthenticated a) (guestModeWarningShown a)
               (hasGuestData a) false false false) s in
  let s := console_log "Initialization flags reset" s in
  notifyListeners s.

(** The calls the bootstrap and the logout handler make on the gate. *)
Inductive Op : Type :=
| MarkAuthResolved
| MarkDataHydrated
| ResetInitialization.

Definition step (s : Store) (o : Op) : Store :=
  match o with
  | MarkAuthResolved => markAuthResolved s
  | MarkDataHydrated => markDataHydrated s
  | ResetInitialization => resetInitialization s
  end.

Definition run (ops : list Op) (s : Store) : Store := fold_left step ops s.

Definition is_reset (o : Op) : bool :=
  match o with
  | ResetInitialization => true
  | _ => false
  end.

(** The gate is open exactly when both signals have arrived. *)
Definition inv (s : Store) : Prop :=
  appInitialized (state s) = authResolved (state s) && dataHydrated (state s).

End appStore.

(** ** Reading the cache, and sequences of calls *)

(** The collection the store operations see: what [getLocalStore] returns. *)
Definition local_cache (w : World) : UserMediaStore :=
  match fst (getLocalStore w) with
  | Return rs => snd rs
  | Throw _ => empty
  end.

Definition keys (st : UserMediaStore) : list Key := map key_of (spread st).

Definition Key_eqb (a b : Key) : bool :=
  Z.eqb (fst a) (fst b) && MediaType_eqb (snd a) (snd b).

(** The three mutations of the user interface. *)
Inductive Op : Type :=
| AddItem (item : MediaItem.t)
| RemoveItem (tmdbId : Z) (mediaType : MediaType)
| ChangeStatus (tmdbId : Z) (mediaType : MediaType) (newStatus : WatchStatus).

Definition exec (o : Op) : M unit :=
  match o with
  | AddItem item => addToList item
  | RemoveItem tmdbId mediaType => removeFromList tmdbId mediaType
  | ChangeStatus tmdbId mediaType newStatus => updateStatus tmdbId mediaType newStatus
  end.

(** Each call is made by its own event handler: what one call returns or
    throws does not stop the next. *)
Definition run (ops : list Op) (w : World) : World :=
  fold_left (fun w o => snd (exec o w)) ops w.

(** The keys added and not subsequently removed, read off the sequence of
    calls alone. *)
Fixpoint live_after (ops : list Op) (acc : list Key) : list Key :=
  match ops with
  | [] => acc
  | AddItem item :: rest => live_after rest (key_of item :: acc)
  | RemoveItem tmdbId mediaType :: rest =>
      live_after rest
        (filter (fun k => negb (Key_eqb k (tmdbId, mediaType))) acc)
  | ChangeStatus _ _ _ :: rest => live_after rest acc
  end.

Definition live (ops : list Op) : list Key := live_after ops [].

Definition added (ops : list Op) (i : MediaItem.t) : Prop := In (AddItem i) ops.

(** The local side of a world: what a change of the cache would touch. *)
Definition local_unchanged (w w' : World) : Prop :=
  slot w' = slot w /\ emptyStore w' = emptyStore w
  /\ dispatched w' = dispatched w /\ local_cache w' = local_cache w.

(** ** Hydration and migration, as the specification words them *)

(** A row as an item, with [id] for the local identifier. *)
Definition item_of_row (id : number) (row : Row.t) : MediaItem.t :=
  MediaItem.mk id (Row.tmdb_id row) (Row.title row) (Row.media_type row)
    (Row.poster_path row) (Row.release_year row) (Row.rating row)
    (Row.status row) (Row.created_at row)
    (to_opt (Row.current_season row)) (to_opt (Row.current_episode row))
    (to_opt (Row.overview row)) (to_opt (Row.runtime row))
    (to_opt (Row.number_of_seasons row)) (to_opt (Row.number_of_episodes row)).

(** The first [n] values of [Date.now() + Math.random()]. *)
Fixpoint draws (n : nat) (stream : list number) : list number :=
  match n with
  | O => []
  | S n' =>
      match stream with
      | [] => QArith_base.Qmake 0 1 :: draws n' []
      | x :: xs => x :: draws n' xs
      end
  end.

(** The status partition of a remote collection whose rows come with their
    local identifiers. *)
Definition partition_of (s : WatchStatus) (rows : list (Row.t * number))
    : list MediaItem.t :=
  map (fun p => item_of_row (snd p) (fst p))
      (filter (fun p => WatchStatus_eqb (Row.status (fst p)) s) rows).

Definition partitioning (rows : list (Row.t * number)) : UserMediaStore :=
  mkStore (partition_of WantToWatch rows) (partition_of Watching rows)
          (partition_of Completed rows).

(** An item without its locally generated [id]. *)
Definition forget_id (i : MediaItem.t) : MediaItem.t :=
  MediaItem.mk (QArith_base.Qmake 0 1) (MediaItem.tmdbId i) (MediaItem.title i)
    (MediaItem.mediaType i) (MediaItem.posterPath i) (MediaItem.releaseYear i)
    (MediaItem.rating i) (MediaItem.status i) (MediaItem.addedAt i)
    (MediaItem.currentSeason i) (MediaItem.currentEpisode i)
    (MediaItem.overview i) (MediaItem.runtime i) (MediaItem.numberOfSeasons i)
    (MediaItem.numberOfEpisodes i).

Definition forget_ids (st : UserMediaStore) : UserMediaStore :=
  mkStore (map forget_id (want_to_watch st)) (map forget_id (watching st))
          (map forget_id (completed st)).

(** The guest items the hosted table accepts, in order: the reply to the
    insert is [Accept] and the table does not hold the key yet. *)
Fixpoint accepted (items : list MediaItem.t) (rs : list Reply)
    (held : list Key) : list MediaItem.t :=
  match items, rs with
  | item :: items', Accept _ _ :: rs' =>
      if existsb (fun k => Key_eqb k (key_of item)) held
      then accepted items' rs' held
      else item :: accepted items' rs' (key_of item :: held)
  | _ :: items', Reject _ :: rs' => accepted items' rs' held
  | _, _ => []
  end.

(** ** What a guest call does to the collection

    The three mutations with the session, the storage and the console taken
    away: the lists each call computes from the collection it read. *)

Definition add_local (item : MediaItem.t) (c : UserMediaStore) : UserMediaStore :=
  if existsb (same_key (MediaItem.tmdbId item) (MediaItem.mediaType item)) (spread c)
  then c
  else push (MediaItem.status item) item c.

Definition remove_local (tmdbId : Z) (mediaType : MediaType) (c : UserMediaStore)
    : UserMediaStore :=
  let keep := fun i => negb (same_key tmdbId mediaType i) in
  mkStore (filter keep (want_to_watch c)) (filter keep (watching c))
          (filter keep (completed c)).

Definition change_local (tmdbId : Z) (mediaType : MediaType)
    (newStatus : WatchStatus) (c : UserMediaStore) : UserMediaStore :=
  match take_out tmdbId mediaType all_statuses c with
  | (None, _) => c
  | (Some item, c') => push newStatus (MediaItem.set_status newStatus item) c'
  end.

Definition apply_local (c : UserMediaStore) (o : Op) : UserMediaStore :=
  match o with
  | AddItem item => add_local item c
  | RemoveItem tmdbId mediaType => remove_local tmdbId mediaType c
  | ChangeStatus tmdbId mediaType newStatus =>
      change_local tmdbId mediaType newStatus c
  end.

(** The lists of a collection other than the one for [s], in order. *)
Definition others (s : WatchStatus) (c : UserMediaStore) : list MediaItem.t :=
  match s with
  | WantToWatch => watching c ++ completed c
  | Watching => want_to_watch c ++ completed c
  | Completed => want_to_watch c ++ watching c
  end.

(** What holds of the collection after the calls [ops] on the empty one:
    no key twice, the keys are the live ones, every item sits in the list
    its [status] names, and every item is one that was added, with at most
    its [status] changed. *)
Definition Inv (ops : list Op) (c : UserMediaStore) : Prop :=
  NoDup (keys c)
  /\ (forall k, In k (keys c) <-> In k (live ops))
  /\ (forall s x, In x (at_status s c) -> MediaItem.status x = s)
  /\ (forall x, In x (spread c) ->
        exists i, added ops i
                  /\ x = MediaItem.set_status (MediaItem.status x) i).

(** ** Names for the proofs *)

(** A world whose hosted table and console were replaced: all that the
    service can do to a world. *)
Definition frame (w : World) (sb : Supabase) (c : list Log) : World :=
  set_console c (set_supabase sb w).

(** The statements of [addToList] after its remote step. *)
Definition addToList_cache (item : MediaItem.t) : M unit :=
  rs <- getLocalStore ;;
  let (r, store) := rs in
  let allItems := spread store in
  let exists_ :=
    existsb (same_key (MediaItem.tmdbId item) (MediaItem.mediaType item)) allItems in
  if exists_ then console_warn "Item already in list"
  else
    let store := push (MediaItem.status item) item store in
    assign r store ;;
    saveLocalStore store.

(** The statements of [updateStatus] after its remote step. *)
Definition updateStatus_cache (tmdbId : Z) (mediaType : MediaType)
    (newStatus : WatchStatus) : M unit :=
  rs <- getLocalStore ;;
  let (r, store) := rs in
  match take_out tmdbId mediaType all_statuses store with
  | (None, _) => console_warn "Item not found in any list"
  | (Some item, store) =>
      let item := MediaItem.set_status newStatus item in
      let store := push newStatus item store in
      assign r store ;;
      saveLocalStore store
  end.

(** [store[item.status].push(item)] for a row and its local identifier. *)
Definition push_row (st : UserMediaStore) (p : Row.t * number) : UserMediaStore :=
  push (Row.status (fst p)) (item_of_row (snd p) (fst p)) st.

(** The hosted table after the inserts of the guest items [items] were
    answered by the replies [rs]. *)
Fixpoint inserted (user : string) (items : list MediaItem.t) (rs : list Reply)
    (table : list Row.t) : list Row.t :=
  match items, rs with
  | item :: items', Accept uuid now :: rs' =>
      if existsb (Row.has_key (MediaItem.tmdbId item) (MediaItem.mediaType item))
                 table
      then inserted user items' rs' table
      else inserted user items' rs'
             (row_of_insert uuid now user (mediaItemToSupabase item) :: table)
  | _ :: items', Reject _ :: rs' => inserted user items' rs' table
  | _, _ => table
  end.

(** ** Sample data *)

Definition fight_club : MediaItem.t :=
  MediaItem.mk (QArith_base.Qmake 1 1) 550 "Fight Club" movie None "1999"
    (QArith_base.Qmake 84 10) WantToWatch "2024-01-01T10:00:00.000Z"
    Undefined Undefined Undefined Undefined Undefined Undefined.

Definition breaking_bad : MediaItem.t :=
  MediaItem.mk (QArith_base.Qmake 2 1) 1396 "Breaking Bad" tv None "2008"
    (QArith_base.Qmake 89 10) Watching "2024-01-02T10:00:00.000Z"
    Undefined Undefined Undefined Undefined Undefined Undefined.

Definition inception : MediaItem.t :=
  MediaItem.mk (QArith_base.Qmake 3 1) 27205 "Inception" movie None "2010"
    (QArith_base.Qmake 84 10) Completed "2024-01-03T10:00:00.000Z"
    Undefined Undefined Undefined Undefined Undefined Undefined.

Definition no_supabase : Supabase := mkSupabase None [] [] [].

(** A first visit: no session, nothing stored, a storage that works. *)
Definition guest_world : World :=
  mkWorld None true empty Missing false 0 [] [] "2024-01-05T10:00:00.000Z"
    no_supabase.

(** A first visit with a storage that refuses every write. *)
Definition full_storage_world : World :=
  mkWorld None true empty Missing true 0 [] [] "2024-01-05T10:00:00.000Z"
    no_supabase.

(** A session whose cache is [c] and whose hosted table is [table], with
    the replies [rs] to come and [ids] the coming local identifiers. *)
Definition session_world (c : UserMediaStore) (table : list Row.t)
    (rs : list Reply) (ids : list number) : World :=
  mkWorld (Some "user-1") true empty (Stored c) false 0 [] ids
    "2024-01-05T10:00:00.000Z" (mkSupabase (Some "user-1") table rs []).

Definition fight_club_row : Row.t :=
  Row.mk "7f1c" "user-1" 550 movie WantToWatch None None "Fight Club" None
    "1999" (QArith_base.Qmake 84 10) None None None None
    "2024-01-01T10:00:00.000Z" "2024-01-01T10:00:00.000Z".

(** The guest collection of the migration scenario: three items, one in
    each list. *)
Definition three_guest_items : UserMediaStore :=
  mkStore [fight_club] [breaking_bad] [inception].

(** Just signed in with that collection: the account is empty, the insert
    of the second item will be rejected, the fetch will be answered. *)
Definition migration_world : World :=
  session_world three_guest_items []
    ([Accept "a1" "2024-01-05T10:00:01.000Z"; Reject "503";
      Accept "a3" "2024-01-05T10:00:03.000Z"]
     ++ [Accept "f0" "2024-01-05T10:00:09.000Z"])
    [].

(** ** More of store/mediaStore.ts *)

(** What [getProgress] returns: [{ season, episode }].  The fields are
    whatever the item holds once both are not [undefined]. *)
Record Progress : Type := mkProgress {
  season : opt Z;
  episode : opt Z
}.

(** [for (const status of [...])] of [getProgress]: the first list whose
    first item with the key has both progress fields. *)
Fixpoint find_progress (tmdbId : Z) (mediaType : MediaType)
    (statuses : list WatchStatus) (store : UserMediaStore) : option Progress :=
  match statuses with
  | [] => None
  | status :: rest =>
      match find (same_key tmdbId mediaType) (at_status status store) with
      | Some item =>
          match MediaItem.currentSeason item, MediaItem.currentEpisode item with
          | Undefined, _ => find_progress tmdbId mediaType rest store
          | _, Undefined => find_progress tmdbId mediaType rest store
          | se, ep => Some (mkProgress se ep)
          end
      | None => find_progress tmdbId mediaType rest store
      end
  end.

Definition getProgress (tmdbId : Z) (mediaType : MediaType)
    : M (option Progress) :=
  if negb (MediaType_eqb mediaType tv) then ret None
  else
    rs <- getLocalStore ;;
    ret (find_progress tmdbId mediaType all_statuses (snd rs)).

(** The fields of a TMDB movie that [movieToMediaItem] reads.  The cards
    build these objects by hand and leave [overview] out, hence [opt]. *)
Module TMDBMovie.
Record t : Type := mk {
  id : Z;
  title : string;
  poster_path : option string;
  overview : opt string;
  release_date : opt string;
  vote_average : number
}.
End TMDBMovie.

Module TMDBTVSeries.
Record t : Type := mk {
  id : Z;
  name : string;
  poster_path : option string;
  overview : opt string;
  first_air_date : opt string;
  vote_average : number
}.
End TMDBTVSeries.

(** [dateString.split('-')[0]]: the text before the first dash. *)
Fixpoint before_dash (s : string) : string :=
  match s with
  | EmptyString => EmptyString
  | String c rest =>
      if Ascii.eqb c "-"%char then EmptyString
      else String c (before_dash rest)
  end.

(** services/tmdb.ts *)
Definition getYear (dateString : opt string) : string :=
  match dateString with
  | Val (String c rest) => before_dash (String c rest)
  | _ => "N/A"
  end.

Definition movieToMediaItem (movie_ : TMDBMovie.t) (status : WatchStatus)
    : M MediaItem.t :=
  id <- date_now_plus_random ;;
  addedAt <- read isoNow ;;
  ret (MediaItem.mk id (TMDBMovie.id movie_) (TMDBMovie.title movie_) movie
         (TMDBMovie.poster_path movie_)
         (getYear (TMDBMovie.release_date movie_))
         (TMDBMovie.vote_average movie_) status addedAt
         Undefined Undefined (TMDBMovie.overview movie_)
         Undefined Undefined Undefined).

Definition tvToMediaItem (tv_ : TMDBTVSeries.t) (status : WatchStatus)
    : M MediaItem.t :=
  id <- date_now_plus_random ;;
  addedAt <- read isoNow ;;
  ret (MediaItem.mk id (TMDBTVSeries.id tv_) (TMDBTVSeries.name tv_) tv
         (TMDBTVSeries.poster_path tv_)
         (getYear (TMDBTVSeries.first_air_date tv_))
         (TMDBTVSeries.vote_average tv_) status addedAt
         Undefined Undefined (TMDBTVSeries.overview tv_)
         Undefined Undefined Undefined).

(** ** More names for the proofs *)

(** The statements of [removeFromList] after its remote step. *)
Definition removeFromList_cache (tmdbId : Z) (mediaType : MediaType) : M unit :=
  rs <- getLocalStore ;;
  let (r, store) := rs in
  let keep := fun i => negb (same_key tmdbId mediaType i) in
  let store := set_status_list WantToWatch (filter keep (want_to_watch store)) store in
  let store := set_status_list Watching (filter keep (watching store)) store in
  let store := set_status_list Completed (filter keep (completed store)) store in
  assign r store ;;
  saveLocalStore store.

(** The statements of [updateProgress] after its remote step. *)
Definition updateProgress_cache (tmdbId : Z) (mediaType : MediaType)
    (currentSeason currentEpisode : Z) : M unit :=
  rs <- getLocalStore ;;
  let (r, store) := rs in
  match mark_progress tmdbId mediaType currentSeason currentEpisode
          all_statuses store with
  | (true, store) =>
      assign r store ;;
      saveLocalStore store
  | (false, _) => console_warn "Item not found for progress update"
  end.

(** What a call of [updateProgress] on a series does to the collection. *)
Definition progress_local (tmdbId : Z) (currentSeason currentEpisode : Z)
    (c : UserMediaStore) : UserMediaStore :=
  snd (mark_progress tmdbId tv currentSeason currentEpisode all_statuses c).

(** What [getItemStatus] computes from the collection it read. *)
Definition status_in (tmdbId : Z) (mediaType : MediaType) (c : UserMediaStore)
    : option WatchStatus :=
  find (fun status =>
          match find (same_key tmdbId mediaType) (at_status status c) with
          | Some _ => true
          | None => false
          end) all_statuses.

(** An item with every missing optional field read as [null], a new local
    identifier and a new [addedAt]: what comes back from the hosted table. *)
Definition nulled {A : Type} (o : opt A) : opt A :=
  match o with
  | Undefined => Null
  | x => x
  end.

Definition as_hydrated (id : number) (created_at : string) (i : MediaItem.t)
    : MediaItem.t :=
  MediaItem.mk id (MediaItem.tmdbId i) (MediaItem.title i)
    (MediaItem.mediaType i) (MediaItem.posterPath i) (MediaItem.releaseYear i)
    (MediaItem.rating i) (MediaItem.status i) created_at
    (nulled (MediaItem.currentSeason i)) (nulled (MediaItem.currentEpisode i))
    (nulled (MediaItem.overview i)) (nulled (MediaItem.runtime i))
    (nulled (MediaItem.numberOfSeasons i))
    (nulled (MediaItem.numberOfEpisodes i)).

(** The cache half of each of the three mutations. *)
Definition exec_cache (o : Op) : M unit :=
  match o with
  | AddItem item => addToList_cache item
  | RemoveItem tmdbId mediaType => removeFromList_cache tmdbId mediaType
  | ChangeStatus tmdbId mediaType newStatus =>
      updateStatus_cache tmdbId mediaType newStatus
  end.

(** The remote half: the service call the mutation makes in a session. *)
Definition exec_remote (o : Op) : M unit :=
  match o with
  | AddItem item =>
      userMediaService.addUserMedia (mediaItemToSupabase item) ;; ret tt
  | RemoveItem tmdbId mediaType =>
      userMediaService.removeUserMedia tmdbId mediaType
  | ChangeStatus tmdbId mediaType newStatus =>
      userMediaService.updateMediaStatus tmdbId mediaType newStatus ;; ret tt
  end.

(** Whether a call that reaches the cache stores a collection, and so
    dispatches [mediaStoreUpdate]. *)
Definition stores (o : Op) (c : UserMediaStore) : bool :=
  match o with
  | AddItem item =>
      negb (existsb (same_key (MediaItem.tmdbId item) (MediaItem.mediaType item))
                    (spread c))
  | RemoveItem _ _ => true
  | ChangeStatus tmdbId mediaType _ =>
      existsb (same_key tmdbId mediaType) (spread c)
  end.

(** The line a mutation logs before it rethrows a remote failure. *)
Definition remote_error_line (o : Op) : Log :=
  match o with
  | AddItem _ => LogError "Error adding to Supabase:"
  | RemoveItem _ _ => LogError "Error removing from Supabase:"
  | ChangeStatus _ _ _ => LogError "Error updating status in Supabase:"
  end.

(** Whether a text holds a dash. *)
Fixpoint has_dash (s : string) : bool :=
  match s with
  | EmptyString => false
  | String c rest => Ascii.eqb c "-"%char || has_dash rest
  end.

(** components/StatusActions.tsx, [handleAddToList]: the item a card builds
    from its props before it calls [addToList]. *)
Definition card_item (tmdbId : Z) (title : string) (posterPath : option string)
    (releaseYear : string) (rating : number) (mediaType : MediaType)
    (status : WatchStatus) : M MediaItem.t :=
  match mediaType with
  | movie =>
      movieToMediaItem
        (TMDBMovie.mk tmdbId title posterPath Undefined
           (Val (releaseYear ++ "-01-01")%string) rating)
        status
  | tv =>
      tvToMediaItem
        (TMDBTVSeries.mk tmdbId title posterPath Undefined
           (Val (releaseYear ++ "-01-01")%string) rating)
        status
  end.

(** ** The application around the two stores *)

Definition set_currentUser (u : option string) (w : World) : World :=
  mkWorld u (hasWindow w) (emptyStore w) (slot w) (quotaExceeded w)
    (dispatched w) (console w) (nowRandom w) (isoNow w) (supabase w).

(** store/sessionStore.ts.  [getSession] belongs to the authentication
    service, which is outside: what it resolves to, or that it rejects, is
    given.  A session is known by its user. *)
Definition initializeSession (getSession : Result (option string)) : M unit :=
  match getSession with
  | Throw e => throw e
  | Return session => modify (set_currentUser session)
  end.

(** The media store's world, the application store, the two entries of
    [localStorage] that hold the guest flags, and how many times the
    application store's callback sits among the listeners of the session
    store. *)
Record App : Type := mkApp {
  world : World;
  store : appStore.Store;
  guest_warning_item : option string;   (* 'tmdb_guest_warning_shown' *)
  has_guest_data_item : option string;  (* 'tmdb_has_guest_data' *)
  subscribed : nat                      (* sessionStore: let listeners *)
}.

Definition with_world (w : World) (a : App) : App :=
  mkApp w (store a) (guest_warning_item a) (has_guest_data_item a)
    (subscribed a).

Definition with_store (s : appStore.Store) (a : App) : App :=
  mkApp (world a) s (guest_warning_item a) (has_guest_data_item a)
    (subscribed a).

(** components/App.tsx and components/SessionInitializer.tsx: the bootstrap.
    [registerServiceWorker] is an [async] function that is not awaited and
    so throws nothing here. *)
Definition bootstrap (getSession : Result (option string)) (a : App) : App :=
  match initializeSession getSession (world a) with
  | (Throw _, w1) =>
      let w1 := set_console (console w1 ++ [LogError "Bootstrap failed:"]) w1 in
      mkApp w1
        (appStore.markDataHydrated (appStore.markAuthResolved (store a)))
        (guest_warning_item a) (has_guest_data_item a) (subscribed a)
  | (Return _, w1) =>
      let loggedIn := match currentUser w1 with Some _ => true | None => false end in
      let s1 := appStore.markAuthResolved (store a) in
      match (if loggedIn then loadFromSupabase w1 else (Return tt, w1)) with
      | (Return _, w2) =>
          mkApp w2 (appStore.markDataHydrated s1)
            (guest_warning_item a) (has_guest_data_item a) (subscribed a)
      | (Throw _, w2) =>
          let w2 := set_console (console w2 ++ [LogError "Bootstrap failed:"]) w2 in
          mkApp w2
            (appStore.markDataHydrated (appStore.markAuthResolved s1))
            (guest_warning_item a) (has_guest_data_item a) (subscribed a)
      end
  end.

(** ** The guest flags of store/appStore.ts

    The flags live in the state of the application store and in
    [localStorage].  [setItem] throws when the storage refuses writes and
    [getItem] and [removeItem] throw when it cannot be reached, as for the
    media store; none of these calls is guarded by the source. *)

Definition set_flags (warning data : bool) (a : appStore.AppState)
    : appStore.AppState :=
  appStore.mkState (appStore.user a) (appStore.isAuthenticated a) warning data
    (appStore.authResolved a) (appStore.dataHydrated a)
    (appStore.appInitialized a).

Definition set_user (u : option string) (a : appStore.AppState)
    : appStore.AppState :=
  appStore.mkState u (match u with Some _ => true | None => false end)
    (appStore.guestModeWarningShown a) (appStore.hasGuestData a)
    (appStore.authResolved a) (appStore.dataHydrated a)
    (appStore.appInitialized a).

Definition storage_blocked (w : World) : bool :=
  match slot w with
  | Blocked => true
  | _ => false
  end.

Definition is_true_item (o : option string) : bool :=
  match o with
  | Some s => String.eqb s "true"
  | None => false
  end.

Definition isGuestMode (a : App) : bool :=
  negb (appStore.isAuthenticated (appStore.state (store a))).

Definition shouldShowGuestWarning (a : App) : bool :=
  isGuestMode a
  && negb (appStore.guestModeWarningShown (appStore.state (store a))).

Definition hasGuestData (a : App) : bool :=
  appStore.hasGuestData (appStore.state (store a)).

Definition markGuestWarningShown (a : App) : Result unit * App :=
  let s :=
    appStore.set_state
      (fun st => set_flags true (appStore.hasGuestData st) st) (store a) in
  if hasWindow (world a) then
    if quotaExceeded (world a)
    then (Throw (Error "QuotaExceededError"), with_store s a)
    else (Return tt,
          mkApp (world a) (appStore.notifyListeners s) (Some "true")
            (has_guest_data_item a) (subscribed a))
  else (Return tt, with_store (appStore.notifyListeners s) a).

Definition markHasGuestData (a : App) : Result unit * App :=
  let s :=
    appStore.set_state
      (fun st => set_flags (appStore.guestModeWarningShown st) true st)
      (store a) in
  if hasWindow (world a) then
    if quotaExceeded (world a)
    then (Throw (Error "QuotaExceededError"), with_store s a)
    else (Return tt,
          mkApp (world a) (appStore.notifyListeners s) (guest_warning_item a)
            (Some "true") (subscribed a))
  else (Return tt, with_store (appStore.notifyListeners s) a).

Definition clearGuestModeFlags (a : App) : Result unit * App :=
  let s := appStore.set_state (set_flags false false) (store a) in
  if hasWindow (world a) then
    if storage_blocked (world a)
    then (Throw (Error "SecurityError"), with_store s a)
    else (Return tt,
          mkApp (world a) (appStore.notifyListeners s) None None (subscribed a))
  else (Return tt, with_store (appStore.notifyListeners s) a).

(** The listener [initializeAppStore] hands to [subscribeToSession]. *)
Definition onSessionChange (user : option string) (s : appStore.Store)
    : appStore.Store :=
  let wasAuthenticated := appStore.isAuthenticated (appStore.state s) in
  let s := appStore.set_state (set_user user) s in
  let s :=
    if Bool.eqb wasAuthenticated (appStore.isAuthenticated (appStore.state s))
    then s
    else if appStore.isAuthenticated (appStore.state s)
         then appStore.console_log "Auth state changed: logged in" s
         else appStore.console_log "Auth state changed: logged out" s in
  appStore.notifyListeners s.

(** [subscribeToSession(callback)] with that listener. *)
Definition subscribeToSession (a : App) : App :=
  mkApp (world a) (store a) (guest_warning_item a) (has_guest_data_item a)
    (S (subscribed a)).

(** [initializeAppStore], which the module runs when it is loaded in a
    browser: the flags are read back, the session is looked up and the
    listener is subscribed. *)
Definition initializeAppStore (a : App) : Result unit * App :=
  if hasWindow (world a) then
    if storage_blocked (world a)
    then (Throw (Error "SecurityError"), a)
    else
      (Return tt,
       subscribeToSession
         (with_store
            (appStore.set_state
               (fun st =>
                  set_user (currentUser (world a))
                    (set_flags (is_true_item (guest_warning_item a))
                               (is_true_item (has_guest_data_item a)) st))
               (store a)) a))
  else
    (Return tt,
     subscribeToSession
       (with_store
          (appStore.set_state (set_user (currentUser (world a))) (store a)) a)).

(** store/sessionStore.ts, [setUser], and the callback [initializeSession]
    hands to [onAuthStateChange], which does the same with the user of the
    new session: every listener of the session store is called, the
    application store's callback as many times as it was subscribed. *)
Definition setUser (user : option string) (a : App) : App :=
  mkApp (set_currentUser user (world a))
    (Nat.iter (subscribed a) (onSessionChange user) (store a))
    (guest_warning_item a) (has_guest_data_item a) (subscribed a).

(** A page load: the modules are evaluated again, so their variables start
    over ([currentUser], [emptyStore], the application state, its listeners
    and those of the session store); [localStorage] stays. *)
Definition reload (a : App) : App :=
  mkApp (set_currentUser None (set_emptyStore empty (world a))) appStore.initial
    (guest_warning_item a) (has_guest_data_item a) 0.

(** components/AppBarAuth.tsx, [handleLogout], which the user menu calls
    once the authentication service has signed the user out.  Its last
    statement, [setUser(null)], sets the component's own [useState] copy of
    the user, not the session store's: nothing of the stores changes there. *)
Definition handleLogout (a : App) : Result unit * App :=
  let a := with_store (appStore.resetInitialization (store a)) a in
  match clearAll (world a) with
  | (Throw e, w) => (Throw e, with_world w a)
  | (Return _, w) =>
      match clearGuestModeFlags (with_world w a) with
      | (Throw e, a) => (Throw e, a)
      | (Return _, a) => (Return tt, a)
      end
  end.

(** components/AppBarAuth.tsx, [handleAuthSuccess], which the sign-in dialog
    calls.  What [showDataMigrationOffer] resolves to is given; [showSuccess]
    and [showError] are not awaited. *)
Definition handleAuthSuccess (showDataMigrationOffer : bool) (a : App)
    : Result unit * App :=
  let load := fun a : App =>
    let (r, w) := loadFromSupabase (world a) in (r, with_world w a) in
  if hasGuestData a then
    match getGuestDataCount (world a) with
    | (Throw e, w) => (Throw e, with_world w a)
    | (Return itemCount, w) =>
        let a := with_world w a in
        if Nat.ltb 0 itemCount then
          if showDataMigrationOffer then
            match migrateGuestDataToSupabase (world a) with
            | (Throw _, w) =>
                load (with_world
                        (set_console (console w ++ [LogError "Error migrating data:"]) w)
                        a)
            | (Return _, w) =>
                match clearGuestModeFlags (with_world w a) with
                | (Throw _, a) =>
                    load (with_world
                            (set_console
                               (console (world a) ++ [LogError "Error migrating data:"])
                               (world a))
                            a)
                | (Return _, a) => load a
                end
            end
          else
            match clearLocalCache (world a) with
            | (Throw e, w) => (Throw e, with_world w a)
            | (Return _, w) =>
                match clearGuestModeFlags (with_world w a) with
                | (Throw e, a) => (Throw e, a)
                | (Return _, a) => load a
                end
            end
        else load a
    end
  else load a.

(** ** components/StatusActions.tsx *)

(** The props of a card. *)
Module Card.
Record t : Type := mk {
  tmdbId : Z;
  title : string;
  posterPath : option string;
  releaseYear : string;
  rating : number;
  mediaType : MediaType
}.
End Card.

Definition app_console_error (m : string) (a : App) : App :=
  with_world (set_console (console (world a) ++ [LogError m]) (world a)) a.

(** [handleAddToList].  The dialog belongs to the alert library: what
    [showGuestModeInfo] resolves to, or that it rejects, is given.  The
    whole body is inside [try], so nothing is thrown to the caller. *)
Definition handleAddToList (p : Card.t) (status : WatchStatus)
    (showGuestModeInfo : Result unit) (a : App) : App :=
  let failed := app_console_error "Error adding to list:" in
  match (if shouldShowGuestWarning a
         then match showGuestModeInfo with
              | Throw e => (Throw e, a)
              | Return _ => markGuestWarningShown a
              end
         else (Return tt, a)) with
  | (Throw _, a) => failed a
  | (Return _, a) =>
      match card_item (Card.tmdbId p) (Card.title p) (Card.posterPath p)
              (Card.releaseYear p) (Card.rating p) (Card.mediaType p) status
              (world a) with
      | (Throw _, w) => failed (with_world w a)
      | (Return mediaItem, w) =>
          match addToList mediaItem w with
          | (Throw _, w) => failed (with_world w a)
          | (Return _, w) =>
              let a := with_world w a in
              if isGuestMode a then
                match markHasGuestData a with
                | (Throw _, a) => failed a
                | (Return _, a) => a
                end
              else a
          end
      end
  end.

(** ** What happens to the application, in order *)

Inductive Event : Type :=
| ModuleLoaded
| Bootstrapped (getSession : Result (option string))
| SessionChanged (user : option string)
| GateCalled (o : appStore.Op)
| WarningShown
| GuestDataMarked
| FlagsCleared
| LoggedOut
| SignedIn (showDataMigrationOffer : bool)
| CardAdded (p : Card.t) (status : WatchStatus) (showGuestModeInfo : Result unit).

Definition happen (a : App) (e : Event) : App :=
  match e with
  | ModuleLoaded => snd (initializeAppStore a)
  | Bootstrapped getSession => bootstrap getSession a
  | SessionChanged user => setUser user a
  | GateCalled o => with_store (appStore.step (store a) o) a
  | WarningShown => snd (markGuestWarningShown a)
  | GuestDataMarked => snd (markHasGuestData a)
  | FlagsCleared => snd (clearGuestModeFlags a)
  | LoggedOut => snd (handleLogout a)
  | SignedIn offer => snd (handleAuthSuccess offer a)
  | CardAdded p status info => handleAddToList p status info a
  end.

Definition history (events : list Event) (a : App) : App :=
  fold_left happen events a.

(** A state of the application store in which the gate is open exactly when
    both signals have arrived and [isAuthenticated] says whether there is a
    user. *)
Definition coherent (s : appStore.AppState) : Prop :=
  appStore.appInitialized s
  = appStore.authResolved s && appStore.dataHydrated s
  /\ appStore.isAuthenticated s
     = match appStore.user s with Some _ => true | None => false end.

(** ** services/userMediaService.ts: the reads of one row *)

(** The reply of the hosted table to a [select] that ends in [single()] is
    given: the row, or the error; PGRST116 is the error for no row. *)
Definition getUserMedia (reply : Exn + Row.t) : M (option Row.t) :=
  match reply with
  | inl error =>
      match error with
      | PostgrestError code =>
          if String.eqb code "PGRST116" then ret None
          else console_error "Error fetching user media:" ;; throw error
      | Error _ => console_error "Error fetching user media:" ;; throw error
      end
  | inr data => ret (Some data)
  end.

Definition hasUserMedia (reply : Exn + Row.t) : M bool :=
  media <- getUserMedia reply ;;
  ret (match media with Some _ => true | None => false end).

Definition getMediaStatus (reply : Exn + Row.t) : M (option WatchStatus) :=
  media <- getUserMedia reply ;;
  ret (match media with Some r => Some (Row.status r) | None => None end).

(** [!media.current_season]: a column that is [null] or [0]. *)
Definition falsy (n : option Z) : bool :=
  match n with
  | None => true
  | Some z => Z.eqb z 0
  end.

Definition getTVProgress (reply : Exn + Row.t) : M (option Progress) :=
  media <- getUserMedia reply ;;
  match media with
  | None => ret None
  | Some r =>
      if falsy (Row.current_season r) || falsy (Row.current_episode r)
      then ret None
      else
        ret (Some (mkProgress (to_opt (Row.current_season r))
                              (to_opt (Row.current_episode r))))
  end.

(** The state and every snapshot handed to the listeners are coherent. *)
Definition sound (s : appStore.Store) : Prop :=
  coherent (appStore.state s) /\ Forall coherent (appStore.notified s).

(** ** When the storage refuses the writes

    [saveLocalStore] catches what [setItem] throws, so a refused write is
    lost.  It is lost for the later reads too when those parse a stored
    payload; when nothing readable is stored they are handed the
    [emptyStore] object, which the mutations have changed in place. *)
Definition writes_dropped (w : World) : bool :=
  hasWindow w && quotaExceeded w
  && match slot w with
     | Stored _ => true
     | _ => false
     end.

(** A guest whose stored collection is empty, in a browser whose storage
    refuses every write. *)
Definition refused_world : World :=
  mkWorld None true empty (Stored empty) true 0 [] []
    "2024-01-05T10:00:00.000Z" no_supabase.

(** The migration scenario with the final fetch rejected. *)
Definition migration_world_unfetched : World :=
  session_world three_guest_items []
    [Accept "a1" "2024-01-05T10:00:01.000Z"; Reject "503";
     Accept "a3" "2024-01-05T10:00:03.000Z"; Reject "503"]
    [].

Definition breaking_bad_row : Row.t :=
  Row.mk "5e2d" "user-1" 1396 tv Completed (Some 5%Z) (Some 16%Z) "Breaking Bad"
    None "2008" (QArith_base.Qmake 89 10) None None None None
    "2023-12-24T10:00:00.000Z" "2023-12-24T10:00:00.000Z".

(** The migration scenario in an account that holds the second item
    already: every request is answered, and the table refuses the second
    insert as a duplicate. *)
Definition migration_world_held : World :=
  session_world three_guest_items [breaking_bad_row]
    [Accept "a1" "2024-01-05T10:00:01.000Z";
     Accept "a2" "2024-01-05T10:00:02.000Z";
     Accept "a3" "2024-01-05T10:00:03.000Z";
     Accept "f0" "2024-01-05T10:00:09.000Z"]
    [].

(** * Properties *)

(** ** The initialization gate *)

Module Gate.
Import appStore.

Ltac crush_store s :=
  destruct s as [[u ia g h a d i] n l]; unfold inv in *; cbn in *.

Lemma gate_initial : inv initial.
Proof. reflexivity. Qed.

Lemma gate_step (s : Store) (o : Op) : inv s -> inv (step s o).
Proof.
  crush_store s; intros ->.
  destruct o, a, d; reflexivity.
Qed.

Lemma gate_run (ops : list Op) : forall s, inv s -> inv (run ops s).
Proof.
  induction ops as [|o ops IH]; intros s Hs; [exact Hs|].
  apply IH, gate_step, Hs.
Qed.

(** A call other than the reset never lowers a flag, on any state. *)
Lemma flags_monotone (s : Store) (o : Op) :
  is_reset o = false ->
  (authResolved (state s) = true -> authResolved (state (step s o)) = true)
  /\ (dataHydrated (state s) = true -> dataHydrated (state (step s o)) = true)
  /\ (appInitialized (state s) = true -> appInitialized (state (step s o)) = true).
Proof.
  crush_store s.
  destruct o; [| |discriminate]; intros _; destruct a, d, i; cbn; auto.
Qed.

(** One call either leaves the listeners alone and the gate where it was,
    or opens the gate and hands the listeners the opened state. *)
Lemma step_fires (s : Store) (o : Op) :
  inv s -> is_reset o = false ->
  (notified (step s o) = notified s
   /\ appInitialized (state (step s o)) = appInitialized (state s))
  \/ (appInitialized (state s) = false
      /\ appInitialized (state (step s o)) = true
      /\ notified (step s o) = notified s ++ [state (step s o)]).
Proof.
  crush_store s; intros -> Ho.
  destruct o; [| |discriminate]; destruct a, d; cbn; auto.
Qed.

Lemma remark_auth (s : Store) :
  inv s -> authResolved (state s) = true ->
  state (markAuthResolved s) = state s
  /\ notified (markAuthResolved s) = notified s.
Proof.
  crush_store s; intros -> ->. destruct d; cbn; auto.
Qed.

Lemma remark_data (s : Store) :
  inv s -> dataHydrated (state s) = true ->
  state (markDataHydrated s) = state s
  /\ notified (markDataHydrated s) = notified s.
Proof.
  crush_store s; intros -> ->. destruct a; cbn; auto.
Qed.

Lemma quiet_once_open (more : list Op) : forall s,
  inv s -> appInitialized (state s) = true ->
  forallb (fun o => negb (is_reset o)) more = true ->
  notified (run more s) = notified s
  /\ appInitialized (state (run more s)) = true.
Proof.
  induction more as [|o more IH]; intros s Hs Hopen Hmore; [auto|].
  cbn in Hmore. apply andb_true_iff in Hmore as [Ho Hmore].
  apply negb_true_iff in Ho.
  destruct (step_fires s o Hs Ho) as [[Hn Hi]|[Hc _]]; [|congruence].
  destruct (IH (step s o)) as [Hn' Hi']; auto using gate_step; [congruence|].
  change (run (o :: more) s) with (run more (step s o)).
  split; congruence.
Qed.

Lemma fires_at_most_once (more : list Op) : forall s,
  inv s ->
  forallb (fun o => negb (is_reset o)) more = true ->
  exists extra,
    notified (run more s) = notified s ++ extra
    /\ List.length extra <= 1
    /\ Forall (fun a => appInitialized a = true) extra
    /\ (appInitialized (state s) = true -> extra = []).
Proof.
  induction more as [|o more IH]; intros s Hs Hmore.
  - exists []. cbn. rewrite app_nil_r. auto.
  - cbn in Hmore. apply andb_true_iff in Hmore as [Ho Hmore].
    apply negb_true_iff in Ho.
    destruct (step_fires s o Hs Ho) as [[Hn Hi]|[Hc [Ho' Hn]]].
    + destruct (IH (step s o) (gate_step s o Hs) Hmore)
        as [extra [E [L [F Z]]]].
      exists extra. change (run (o :: more) s) with (run more (step s o)).
      rewrite E, Hn. repeat split; auto.
      intros Hopen. apply Z. congruence.
    + destruct (quiet_once_open more (step s o) (gate_step s o Hs) Ho' Hmore)
        as [E _].
      exists [state (step s o)].
      change (run (o :: more) s) with (run more (step s o)). rewrite E, Hn.
      repeat split; auto. congruence.
Qed.

End Gate.

(** C8. After any sequence of [markAuthResolved], [markDataHydrated] and
    [resetInitialization] calls from the initial state, [appInitialized] is
    true exactly when [authResolved] and [dataHydrated] both are; a call
    other than the reset never turns a true flag false; marking a flag that
    is already true changes neither the state nor what the listeners were
    told; and over any further calls without a reset the listeners are told
    at most once, with the gate open, and not at all when it was open
    already. *)
Theorem initialization_gate (ops : list appStore.Op) :
  let s := appStore.run ops appStore.initial in
  appStore.appInitialized (appStore.state s)
    = appStore.authResolved (appStore.state s)
      && appStore.dataHydrated (appStore.state s)
  /\ (forall o, appStore.is_reset o = false ->
        (appStore.authResolved (appStore.state s) = true ->
           appStore.authResolved (appStore.state (appStore.step s o)) = true)
        /\ (appStore.dataHydrated (appStore.state s) = true ->
              appStore.dataHydrated (appStore.state (appStore.step s o)) = true)
        /\ (appStore.appInitialized (appStore.state s) = true ->
              appStore.appInitialized (appStore.state (appStore.step s o)) = true))
  /\ (appStore.authResolved (appStore.state s) = true ->
        appStore.state (appStore.markAuthResolved s) = appStore.state s
        /\ appStore.notified (appStore.markAuthResolved s) = appStore.notified s)
  /\ (appStore.dataHydrated (appStore.state s) = true ->
        appStore.state (appStore.markDataHydrated s) = appStore.state s
        /\ appStore.notified (appStore.markDataHydrated s) = appStore.notified s)
  /\ (forall more,
        forallb (fun o => negb (appStore.is_reset o)) more = true ->
        exists extra,
          appStore.notified (appStore.run more s) = appStore.notified s ++ extra
          /\ List.length extra <= 1
          /\ Forall (fun a => appStore.appInitialized a = true) extra
          /\ (appStore.appInitialized (appStore.state s) = true -> extra = [])).
Proof.
  intros s.
  assert (Hs : appStore.inv s) by (apply Gate.gate_run, Gate.gate_initial).
  split; [exact Hs|].
  split; [intros o Ho; apply Gate.flags_monotone, Ho|].
  split; [apply Gate.remark_auth, Hs|].
  split; [apply Gate.remark_data, Hs|].
  intros more Hmore. apply Gate.fires_at_most_once; assumption.
Qed.

(** ** Reading and writing the cache *)

Ltac unfold_m :=
  unfold addToList, removeFromList, updateStatus, updateProgress,
    loadFromSupabase, migrateGuestDataToSupabase, clearLocalCache,
    getByStatus, getLocalStore, saveLocalStore, assign,
    localStorage_getItem, localStorage_setItem,
    dispatchEvent_mediaStoreUpdate, isLoggedIn, console_error, console_warn,
    try_catch, bind, ret, throw, modify, read in *.

Lemma getLocalStore_returns (w : World) :
  exists r c,
    getLocalStore w = (Return (r, local_cache w), set_console c w)
    /\ (r = TheEmptyStore -> local_cache w = emptyStore w)
    /\ (r = Parsed -> hasWindow w = true /\ slot w = Stored (local_cache w)).
Proof.
  unfold local_cache. unfold_m.
  destruct w as [cu hw es sl qe di co nr iso sb]; cbn.
  destruct hw; cbn.
  - destruct sl; cbn;
      try (exists TheEmptyStore; eexists; split; [reflexivity|];
           split; [reflexivity|discriminate]).
    exists Parsed, co. split; [reflexivity|]. split; [discriminate|auto].
  - exists TheEmptyStore, co. split; [reflexivity|].
    split; [reflexivity|discriminate].
Qed.

(** A guest call with a storage that takes writes: the call returns, and
    the collection read afterwards is the one the call computed. *)
Lemma guest_exec (o : Op) (w : World) :
  currentUser w = None -> quotaExceeded w = false ->
  fst (exec o w) = Return tt
  /\ currentUser (snd (exec o w)) = None
  /\ quotaExceeded (snd (exec o w)) = false
  /\ supabase (snd (exec o w)) = supabase w
  /\ local_cache (snd (exec o w)) = apply_local (local_cache w) o.
Proof.
  destruct w as [cu hw es sl qe di co nr iso sb]; cbn; intros -> ->.
  destruct o as [item|tmdbId mediaType|tmdbId mediaType newStatus];
    unfold exec, local_cache, apply_local, add_local, remove_local, change_local;
    unfold_m; cbn -[take_out].
  - destruct hw, sl; cbn;
      match goal with
      | |- context [existsb ?f ?l] => destruct (existsb f l)
      end; cbn; auto 6.
  - destruct hw, sl; cbn; auto 6.
  - destruct hw, sl; cbn -[take_out];
      match goal with
      | |- context [take_out ?a ?b ?c ?d] =>
          destruct (take_out a b c d) as [[item|] c']
      end; cbn; auto 6.
Qed.

(** ** Lists of items and their keys *)

Lemma MediaType_eqb_eq (a b : MediaType) : MediaType_eqb a b = true <-> a = b.
Proof. destruct a, b; cbn; split; congruence. Qed.

Lemma WatchStatus_eqb_eq (a b : WatchStatus) : WatchStatus_eqb a b = true <-> a = b.
Proof. destruct a, b; cbn; split; congruence. Qed.

Lemma Key_eqb_eq (a b : Key) : Key_eqb a b = true <-> a = b.
Proof.
  destruct a as [x m], b as [y n]; unfold Key_eqb; cbn.
  rewrite andb_true_iff, Z.eqb_eq, MediaType_eqb_eq.
  split; [intros [-> ->]; reflexivity | intros E; inversion E; auto].
Qed.

Lemma same_key_eq (t : Z) (m : MediaType) (i : MediaItem.t) :
  same_key t m i = true <-> key_of i = (t, m).
Proof.
  unfold same_key, key_of.
  rewrite andb_true_iff, Z.eqb_eq, MediaType_eqb_eq.
  split; [intros [-> ->]; reflexivity | intros E; inversion E; auto].
Qed.

Lemma same_key_neq (t : Z) (m : MediaType) (i : MediaItem.t) :
  same_key t m i = false <-> key_of i <> (t, m).
Proof.
  rewrite <- same_key_eq. destruct (same_key t m i); split; congruence.
Qed.

Lemma existsb_same_key (t : Z) (m : MediaType) (l : list MediaItem.t) :
  existsb (same_key t m) l = true <-> In (t, m) (map key_of l).
Proof.
  rewrite existsb_exists, in_map_iff.
  split; intros [x [H1 H2]]; exists x.
  - apply same_key_eq in H2. auto.
  - split; [exact H2 | apply same_key_eq, H1].
Qed.

Lemma in_filter_keys (t : Z) (m : MediaType) (l : list MediaItem.t) (k : Key) :
  In k (map key_of (filter (fun i => negb (same_key t m i)) l))
  <-> In k (map key_of l) /\ k <> (t, m).
Proof.
  rewrite !in_map_iff. split.
  - intros [x [E H]]. apply filter_In in H as [H N].
    apply negb_true_iff, same_key_neq in N. subst k. eauto.
  - intros [[x [E H]] N]. exists x. split; [exact E|].
    apply filter_In. split; [exact H|].
    apply negb_true_iff, same_key_neq. congruence.
Qed.

Lemma filter_keeps_keys_apart (keep : MediaItem.t -> bool) (items : list MediaItem.t) :
  NoDup (map key_of items) -> NoDup (map key_of (filter keep items)).
Proof.
  revert keep. induction items as [|a l IH]; cbn; intros p H; [constructor|].
  inversion H as [|? ? Hn Hl]; subst.
  destruct (p a); cbn; auto.
  constructor; auto.
  intros Hin. apply Hn. apply in_map_iff in Hin as [x [E Hx]].
  apply filter_In in Hx as [Hx _]. apply in_map_iff. eauto.
Qed.

(** The item [find] returns is the only one with its key when no key
    occurs twice: filtering the key out removes exactly that item. *)
Lemma find_filter_perm (t : Z) (m : MediaType) (l : list MediaItem.t)
    (item : MediaItem.t) :
  NoDup (map key_of l) ->
  find (same_key t m) l = Some item ->
  Permutation l (item :: filter (fun i => negb (same_key t m i)) l).
Proof.
  induction l as [|a l IH]; cbn; intros H F; [discriminate|].
  inversion H as [|? ? Hn Hl]; subst.
  destruct (same_key t m a) eqn:Ea; cbn.
  - injection F as <-.
    rewrite forallb_filter_id; [reflexivity|].
    apply forallb_forall. intros x Hx. apply negb_true_iff, same_key_neq.
    apply same_key_eq in Ea. intros Ex. apply Hn.
    rewrite Ea, <- Ex. apply in_map, Hx.
  - rewrite perm_swap. constructor. apply IH; assumption.
Qed.

(** ** Collections *)

Lemma spread_others (s : WatchStatus) (c : UserMediaStore) :
  Permutation (spread c) (at_status s c ++ others s c).
Proof.
  unfold spread. destruct s; cbn.
  - reflexivity.
  - rewrite app_assoc, (Permutation_app_comm (want_to_watch c)), <- app_assoc.
    reflexivity.
  - rewrite app_assoc. apply Permutation_app_comm.
Qed.

Lemma at_status_set (s s' : WatchStatus) (l : list MediaItem.t) (c : UserMediaStore) :
  at_status s (set_status_list s' l c)
  = if WatchStatus_eqb s s' then l else at_status s c.
Proof. destruct s, s'; reflexivity. Qed.

Lemma others_set (s : WatchStatus) (l : list MediaItem.t) (c : UserMediaStore) :
  others s (set_status_list s l c) = others s c.
Proof. destruct s; reflexivity. Qed.

Lemma spread_set (s : WatchStatus) (l : list MediaItem.t) (c : UserMediaStore) :
  Permutation (spread (set_status_list s l c)) (l ++ others s c).
Proof.
  rewrite (spread_others s), at_status_set, others_set.
  replace (WatchStatus_eqb s s) with true by (destruct s; reflexivity).
  reflexivity.
Qed.

Lemma spread_push (s : WatchStatus) (i : MediaItem.t) (c : UserMediaStore) :
  Permutation (spread (push s i c)) (i :: spread c).
Proof.
  unfold push. rewrite spread_set, (spread_others s c), <- app_assoc.
  symmetry. apply Permutation_middle.
Qed.

Lemma in_spread (x : MediaItem.t) (c : UserMediaStore) :
  In x (spread c) <-> exists s, In x (at_status s c).
Proof.
  unfold spread. rewrite !in_app_iff. split.
  - intros [H|[H|H]]; [exists WantToWatch|exists Watching|exists Completed]; exact H.
  - intros [[| |] H]; cbn in H; auto.
Qed.

Lemma spread_remove (t : Z) (m : MediaType) (c : UserMediaStore) :
  spread (remove_local t m c)
  = filter (fun i => negb (same_key t m i)) (spread c).
Proof. unfold spread, remove_local; cbn. rewrite !filter_app. reflexivity. Qed.

Lemma take_out_spec (t : Z) (m : MediaType) (sts : list WatchStatus)
    (c : UserMediaStore) :
  match take_out t m sts c with
  | (None, c') =>
      c' = c
      /\ forall s, In s sts -> find (same_key t m) (at_status s c) = None
  | (Some item, c') =>
      exists s,
        find (same_key t m) (at_status s c) = Some item
        /\ c' = set_status_list s
                  (filter (fun i => negb (same_key t m i)) (at_status s c)) c
  end.
Proof.
  induction sts as [|s sts IH]; cbn.
  - split; [reflexivity | intros s []].
  - destruct (find (same_key t m) (at_status s c)) as [item|] eqn:F.
    + exists s. auto.
    + destruct (take_out t m sts c) as [[item|] c'].
      * exact IH.
      * destruct IH as [-> IH]. split; [reflexivity|].
        intros s' [<-|H]; auto.
Qed.

Lemma all_statuses_complete (s : WatchStatus) : In s all_statuses.
Proof. destruct s; cbn; auto. Qed.

Lemma take_out_none (t : Z) (m : MediaType) (c c' : UserMediaStore) :
  take_out t m all_statuses c = (None, c') ->
  c' = c /\ ~ In (t, m) (keys c).
Proof.
  intros E. pose proof (take_out_spec t m all_statuses c) as H.
  rewrite E in H. destruct H as [-> H]. split; [reflexivity|].
  unfold keys. rewrite in_map_iff. intros [x [Ex Hx]].
  apply in_spread in Hx as [s Hx].
  pose proof (find_none _ _ (H s (all_statuses_complete s)) x Hx) as N.
  apply same_key_neq in N. contradiction.
Qed.

Lemma take_out_some (t : Z) (m : MediaType) (c c' : UserMediaStore)
    (item : MediaItem.t) :
  NoDup (keys c) ->
  take_out t m all_statuses c = (Some item, c') ->
  key_of item = (t, m)
  /\ In item (spread c)
  /\ Permutation (spread c) (item :: spread c')
  /\ (forall s x, In x (at_status s c') -> In x (at_status s c)).
Proof.
  intros N E. pose proof (take_out_spec t m all_statuses c) as H.
  rewrite E in H. destruct H as [s [F ->]].
  destruct (find_some _ _ F) as [Hin Hk].
  split; [apply same_key_eq, Hk|].
  split; [apply in_spread; eauto|].
  split.
  - rewrite spread_set, (spread_others s c).
    change (item :: ?a ++ ?b) with ((item :: a) ++ b).
    apply Permutation_app_tail, find_filter_perm; [|exact F].
    unfold keys in N. rewrite (Permutation_map key_of (spread_others s c)) in N.
    rewrite map_app in N. apply NoDup_app_remove_r in N. exact N.
  - intros s' x. rewrite at_status_set.
    destruct (WatchStatus_eqb s' s) eqn:Es; [|auto].
    apply WatchStatus_eqb_eq in Es. subst s'.
    intros Hx. apply filter_In in Hx. tauto.
Qed.

(** ** The invariant of the guest collection *)

Lemma live_after_app (a b : list Op) : forall acc,
  live_after (a ++ b) acc = live_after b (live_after a acc).
Proof.
  induction a as [|o a IH]; intros acc; [reflexivity|].
  destruct o; cbn; apply IH.
Qed.

Lemma live_snoc (ops : list Op) (o : Op) :
  live (ops ++ [o]) = live_after [o] (live ops).
Proof. apply live_after_app. Qed.

Lemma added_snoc (ops : list Op) (o : Op) (i : MediaItem.t) :
  added ops i -> added (ops ++ [o]) i.
Proof. unfold added. rewrite in_app_iff. auto. Qed.

Lemma set_status_same (i : MediaItem.t) :
  MediaItem.set_status (MediaItem.status i) i = i.
Proof. destruct i; reflexivity. Qed.

Lemma set_status_twice (s s' : WatchStatus) (i : MediaItem.t) :
  MediaItem.set_status s (MediaItem.set_status s' i) = MediaItem.set_status s i.
Proof. reflexivity. Qed.

Lemma keys_push (s : WatchStatus) (i : MediaItem.t) (c : UserMediaStore) :
  Permutation (keys (push s i c)) (key_of i :: keys c).
Proof. unfold keys. rewrite (Permutation_map key_of (spread_push s i c)). reflexivity. Qed.

Lemma Inv_empty : Inv [] empty.
Proof.
  repeat split; cbn; try tauto; try constructor.
  intros [| |] x [].
Qed.

Lemma Inv_add (ops : list Op) (c : UserMediaStore) (item : MediaItem.t) :
  Inv ops c -> Inv (ops ++ [AddItem item]) (add_local item c).
Proof.
  intros [N [L [S P]]]. unfold add_local.
  destruct (existsb _ (spread c)) eqn:E.
  - apply existsb_same_key in E. fold (key_of item) in E. fold (keys c) in E.
    repeat split; auto.
    + rewrite live_snoc. cbn. rewrite <- L. auto.
    + rewrite live_snoc. cbn. rewrite <- L. intros [<-|H]; auto.
    + intros x Hx. destruct (P x Hx) as [i [Hi Ei]].
      exists i. auto using added_snoc.
  - assert (Hn : ~ In (key_of item) (keys c)).
    { intros H. apply existsb_same_key in H. congruence. }
    repeat split.
    + apply (Permutation_NoDup (Permutation_sym (keys_push _ _ _))).
      constructor; assumption.
    + rewrite live_snoc. cbn. intros H.
      apply (Permutation_in _ (keys_push _ _ _)) in H.
      destruct H as [H|H]; [auto | right; apply L, H].
    + rewrite live_snoc. cbn. intros H.
      apply (Permutation_in _ (Permutation_sym (keys_push _ _ _))).
      destruct H as [H|H]; [left; exact H | right; apply L, H].
    + intros s x. unfold push. rewrite at_status_set.
      destruct (WatchStatus_eqb s (MediaItem.status item)) eqn:Es; [|apply S].
      apply WatchStatus_eqb_eq in Es. rewrite in_app_iff.
      intros [H|[<-|[]]]; [|auto]. rewrite <- Es in H. apply S, H.
    + intros x Hx. apply (Permutation_in _ (spread_push _ _ _)) in Hx.
      destruct Hx as [<-|Hx].
      * exists item. split; [|symmetry; apply set_status_same].
        unfold added. rewrite in_app_iff. cbn. auto.
      * destruct (P x Hx) as [i [Hi Ei]]. exists i. auto using added_snoc.
Qed.

Lemma Inv_remove (ops : list Op) (c : UserMediaStore) (t : Z) (m : MediaType) :
  Inv ops c -> Inv (ops ++ [RemoveItem t m]) (remove_local t m c).
Proof.
  intros [N [L [S P]]].
  repeat split.
  - unfold keys. rewrite spread_remove. apply filter_keeps_keys_apart, N.
  - unfold keys. rewrite spread_remove, live_snoc. cbn.
    rewrite in_filter_keys, filter_In, negb_true_iff.
    intros [H Hk]. split; [apply L, H|].
    destruct (Key_eqb k (t, m)) eqn:E; [|reflexivity].
    apply Key_eqb_eq in E. contradiction.
  - unfold keys. rewrite spread_remove, live_snoc. cbn.
    rewrite in_filter_keys, filter_In, negb_true_iff.
    intros [H Hk]. split; [apply L, H|].
    intros ->. rewrite (proj2 (Key_eqb_eq _ _) eq_refl) in Hk. discriminate.
  - intros s x Hx. apply (S s).
    destruct s; cbn in Hx; apply filter_In in Hx; tauto.
  - intros x Hx. rewrite spread_remove in Hx. apply filter_In in Hx as [Hx _].
    destruct (P x Hx) as [i [Hi Ei]]. exists i. auto using added_snoc.
Qed.

Lemma Inv_change (ops : list Op) (c : UserMediaStore) (t : Z) (m : MediaType)
    (ns : WatchStatus) :
  Inv ops c -> Inv (ops ++ [ChangeStatus t m ns]) (change_local t m ns c).
Proof.
  intros [N [L [S P]]]. unfold change_local.
  destruct (take_out t m all_statuses c) as [[item|] c'] eqn:E.
  - destruct (take_out_some t m c c' item N E) as [K [Hin [Perm Sub]]].
    assert (PK : Permutation (keys (push ns (MediaItem.set_status ns item) c'))
                             (keys c)).
    { rewrite keys_push. unfold keys at 2.
      rewrite (Permutation_map key_of Perm). reflexivity. }
    repeat split.
    + apply (Permutation_NoDup (Permutation_sym PK)), N.
    + rewrite live_snoc. cbn. intros H. apply L.
      apply (Permutation_in _ PK), H.
    + rewrite live_snoc. cbn. intros H. apply L in H.
      apply (Permutation_in _ (Permutation_sym PK)), H.
    + intros s x. unfold push. rewrite at_status_set.
      destruct (WatchStatus_eqb s ns) eqn:Es.
      * apply WatchStatus_eqb_eq in Es. subst s. rewrite in_app_iff.
        intros [H|[<-|[]]]; [|reflexivity]. apply (S ns), Sub, H.
      * intros H. apply (S s), Sub, H.
    + intros x Hx. apply (Permutation_in _ (spread_push _ _ _)) in Hx.
      destruct Hx as [<-|Hx].
      * destruct (P item Hin) as [i [Hi Ei]]. exists i.
        split; [apply added_snoc, Hi|].
        rewrite Ei at 1. reflexivity.
      * assert (Hx' : In x (spread c)).
        { apply (Permutation_in _ (Permutation_sym Perm)). right. exact Hx. }
        destruct (P x Hx') as [i [Hi Ei]]. exists i. auto using added_snoc.
  - repeat split; auto.
    + rewrite live_snoc. cbn. apply L.
    + rewrite live_snoc. cbn. apply L.
    + intros x Hx. destruct (P x Hx) as [i [Hi Ei]].
      exists i. auto using added_snoc.
Qed.

Lemma Inv_step (ops : list Op) (c : UserMediaStore) (o : Op) :
  Inv ops c -> Inv (ops ++ [o]) (apply_local c o).
Proof.
  destruct o; cbn; [apply Inv_add | apply Inv_remove | apply Inv_change].
Qed.

Lemma Inv_fold (ops : list Op) : Inv ops (fold_left apply_local ops empty).
Proof.
  induction ops as [|o ops IH] using rev_ind; [apply Inv_empty|].
  rewrite fold_left_app. cbn. apply Inv_step, IH.
Qed.

Lemma guest_run (ops : list Op) : forall w,
  currentUser w = None -> quotaExceeded w = false ->
  currentUser (run ops w) = None
  /\ supabase (run ops w) = supabase w
  /\ local_cache (run ops w) = fold_left apply_local ops (local_cache w).
Proof.
  induction ops as [|o ops IH]; intros w G Q; [auto|].
  destruct (guest_exec o w G Q) as [_ [G' [Q' [R' C']]]].
  destruct (IH (snd (exec o w)) G' Q') as [G'' [R'' C'']].
  change (run (o :: ops) w) with (run ops (snd (exec o w))).
  cbn [fold_left]. rewrite <- C'. repeat split; congruence.
Qed.

Lemma NoDup_app_disjoint {A : Type} (l1 l2 : list A) (a : A) :
  NoDup (l1 ++ l2) -> In a l1 -> ~ In a l2.
Proof.
  induction l1 as [|x l1 IH]; cbn; intros N H1 H2; [contradiction|].
  inversion N as [|? ? Hn Hl]; subst.
  destruct H1 as [->|H1]; [|exact (IH Hl H1 H2)].
  apply Hn, in_app_iff. auto.
Qed.

Lemma disjoint_lists (s1 s2 : WatchStatus) (c : UserMediaStore) (k : Key) :
  NoDup (keys c) -> s1 <> s2 ->
  In k (map key_of (at_status s1 c)) -> ~ In k (map key_of (at_status s2 c)).
Proof.
  unfold keys, spread. rewrite !map_app. intros N D H1 H2.
  pose proof (NoDup_app_disjoint _ _ k N) as X.
  pose proof (NoDup_app_disjoint _ _ k (NoDup_app_remove_l _ _ N)) as Y.
  rewrite in_app_iff in X.
  destruct s1, s2; cbn in *; try congruence; tauto.
Qed.

(** [live] is what its name says: a key is live after [ops] exactly when
    some call added an item with that key and no later call removed it. *)
Lemma snoc_cases {A : Type} (l : list A) :
  l = [] \/ exists l' x, l = l' ++ [x].
Proof. induction l using rev_ind; eauto. Qed.

Lemma live_spec (ops : list Op) (k : Key) :
  In k (live ops)
  <-> exists before item after,
        ops = before ++ AddItem item :: after
        /\ key_of item = k
        /\ forall t m, In (RemoveItem t m) after -> (t, m) <> k.
Proof.
  induction ops as [|o ops IH] using rev_ind.
  - cbn. split; [intros [] | intros [b [i [a [E _]]]]].
    destruct b; discriminate.
  - rewrite live_snoc. split.
    + intros H.
      assert (Hold : (In k (live ops)
                      /\ (forall t m, o = RemoveItem t m -> (t, m) <> k))
                     \/ (exists item, o = AddItem item /\ key_of item = k)).
      { destruct o as [item|t m|t m ns]; cbn in H.
        - destruct H as [H|H]; [right; eauto|].
          left. split; [exact H | discriminate].
        - apply filter_In in H as [H N]. left. split; [exact H|].
          intros t' m' E. injection E as <- <-. intros <-.
          rewrite (proj2 (Key_eqb_eq _ _) eq_refl) in N. discriminate.
        - left. split; [exact H | discriminate]. }
      destruct Hold as [[Hk Hr]|[item [-> Ek]]].
      * apply IH in Hk as [b [i [a [-> [Ei Ha]]]]].
        exists b, i, (a ++ [o]). rewrite <- app_assoc. split; [reflexivity|].
        split; [exact Ei|]. intros t m Hin. apply in_app_iff in Hin as [Hin|[->|[]]].
        -- apply Ha, Hin.
        -- apply Hr. reflexivity.
      * exists ops, item, []. split; [reflexivity|]. split; [exact Ek|].
        intros t m [].
    + intros [b [i [a [E [Ei Ha]]]]].
      destruct (snoc_cases a) as [->|[a' [x ->]]].
      * apply app_inj_tail in E as [_ ->]. cbn. auto.
      * rewrite app_comm_cons, app_assoc in E.
        apply app_inj_tail in E as [-> ->].
        assert (Hk : In k (live (b ++ AddItem i :: a'))).
        { apply IH. exists b, i, a'. split; [reflexivity|]. split; [exact Ei|].
          intros t m Hin. apply Ha, in_app_iff. auto. }
        destruct x as [item|t m|t m ns]; cbn; auto.
        apply filter_In. split; [exact Hk|].
        apply negb_true_iff. destruct (Key_eqb k (t, m)) eqn:Ek; [|reflexivity].
        apply Key_eqb_eq in Ek. exfalso. apply (Ha t m); [|congruence].
        apply in_app_iff. cbn. auto.
Qed.

Lemma getByStatus_reads (s : WatchStatus) (w : World) :
  fst (getByStatus s w) = Return (at_status s (local_cache w)).
Proof.
  destruct (getLocalStore_returns w) as [r [c [E _]]].
  unfold getByStatus, bind, ret. rewrite E. reflexivity.
Qed.

Lemma guest_exec_any (o : Op) (w : World) :
  currentUser w = None ->
  currentUser (snd (exec o w)) = None
  /\ writes_dropped (snd (exec o w)) = writes_dropped w
  /\ local_cache (snd (exec o w))
     = if writes_dropped w then local_cache w
       else apply_local (local_cache w) o.
Proof.
  destruct w as [cu hw es sl qe di co nr iso sb]; cbn; intros ->.
  destruct o as [item|tmdbId mediaType|tmdbId mediaType newStatus];
    unfold exec, writes_dropped, local_cache, apply_local, add_local,
      remove_local, change_local;
    unfold_m; cbn -[take_out].
  - destruct hw, sl, qe; cbn;
      match goal with
      | |- context [existsb ?f ?l] => destruct (existsb f l)
      end; cbn; auto.
  - destruct hw, sl, qe; cbn; auto.
  - destruct hw, sl, qe; cbn -[take_out];
      match goal with
      | |- context [take_out ?a ?b ?c ?d] =>
          destruct (take_out a b c d) as [[item|] c']
      end; cbn; auto.
Qed.

Lemma guest_run_any (ops : list Op) : forall w,
  currentUser w = None ->
  local_cache (run ops w)
  = if writes_dropped w then local_cache w
    else fold_left apply_local ops (local_cache w).
Proof.
  induction ops as [|o ops IH]; intros w G.
  - cbn. destruct (writes_dropped w); reflexivity.
  - destruct (guest_exec_any o w G) as [G' [D' C']].
    change (run (o :: ops) w) with (run ops (snd (exec o w))).
    rewrite (IH _ G'), D', C'. cbn [fold_left].
    destruct (writes_dropped w); reflexivity.
Qed.




Lemma initialization_gate_witness :
  appStore.authResolved
    (appStore.state
       (appStore.run [appStore.MarkAuthResolved; appStore.MarkDataHydrated]
                     appStore.initial)) = true
  /\ appStore.notified
       (appStore.markAuthResolved
          (appStore.run [appStore.MarkAuthResolved; appStore.MarkDataHydrated]
                        appStore.initial))
     = appStore.notified
         (appStore.run [appStore.MarkAuthResolved; appStore.MarkDataHydrated]
                       appStore.initial).
Proof.
  split; [reflexivity|].
  exact (proj2 (proj1 (proj2 (proj2
           (initialization_gate
              [appStore.MarkAuthResolved; appStore.MarkDataHydrated])))
           eq_refl)).
Defined.

(** ** The service touches the hosted table and the console only *)

Ltac unfold_service :=
  unfold frame, set_console, set_supabase, record_call, with_table,
    userMediaService.addUserMedia, userMediaService.getAllUserMedia,
    userMediaService.updateMediaStatus, userMediaService.updateTVProgress,
    userMediaService.updateUserMedia, userMediaService.removeUserMedia,
    request, db_insert, db_select, db_update, db_delete, next_reply,
    console_error, bind, ret, throw, modify, read in *.

Ltac break_world w :=
  destruct w as [cu hw es sl qe di co nr iso [au tbl rs cl]].

Lemma addUserMedia_frame (p : Insert.t) (w : World) :
  exists sb c, snd (userMediaService.addUserMedia p w) = frame w sb c.
Proof.
  break_world w. unfold_service; cbn.
  destruct au; cbn; [|eexists; eexists; reflexivity].
  destruct rs as [|[code|uuid now] rs]; cbn;
    try (eexists; eexists; reflexivity).
  destruct (existsb _ tbl); cbn; eexists; eexists; reflexivity.
Qed.

Lemma getAllUserMedia_frame (w : World) :
  exists sb c, snd (userMediaService.getAllUserMedia w) = frame w sb c.
Proof.
  break_world w. unfold_service; cbn.
  destruct rs as [|[code|uuid now] rs]; cbn; eexists; eexists; reflexivity.
Qed.

Lemma updateUserMedia_frame (t : Z) (m : MediaType) (u : Update) (w : World) :
  exists sb c, snd (userMediaService.updateUserMedia t m u w) = frame w sb c.
Proof.
  break_world w. unfold_service; cbn.
  destruct rs as [|[code|uuid now] rs]; cbn;
    try (eexists; eexists; reflexivity).
  destruct (find _ tbl); cbn; eexists; eexists; reflexivity.
Qed.

Lemma removeUserMedia_frame (t : Z) (m : MediaType) (w : World) :
  exists sb c, snd (userMediaService.removeUserMedia t m w) = frame w sb c.
Proof.
  break_world w. unfold_service; cbn.
  destruct rs as [|[code|uuid now] rs]; cbn; eexists; eexists; reflexivity.
Qed.

Lemma local_cache_frame (w : World) (sb : Supabase) (c : list Log) :
  local_cache (frame w sb c) = local_cache w.
Proof.
  break_world w. unfold local_cache; unfold_m; cbn.
  destruct hw, sl; reflexivity.
Qed.

Lemma local_unchanged_frame (w : World) (sb : Supabase) (c : list Log) :
  local_unchanged w (frame w sb c).
Proof.
  unfold local_unchanged. rewrite local_cache_frame.
  break_world w. cbn. auto.
Qed.

Lemma local_unchanged_console (w : World) (sb : Supabase) (c c' : list Log) :
  local_unchanged w (set_console c' (frame w sb c)).
Proof. exact (local_unchanged_frame w sb c'). Qed.

(** ** Remote first, then the cache *)

(** C2. In a session, when the remote insert fails, [addToList] throws the
    same error, the stored payload, the shared [emptyStore] and the
    collection read back are what they were, no [mediaStoreUpdate] event is
    dispatched, and an item that was not in the collection is not in it
    afterwards. *)
Theorem addToList_remote_failure (item : MediaItem.t) (w : World)
    (u : string) (e : Exn) :
  currentUser w = Some u ->
  fst (userMediaService.addUserMedia (mediaItemToSupabase item) w) = Throw e ->
  fst (addToList item w) = Throw e
  /\ local_unchanged w (snd (addToList item w))
  /\ (~ In (key_of item) (keys (local_cache w)) ->
      ~ In (key_of item) (keys (local_cache (snd (addToList item w))))).
Proof.
  intros Hu He.
  destruct (addUserMedia_frame (mediaItemToSupabase item) w) as [sb [c Hf]].
  assert (R : addToList item w
              = (Throw e, set_console (c ++ [LogError "Error adding to Supabase:"])
                            (frame w sb c))).
  { unfold addToList, isLoggedIn, read, try_catch, bind at 1 2 3 4.
    rewrite Hu.
    destruct (userMediaService.addUserMedia (mediaItemToSupabase item) w)
      as [[row|e'] w1]; cbn in He, Hf; [discriminate|].
    injection He as ->. subst w1. reflexivity. }
  rewrite R. cbn [fst snd].
  split; [reflexivity|].
  pose proof (local_unchanged_console w sb c
                (c ++ [LogError "Error adding to Supabase:"])) as L.
  split; [exact L|].
  destruct L as [_ [_ [_ L]]]. rewrite L. auto.
Qed.

Lemma addToList_remote_failure_witness :
  currentUser (session_world empty [] [Reject "503"] []) = Some "user-1"
  /\ fst (userMediaService.addUserMedia (mediaItemToSupabase fight_club)
            (session_world empty [] [Reject "503"] []))
     = Throw (PostgrestError "503")
  /\ fst (addToList fight_club (session_world empty [] [Reject "503"] []))
     = Throw (PostgrestError "503").
Proof.
  split; [reflexivity|]. split; [reflexivity|].
  exact (proj1 (addToList_remote_failure fight_club
                  (session_world empty [] [Reject "503"] [])
                  "user-1" (PostgrestError "503") eq_refl eq_refl)).
Defined.

Lemma addToList_guest (item : MediaItem.t) (w : World) :
  currentUser w = None -> addToList item w = addToList_cache item w.
Proof.
  intros G. unfold addToList, isLoggedIn, read, bind at 1 2.
  rewrite G. reflexivity.
Qed.

Lemma addToList_session (item : MediaItem.t) (w : World) (u : string) :
  currentUser w = Some u ->
  addToList item w
  = match userMediaService.addUserMedia (mediaItemToSupabase item) w with
    | (Return _, w1) => addToList_cache item w1
    | (Throw e, w1) =>
        (Throw e,
         set_console (console w1 ++ [LogError "Error adding to Supabase:"]) w1)
    end.
Proof.
  intros G. unfold addToList, isLoggedIn, read, try_catch, bind at 1 2 3 4.
  rewrite G.
  destruct (userMediaService.addUserMedia (mediaItemToSupabase item) w)
    as [[row|e] w1]; reflexivity.
Qed.

Lemma updateStatus_guest (t : Z) (m : MediaType) (ns : WatchStatus) (w : World) :
  currentUser w = None -> updateStatus t m ns w = updateStatus_cache t m ns w.
Proof.
  intros G. unfold updateStatus, isLoggedIn, read, bind at 1 2.
  rewrite G. reflexivity.
Qed.

Lemma updateStatus_session (t : Z) (m : MediaType) (ns : WatchStatus)
    (w : World) (u : string) :
  currentUser w = Some u ->
  updateStatus t m ns w
  = match userMediaService.updateMediaStatus t m ns w with
    | (Return _, w1) => updateStatus_cache t m ns w1
    | (Throw e, w1) =>
        (Throw e,
         set_console (console w1 ++ [LogError "Error updating status in Supabase:"])
                     w1)
    end.
Proof.
  intros G. unfold updateStatus, isLoggedIn, read, try_catch, bind at 1 2 3 4.
  rewrite G.
  destruct (userMediaService.updateMediaStatus t m ns w)
    as [[row|e] w1]; reflexivity.
Qed.

Lemma addToList_cache_duplicate (item : MediaItem.t) (w : World) :
  In (key_of item) (keys (local_cache w)) ->
  exists l,
    addToList_cache item w
    = (Return tt,
       set_console (console w ++ l ++ [LogWarn "Item already in list"]) w).
Proof.
  intros H. apply existsb_same_key in H. revert H.
  break_world w. unfold addToList_cache, local_cache; unfold_m; cbn.
  destruct hw, sl; cbn; intros ->; cbn;
    try (exists []; reflexivity);
    (exists [LogError "Error reading from localStorage:"]);
    unfold set_console; cbn; rewrite <- app_assoc; reflexivity.
Qed.

Lemma take_out_absent (t : Z) (m : MediaType) (c : UserMediaStore) :
  ~ In (t, m) (keys c) -> take_out t m all_statuses c = (None, c).
Proof.
  intros N. pose proof (take_out_spec t m all_statuses c) as H.
  destruct (take_out t m all_statuses c) as [[item|] c'].
  - destruct H as [s [F _]]. apply find_some in F as [Hin Hk].
    exfalso. apply N. unfold keys. apply in_map_iff. exists item.
    split; [apply same_key_eq, Hk | apply in_spread; eauto].
  - destruct H as [-> _]. reflexivity.
Qed.

Lemma updateStatus_cache_absent (t : Z) (m : MediaType) (ns : WatchStatus)
    (w : World) :
  ~ In (t, m) (keys (local_cache w)) ->
  exists l,
    updateStatus_cache t m ns w
    = (Return tt,
       set_console (console w ++ l ++ [LogWarn "Item not found in any list"]) w).
Proof.
  intros H. apply take_out_absent in H. revert H.
  break_world w. unfold updateStatus_cache, local_cache; unfold_m;
    cbn -[take_out].
  destruct hw, sl; cbn -[take_out]; intros ->; cbn;
    try (exists []; reflexivity);
    (exists [LogError "Error reading from localStorage:"]);
    unfold set_console; cbn; rewrite <- app_assoc; reflexivity.
Qed.

Lemma local_unchanged_warn (w : World) (c : list Log) :
  local_unchanged w (set_console c w).
Proof.
  break_world w. unfold local_unchanged, local_cache; unfold_m; cbn.
  destruct hw, sl; auto.
Qed.

Lemma local_unchanged_trans (w1 w2 w3 : World) :
  local_unchanged w1 w2 -> local_unchanged w2 w3 -> local_unchanged w1 w3.
Proof.
  unfold local_unchanged. intros [A [B [C D]]] [A' [B' [C' D']]].
  repeat split; congruence.
Qed.

(** C5, as the code has it.  Adding an item whose key the collection
    already holds never changes the cache and dispatches no event.  For a
    guest the call returns after the warning and no request is made.  In a
    session the remote insert is attempted first: when it fails its error is
    thrown to the caller, when it succeeds the call returns after the
    warning. *)
Theorem addToList_duplicate (item : MediaItem.t) (w : World) :
  In (key_of item) (keys (local_cache w)) ->
  local_unchanged w (snd (addToList item w))
  /\ (currentUser w = None ->
      fst (addToList item w) = Return tt
      /\ supabase (snd (addToList item w)) = supabase w
      /\ exists l, console (snd (addToList item w))
                   = console w ++ l ++ [LogWarn "Item already in list"])
  /\ (forall u, currentUser w = Some u ->
      match fst (userMediaService.addUserMedia (mediaItemToSupabase item) w) with
      | Return _ =>
          fst (addToList item w) = Return tt
          /\ exists l, console (snd (addToList item w))
                       = l ++ [LogWarn "Item already in list"]
      | Throw e => fst (addToList item w) = Throw e
      end).
Proof.
  intros H.
  destruct (currentUser w) as [u|] eqn:G.
  - rewrite (addToList_session item w u G).
    destruct (addUserMedia_frame (mediaItemToSupabase item) w) as [sb [c Hf]].
    destruct (userMediaService.addUserMedia (mediaItemToSupabase item) w)
      as [[row|e] w1]; cbn in Hf; subst w1.
    + assert (H1 : In (key_of item) (keys (local_cache (frame w sb c))))
        by (rewrite local_cache_frame; exact H).
      destruct (addToList_cache_duplicate item _ H1) as [l ->]. cbn [fst snd].
      split; [|split; [discriminate|]].
      * eapply local_unchanged_trans;
          [apply local_unchanged_frame | apply local_unchanged_warn].
      * intros u' _. split; [reflexivity|].
        exists (console (frame w sb c) ++ l).
        rewrite <- app_assoc. destruct w; reflexivity.
    + cbn [fst snd]. split; [|split; [discriminate|]].
      * eapply local_unchanged_trans;
          [apply local_unchanged_frame | apply local_unchanged_warn].
      * intros u' _. reflexivity.
  - rewrite (addToList_guest item w G).
    destruct (addToList_cache_duplicate item w H) as [l ->]. cbn [fst snd].
    split; [apply local_unchanged_warn|].
    split; [|discriminate].
    intros _. split; [reflexivity|]. split; [destruct w; reflexivity|].
    exists l. destruct w; reflexivity.
Qed.

Lemma addToList_duplicate_witness :
  In (key_of fight_club) (keys (local_cache
        (session_world (mkStore [fight_club] [] []) [] [Reject "23505"] [])))
  /\ local_unchanged
       (session_world (mkStore [fight_club] [] []) [] [Reject "23505"] [])
       (snd (addToList fight_club
               (session_world (mkStore [fight_club] [] []) [] [Reject "23505"] []))).
Proof.
  split; [left; reflexivity|].
  exact (proj1 (addToList_duplicate fight_club
                  (session_world (mkStore [fight_club] [] []) [] [Reject "23505"] [])
                  (or_introl eq_refl))).
Defined.

(** C5 as stated fails: in a session whose remote insert is rejected, adding
    an item that the collection already holds throws to the caller. *)
Lemma addToList_duplicate_throws :
  In (key_of fight_club) (keys (local_cache
        (session_world (mkStore [fight_club] [] []) [] [Reject "23505"] [])))
  /\ fst (addToList fight_club
            (session_world (mkStore [fight_club] [] []) [] [Reject "23505"] []))
     = Throw (PostgrestError "23505")
  /\ fst (addToList fight_club
            (session_world (mkStore [fight_club] [] []) [] [Reject "23505"] []))
     <> Return tt.
Proof.
  split; [left; reflexivity|]. split; [reflexivity | discriminate].
Qed.

(** C6, as the code has it.  [updateStatus] on a key that no list of the
    collection holds changes nothing in the cache and dispatches no event.
    For a guest the call returns after the warning that the item was not
    found, and no request is made.  In a session the remote update is
    attempted first: when it fails its error is thrown to the caller, when
    it succeeds the call returns after the warning. *)
Theorem updateStatus_absent (t : Z) (m : MediaType) (ns : WatchStatus) (w : World) :
  ~ In (t, m) (keys (local_cache w)) ->
  local_unchanged w (snd (updateStatus t m ns w))
  /\ (forall s, at_status s (local_cache (snd (updateStatus t m ns w)))
                = at_status s (local_cache w))
  /\ (currentUser w = None ->
      fst (updateStatus t m ns w) = Return tt
      /\ supabase (snd (updateStatus t m ns w)) = supabase w
      /\ exists l, console (snd (updateStatus t m ns w))
                   = console w ++ l ++ [LogWarn "Item not found in any list"])
  /\ (forall u, currentUser w = Some u ->
      match fst (userMediaService.updateMediaStatus t m ns w) with
      | Return _ =>
          fst (updateStatus t m ns w) = Return tt
          /\ exists l, console (snd (updateStatus t m ns w))
                       = l ++ [LogWarn "Item not found in any list"]
      | Throw e => fst (updateStatus t m ns w) = Throw e
      end).
Proof.
  intros H.
  assert (X : forall w', local_unchanged w w' ->
                forall s, at_status s (local_cache w') = at_status s (local_cache w)).
  { intros w' [_ [_ [_ E]]] s. rewrite E. reflexivity. }
  destruct (currentUser w) as [u|] eqn:G.
  - rewrite (updateStatus_session t m ns w u G).
    destruct (updateUserMedia_frame t m (UpdStatus ns) w) as [sb [c Hf]].
    fold (userMediaService.updateMediaStatus t m ns) in Hf.
    destruct (userMediaService.updateMediaStatus t m ns w)
      as [[row|e] w1]; cbn in Hf; subst w1.
    + assert (H1 : ~ In (t, m) (keys (local_cache (frame w sb c))))
        by (rewrite local_cache_frame; exact H).
      destruct (updateStatus_cache_absent t m ns _ H1) as [l ->]. cbn [fst snd].
      assert (L : local_unchanged w
                    (set_console
                       (console (frame w sb c) ++ l
                        ++ [LogWarn "Item not found in any list"])
                       (frame w sb c))).
      { eapply local_unchanged_trans;
          [apply local_unchanged_frame | apply local_unchanged_warn]. }
      split; [exact L|]. split; [apply X, L|]. split; [discriminate|].
      intros u' _. split; [reflexivity|].
      exists (console (frame w sb c) ++ l).
      rewrite <- app_assoc. destruct w; reflexivity.
    + cbn [fst snd].
      assert (L : local_unchanged w
                    (set_console
                       (console (frame w sb c)
                        ++ [LogError "Error updating status in Supabase:"])
                       (frame w sb c))).
      { eapply local_unchanged_trans;
          [apply local_unchanged_frame | apply local_unchanged_warn]. }
      split; [exact L|]. split; [apply X, L|]. split; [discriminate|].
      intros u' _. reflexivity.
  - rewrite (updateStatus_guest t m ns w G).
    destruct (updateStatus_cache_absent t m ns w H) as [l ->]. cbn [fst snd].
    split; [apply local_unchanged_warn|].
    split; [apply X, local_unchanged_warn|].
    split; [|discriminate].
    intros _. split; [reflexivity|]. split; [destruct w; reflexivity|].
    exists l. destruct w; reflexivity.
Qed.

Lemma updateStatus_absent_witness :
  ~ In (999%Z, tv) (keys (local_cache (run [AddItem fight_club] guest_world)))
  /\ fst (updateStatus 999 tv Completed (run [AddItem fight_club] guest_world))
     = Return tt
  /\ local_cache (snd (updateStatus 999 tv Completed
                         (run [AddItem fight_club] guest_world)))
     = mkStore [fight_club] [] [].
Proof.
  assert (N : ~ In (999%Z, tv)
                (keys (local_cache (run [AddItem fight_club] guest_world)))).
  { cbn. intros [E|[]]. discriminate E. }
  split; [exact N|].
  split.
  - exact (proj1 (proj1 (proj2 (proj2
             (updateStatus_absent 999 tv Completed
                (run [AddItem fight_club] guest_world) N))) eq_refl)).
  - destruct (updateStatus_absent 999 tv Completed
                (run [AddItem fight_club] guest_world) N) as [[_ [_ [_ E]]] _].
    rewrite E. reflexivity.
Defined.

(** C6 as stated fails: in a session, [updateStatus] on a key the cache does
    not hold throws the error of the remote update and logs no warning that
    the item was not found, both when the request is rejected and when it is
    answered by a table that has no row for the key. *)
Lemma updateStatus_absent_throws :
  let rejected := session_world empty [] [Reject "503"] [] in
  let answered :=
    session_world empty [] [Accept "f0" "2024-01-05T10:00:09.000Z"] [] in
  ~ In (550%Z, movie) (keys (local_cache rejected))
  /\ fst (updateStatus 550 movie Watching rejected) = Throw (PostgrestError "503")
  /\ ~ In (LogWarn "Item not found in any list")
          (console (snd (updateStatus 550 movie Watching rejected)))
  /\ ~ In (550%Z, movie) (keys (local_cache answered))
  /\ fst (updateStatus 550 movie Watching answered)
     = Throw (PostgrestError "PGRST116")
  /\ ~ In (LogWarn "Item not found in any list")
          (console (snd (updateStatus 550 movie Watching answered))).
Proof.
  cbn.
  split; [intros []|]. split; [reflexivity|].
  split; [intros [E|[E|[]]]; discriminate E|].
  split; [intros []|]. split; [reflexivity|].
  intros [E|[E|[]]]; discriminate E.
Qed.

(** C9. [updateProgress] on a movie logs one warning and returns: the world
    afterwards is the world before with that line on the console, so no
    request was made even in a session, nothing was thrown, and the cache
    and every item's progress fields are what they were. *)
Theorem updateProgress_movie (tmdbId : Z) (currentSeason currentEpisode : Z)
    (w : World) :
  updateProgress tmdbId movie currentSeason currentEpisode w
  = (Return tt,
     set_console
       (console w ++ [LogWarn "Progress tracking is only for TV series"]) w)
  /\ supabase (snd (updateProgress tmdbId movie currentSeason currentEpisode w))
     = supabase w
  /\ local_unchanged w
       (snd (updateProgress tmdbId movie currentSeason currentEpisode w)).
Proof.
  assert (E : updateProgress tmdbId movie currentSeason currentEpisode w
              = (Return tt,
                 set_console
                   (console w
                    ++ [LogWarn "Progress tracking is only for TV series"]) w))
    by reflexivity.
  rewrite E. cbn [fst snd].
  split; [reflexivity|]. split; [destruct w; reflexivity|].
  apply local_unchanged_warn.
Qed.

(** The scenario of the specification: add a movie, move it to the watching
    list, try to record progress on it. *)
Example movie_scenario :
  let w1 := snd (addToList fight_club guest_world) in
  let w2 := snd (updateStatus 550 movie Watching w1) in
  let w3 := snd (updateProgress 550 movie 1 1 w2) in
  local_cache w1 = mkStore [fight_club] [] []
  /\ local_cache w2
     = mkStore [] [MediaItem.set_status Watching fight_club] []
  /\ local_cache w3 = local_cache w2
  /\ map MediaItem.currentSeason (spread (local_cache w3)) = [Undefined]
  /\ map MediaItem.currentEpisode (spread (local_cache w3)) = [Undefined].
Proof. cbn. repeat split; reflexivity. Qed.

(** C10. In a session, when fetching the rows fails, [loadFromSupabase]
    returns normally: the error is logged, the stored payload, the shared
    [emptyStore] and the collection read back are what they were, and no
    [mediaStoreUpdate] event is dispatched. *)
Theorem loadFromSupabase_fetch_failure (w : World) (u : string) (e : Exn) :
  currentUser w = Some u ->
  fst (userMediaService.getAllUserMedia w) = Throw e ->
  fst (loadFromSupabase w) = Return tt
  /\ local_unchanged w (snd (loadFromSupabase w))
  /\ exists l, console (snd (loadFromSupabase w))
               = l ++ [LogError "Error loading from Supabase:"].
Proof.
  intros G He.
  destruct (getAllUserMedia_frame w) as [sb [c Hf]].
  assert (R : loadFromSupabase w
              = (Return tt,
                 set_console (c ++ [LogError "Error loading from Supabase:"])
                             (frame w sb c))).
  { unfold loadFromSupabase, isLoggedIn, read, try_catch, bind at 1 2.
    rewrite G. cbn [negb].
    destruct (userMediaService.getAllUserMedia w) as [[rows|e'] w1];
      cbn in He, Hf; [discriminate|].
    subst w1. reflexivity. }
  rewrite R. cbn [fst snd].
  split; [reflexivity|].
  split; [apply local_unchanged_console|].
  exists c. destruct w; reflexivity.
Qed.

Lemma loadFromSupabase_fetch_failure_witness :
  currentUser (session_world (mkStore [fight_club] [] []) [] [Reject "503"] [])
  = Some "user-1"
  /\ fst (userMediaService.getAllUserMedia
            (session_world (mkStore [fight_club] [] []) [] [Reject "503"] []))
     = Throw (PostgrestError "503")
  /\ fst (loadFromSupabase
            (session_world (mkStore [fight_club] [] []) [] [Reject "503"] []))
     = Return tt.
Proof.
  split; [reflexivity|]. split; [reflexivity|].
  exact (proj1 (loadFromSupabase_fetch_failure
                  (session_world (mkStore [fight_club] [] []) [] [Reject "503"] [])
                  "user-1" (PostgrestError "503") eq_refl eq_refl)).
Defined.

(** ** Reading a missing or unreadable payload *)

Lemma getLocalStore_never_throws (w : World) :
  exists rs, fst (getLocalStore w) = Return rs.
Proof.
  destruct (getLocalStore_returns w) as [r [c [E _]]].
  rewrite E. exists (r, local_cache w). reflexivity.
Qed.

(** Without a readable payload the call hands out the module's
    [emptyStore] object, whatever it holds by then. *)
Lemma getLocalStore_degrades (w : World) :
  hasWindow w = false \/ slot w = Blocked \/ slot w = Missing
  \/ slot w = Blank \/ slot w = Corrupt ->
  fst (getLocalStore w) = Return (TheEmptyStore, emptyStore w).
Proof.
  break_world w; unfold_m; cbn.
  intros [->|[->|[->|[->| ->]]]]; cbn; try reflexivity;
    destruct hw; reflexivity.
Qed.

(** C7, at the failing input.  On a first visit with a storage that refuses
    writes, [addToList] pushes the item into the array of the shared
    [emptyStore] object that [getLocalStore] handed out; nothing is stored,
    and the next [getLocalStore], with no payload to read, returns that
    object with the item in it and not three empty lists.  The same object
    is returned for a payload that became unreadable after a first add in a
    working storage. *)
Theorem getLocalStore_not_empty_after_add :
  let w1 := snd (addToList fight_club full_storage_world) in
  let w2 := set_slot Corrupt (snd (addToList fight_club guest_world)) in
  emptyStore full_storage_world = empty
  /\ slot w1 = Missing
  /\ fst (getLocalStore w1) = Return (TheEmptyStore, mkStore [fight_club] [] [])
  /\ slot w2 = Corrupt
  /\ fst (getLocalStore w2) = Return (TheEmptyStore, mkStore [fight_club] [] [])
  /\ local_cache w1 <> empty
  /\ local_cache w2 <> empty.
Proof.
  cbn. do 5 (split; [reflexivity|]).
  split; intros E; discriminate E.
Qed.

(** The same shared object makes [clearLocalCache] store the first item
    again instead of clearing. *)
Example clearLocalCache_after_first_add :
  local_cache (snd (clearLocalCache (snd (addToList fight_club guest_world))))
  = mkStore [fight_club] [] [].
Proof. reflexivity. Qed.

(** ** Hydration *)

Lemma forEach_row_spec (media : list Row.t) : forall store w,
  forEach_row media store w
  = (Return (fold_left push_row
               (combine media (draws (List.length media) (nowRandom w))) store),
     set_nowRandom (skipn (List.length media) (nowRandom w)) w).
Proof.
  induction media as [|row media IH]; intros store w.
  - destruct w; reflexivity.
  - cbn [forEach_row]. unfold bind at 1.
    unfold supabaseToMediaItem, date_now_plus_random, bind, ret.
    destruct w as [cu hw es sl qe di co nr iso sb]; cbn.
    destruct nr as [|x nr]; rewrite IH; cbn.
    + destruct (List.length media); reflexivity.
    + reflexivity.
Qed.

Lemma partition_of_cons (s : WatchStatus) (r : Row.t) (id : number)
    (rows : list (Row.t * number)) :
  partition_of s ((r, id) :: rows)
  = if WatchStatus_eqb (Row.status r) s
    then item_of_row id r :: partition_of s rows
    else partition_of s rows.
Proof.
  unfold partition_of. cbn. destruct (WatchStatus_eqb (Row.status r) s); reflexivity.
Qed.

Lemma fold_push_rows (rows : list (Row.t * number)) : forall c,
  fold_left push_row rows c
  = mkStore (want_to_watch c ++ partition_of WantToWatch rows)
            (watching c ++ partition_of Watching rows)
            (completed c ++ partition_of Completed rows).
Proof.
  induction rows as [|[r id] rows IH]; intros [a b d].
  - cbn. rewrite !app_nil_r. reflexivity.
  - cbn [fold_left]. rewrite IH, !partition_of_cons.
    unfold push_row, push. cbn [fst snd].
    destruct (Row.status r); cbn; rewrite <- ?app_assoc; reflexivity.
Qed.

Lemma fold_push_rows_empty (rows : list (Row.t * number)) :
  fold_left push_row rows empty = partitioning rows.
Proof. rewrite fold_push_rows. reflexivity. Qed.

Lemma draws_length (n : nat) : forall stream, List.length (draws n stream) = n.
Proof.
  induction n as [|n IH]; intros [|x xs]; cbn; auto.
Qed.

Lemma rows_of_combine (R : list Row.t) : forall ids : list number,
  List.length ids = List.length R -> map fst (combine R ids) = R.
Proof.
  induction R as [|r R IH]; intros [|i ids]; cbn; intros E; try discriminate;
    [reflexivity|].
  rewrite IH; [reflexivity | lia].
Qed.

Lemma forget_partition (s : WatchStatus) (rows : list (Row.t * number)) :
  map forget_id (partition_of s rows)
  = map (item_of_row (QArith_base.Qmake 0 1))
        (filter (fun r => WatchStatus_eqb (Row.status r) s) (map fst rows)).
Proof.
  induction rows as [|[r id] rows IH]; [reflexivity|].
  rewrite partition_of_cons. cbn.
  destruct (WatchStatus_eqb (Row.status r) s); cbn; rewrite IH; reflexivity.
Qed.

Lemma keys_partition (s : WatchStatus) (rows : list (Row.t * number)) :
  map key_of (partition_of s rows)
  = map Row.key
        (filter (fun r => WatchStatus_eqb (Row.status r) s) (map fst rows)).
Proof.
  induction rows as [|[r id] rows IH]; [reflexivity|].
  rewrite partition_of_cons. cbn.
  destruct (WatchStatus_eqb (Row.status r) s); cbn; rewrite IH; reflexivity.
Qed.

Lemma forget_partitioning (R : list Row.t) (ids ids' : list number) :
  List.length ids = List.length R -> List.length ids' = List.length R ->
  forget_ids (partitioning (combine R ids))
  = forget_ids (partitioning (combine R ids')).
Proof.
  intros E E'. unfold forget_ids, partitioning. cbn.
  rewrite !forget_partition, !rows_of_combine by assumption. reflexivity.
Qed.

(** A fetch that is answered, in a browser whose storage takes the write. *)
Lemma loadFromSupabase_success (u : string) (es : UserMediaStore) (sl : Slot)
    (di : nat) (co : list Log) (nr : list number) (iso : string)
    (au : option string) (tbl : list Row.t) (uuid now : string)
    (rest : list Reply) (cl : list Call) :
  loadFromSupabase
    (mkWorld (Some u) true es sl false di co nr iso
       (mkSupabase au tbl (Accept uuid now :: rest) cl))
  = (Return tt,
     mkWorld (Some u) true es
       (Stored (partitioning (combine tbl (draws (List.length tbl) nr))))
       false (S di) co (skipn (List.length tbl) nr) iso
       (mkSupabase au tbl rest (cl ++ [GetAllUserMedia]))).
Proof.
  unfold loadFromSupabase. unfold_m. unfold_service. cbn -[forEach_row].
  rewrite forEach_row_spec. cbn. rewrite fold_push_rows_empty. reflexivity.
Qed.

Lemma local_cache_stored (cu : option string) (es c : UserMediaStore)
    (qe : bool) (di : nat) (co : list Log) (nr : list number) (iso : string)
    (sb : Supabase) :
  local_cache (mkWorld cu true es (Stored c) qe di co nr iso sb) = c.
Proof. reflexivity. Qed.

(** C4, as the code has it.  Without a session [loadFromSupabase] does
    nothing.  In a session, when the fetch is answered and the storage takes
    the write, the cache afterwards is the status partitioning of the rows
    fetched, each with a newly drawn local [id], whatever the cache held
    before.  A second call with the table untouched gives the same cache up
    to those [id]s, and the very same cache when the same [id]s are drawn. *)
Theorem loadFromSupabase_replaces :
  (forall w, currentUser w = None -> loadFromSupabase w = (Return tt, w))
  /\ (forall w u uuid now rest,
        currentUser w = Some u ->
        hasWindow w = true ->
        quotaExceeded w = false ->
        replies (supabase w) = Accept uuid now :: rest ->
        let R := user_media (supabase w) in
        let w1 := snd (loadFromSupabase w) in
        fst (loadFromSupabase w) = Return tt
        /\ local_cache w1
           = partitioning (combine R (draws (List.length R) (nowRandom w)))
        /\ user_media (supabase w1) = R
        /\ dispatched w1 = S (dispatched w)
        /\ (forall uuid' now' rest',
              rest = Accept uuid' now' :: rest' ->
              let w2 := snd (loadFromSupabase w1) in
              fst (loadFromSupabase w1) = Return tt
              /\ local_cache w2
                 = partitioning
                     (combine R (draws (List.length R) (nowRandom w1)))
              /\ forget_ids (local_cache w2) = forget_ids (local_cache w1)
              /\ (draws (List.length R) (nowRandom w1)
                  = draws (List.length R) (nowRandom w) ->
                  local_cache w2 = local_cache w1))).
Proof.
  split.
  - intros w G. unfold loadFromSupabase, isLoggedIn, read, bind, ret.
    rewrite G. reflexivity.
  - intros w u uuid now rest G W Q Rp R w1.
    break_world w. cbn in G, W, Q, Rp, R. subst cu hw qe rs.
    subst w1. rewrite loadFromSupabase_success. cbn [fst snd].
    rewrite local_cache_stored. cbn [supabase user_media dispatched nowRandom].
    do 4 (split; [reflexivity|]).
    intros uuid' now' rest' ->.
    rewrite loadFromSupabase_success. cbn [fst snd].
    rewrite local_cache_stored.
    split; [reflexivity|]. split; [reflexivity|].
    split.
    + apply forget_partitioning; apply draws_length.
    + subst R. intros ->. reflexivity.
Qed.

Lemma loadFromSupabase_replaces_witness :
  currentUser (session_world (mkStore [] [inception] []) [fight_club_row]
                 [Accept "f0" "2024-01-05T10:00:09.000Z"] []) = Some "user-1"
  /\ hasWindow (session_world (mkStore [] [inception] []) [fight_club_row]
                  [Accept "f0" "2024-01-05T10:00:09.000Z"] []) = true
  /\ quotaExceeded (session_world (mkStore [] [inception] []) [fight_club_row]
                      [Accept "f0" "2024-01-05T10:00:09.000Z"] []) = false
  /\ replies (supabase (session_world (mkStore [] [inception] [])
                          [fight_club_row] [Accept "f0" "2024-01-05T10:00:09.000Z"] []))
     = [Accept "f0" "2024-01-05T10:00:09.000Z"]
  /\ local_cache (snd (loadFromSupabase
                         (session_world (mkStore [] [inception] [])
                            [fight_club_row] [Accept "f0" "2024-01-05T10:00:09.000Z"] [])))
     = partitioning [(fight_club_row, QArith_base.Qmake 0 1)].
Proof.
  repeat (split; [reflexivity|]).
  exact (proj1 (proj2
           (proj2 loadFromSupabase_replaces
              (session_world (mkStore [] [inception] []) [fight_club_row]
                 [Accept "f0" "2024-01-05T10:00:09.000Z"] [])
              "user-1" "f0" "2024-01-05T10:00:09.000Z" [] eq_refl eq_refl eq_refl eq_refl))).
Defined.

(** C4 as stated fails: two calls in a row, both answered, with the table
    untouched in between, leave two different caches, because every call
    draws new local [id]s. *)
Lemma loadFromSupabase_twice_differs :
  let w := session_world empty [fight_club_row] [Accept "f0" "2024-01-05T10:00:09.000Z"; Accept "f0" "2024-01-05T10:00:09.000Z"]
             [QArith_base.Qmake 17 1; QArith_base.Qmake 18 1] in
  let w1 := snd (loadFromSupabase w) in
  let w2 := snd (loadFromSupabase w1) in
  fst (loadFromSupabase w) = Return tt
  /\ fst (loadFromSupabase w1) = Return tt
  /\ user_media (supabase w1) = user_media (supabase w)
  /\ user_media (supabase w2) = user_media (supabase w)
  /\ local_cache w2 <> local_cache w1.
Proof.
  cbn. repeat (split; [reflexivity|]).
  intros E. discriminate E.
Qed.

(** ** Migration of the guest collection *)

Lemma existsb_keys (t : Z) (m : MediaType) (tbl : list Row.t) :
  existsb (fun k => Key_eqb k (t, m)) (map Row.key tbl)
  = existsb (Row.has_key t m) tbl.
Proof.
  induction tbl as [|r tbl IH]; [reflexivity|].
  cbn. rewrite IH. reflexivity.
Qed.

Lemma existsb_keys_item (i : MediaItem.t) (tbl : list Row.t) :
  existsb (fun k => Key_eqb k (key_of i)) (map Row.key tbl)
  = existsb (Row.has_key (MediaItem.tmdbId i) (MediaItem.mediaType i)) tbl.
Proof. exact (existsb_keys _ _ tbl). Qed.

Lemma accepted_length (items : list MediaItem.t) : forall rs held,
  List.length (accepted items rs held) <= List.length items.
Proof.
  induction items as [|i items IH]; intros [|[c|uuid now] rs] held; cbn;
    try lia.
  - specialize (IH rs held). lia.
  - destruct (existsb _ held); cbn.
    + specialize (IH rs held). lia.
    + specialize (IH rs (key_of i :: held)). lia.
Qed.

Lemma accepted_incl (items : list MediaItem.t) : forall rs held x,
  In x (accepted items rs held) -> In x items.
Proof.
  induction items as [|i items IH]; intros [|[c|uuid now] rs] held x; cbn;
    try tauto.
  - intros H. right. exact (IH _ _ _ H).
  - destruct (existsb _ held); cbn.
    + intros H. right. exact (IH _ _ _ H).
    + intros [H|H]; [auto | right; exact (IH _ _ _ H)].
Qed.

Lemma keys_inserted (user : string) (items : list MediaItem.t) : forall rs tbl,
  map Row.key (inserted user items rs tbl)
  = rev (map key_of (accepted items rs (map Row.key tbl))) ++ map Row.key tbl.
Proof.
  induction items as [|i items IH]; intros [|[c|uuid now] rs] tbl;
    cbn [inserted accepted]; try reflexivity.
  - apply IH.
  - rewrite existsb_keys_item.
    destruct (existsb _ tbl); [apply IH|].
    rewrite IH. cbn. rewrite <- app_assoc. reflexivity.
Qed.

Lemma migrate_each_spec (items : list MediaItem.t) :
  forall rs n cu hw es sl qe di co nr iso uid tbl rest cl,
    List.length rs = List.length items ->
    exists co',
      migrate_each items n
        (mkWorld cu hw es sl qe di co nr iso
           (mkSupabase (Some uid) tbl (rs ++ rest) cl))
      = (Return (n + List.length (accepted items rs (map Row.key tbl))),
         mkWorld cu hw es sl qe di co' nr iso
           (mkSupabase (Some uid) (inserted uid items rs tbl) rest
              (cl ++ map (fun i => AddUserMedia (mediaItemToSupabase i)) items))).
Proof.
  induction items as [|item items IH];
    intros [|r rs] n cu hw es sl qe di co nr iso uid tbl rest cl E;
    cbn in E; try discriminate.
  - exists co. cbn. rewrite Nat.add_0_r, app_nil_r. reflexivity.
  - injection E as E.
    cbn [migrate_each app accepted inserted map]. unfold bind at 1, try_catch.
    unfold_service. cbn -[migrate_each accepted inserted].
    destruct r as [c|uuid now].
    + unfold set_console, set_supabase; cbn -[migrate_each accepted inserted].
      edestruct IH as [co' E']; [exact E|]. rewrite E'.
      exists co'. rewrite <- app_assoc. reflexivity.
    + cbn -[migrate_each accepted inserted].
      rewrite existsb_keys_item.
      destruct (existsb (Row.has_key (MediaItem.tmdbId item)
                                     (MediaItem.mediaType item)) tbl) eqn:X;
        unfold set_console, set_supabase, with_table;
        cbn -[migrate_each accepted inserted].
      * edestruct IH as [co' E']; [exact E|]. rewrite E'.
        exists co'. rewrite <- app_assoc. reflexivity.
      * edestruct IH as [co' E']; [exact E|]. rewrite E'.
        exists co'. cbn [List.length map Row.key].
        rewrite <- app_assoc, Nat.add_succ_r. reflexivity.
Qed.

Lemma migrate_unfold (w w0 : World) (u : string) (r : Ref) (st : UserMediaStore) :
  currentUser w = Some u ->
  getLocalStore w = (Return (r, st), w0) ->
  spread st <> [] ->
  migrateGuestDataToSupabase w
  = match migrate_each (spread st) 0 w0 with
    | (Return n, w1) =>
        match loadFromSupabase w1 with
        | (Return _, w2) => (Return n, w2)
        | (Throw e, w2) => (Throw e, w2)
        end
    | (Throw e, w1) => (Throw e, w1)
    end.
Proof.
  intros G E N.
  unfold migrateGuestDataToSupabase, isLoggedIn, read, bind at 1 2.
  rewrite G. cbn [negb]. rewrite E. cbn [snd].
  destruct (spread st) as [|x l] eqn:S; [contradiction|].
  cbn [List.length Nat.eqb]. unfold bind, ret.
  destruct (migrate_each (x :: l) 0 w0) as [[n|e] w1]; [|reflexivity].
  destruct (loadFromSupabase w1) as [[[]|e] w2]; reflexivity.
Qed.

Lemma in_keys_partitioning (rows : list (Row.t * number)) (k : Key) :
  In k (keys (partitioning rows)) <-> In k (map Row.key (map fst rows)).
Proof.
  unfold keys, spread, partitioning. cbn [want_to_watch watching completed].
  rewrite !map_app, !in_app_iff, !keys_partition, !in_map_iff.
  split.
  - intros [[x [E H]]|[[x [E H]]|[x [E H]]]];
      apply filter_In in H as [H _]; eauto.
  - intros [x [E H]].
    destruct (Row.status x) eqn:S;
      [left | right; left | right; right];
      exists x; (split; [exact E|]); apply filter_In;
      (split; [exact H|]); rewrite S; reflexivity.
Qed.

Lemma loadFromSupabase_remote (w : World) (u : string) :
  currentUser w = Some u ->
  fst (loadFromSupabase w) = Return tt
  /\ user_media (supabase (snd (loadFromSupabase w))) = user_media (supabase w)
  /\ calls (supabase (snd (loadFromSupabase w)))
     = calls (supabase w) ++ [GetAllUserMedia].
Proof.
  destruct w as [cu hw es sl qe di co nr iso [au tbl rp cl]]. cbn.
  intros ->. unfold loadFromSupabase. unfold_m. unfold_service.
  cbn -[forEach_row].
  destruct rp as [|[c|uuid now] rp]; cbn -[forEach_row]; auto.
  rewrite forEach_row_spec. cbn.
  destruct hw, qe; cbn; auto.
Qed.

Lemma migrate_each_unauthenticated (items : list MediaItem.t) :
  forall n cu hw es sl qe di co nr iso tbl rp cl,
    exists co',
      migrate_each items n
        (mkWorld cu hw es sl qe di co nr iso (mkSupabase None tbl rp cl))
      = (Return n,
         mkWorld cu hw es sl qe di co' nr iso
           (mkSupabase None tbl rp
              (cl ++ map (fun i => AddUserMedia (mediaItemToSupabase i)) items))).
Proof.
  induction items as [|item items IH];
    intros n cu hw es sl qe di co nr iso tbl rp cl.
  - exists co. cbn. rewrite app_nil_r. reflexivity.
  - cbn [migrate_each map]. unfold bind at 1, try_catch.
    unfold_service. cbn -[migrate_each].
    unfold set_console, set_supabase, record_call; cbn -[migrate_each].
    edestruct IH as [co' E']. rewrite E'.
    exists co'. rewrite <- app_assoc. reflexivity.
Qed.

Lemma local_cache_local (w : World) (cu : option string) (qe : bool) (di : nat)
    (co : list Log) (nr : list number) (iso : string) (sb : Supabase) :
  local_cache (mkWorld cu (hasWindow w) (emptyStore w) (slot w) qe di co nr iso sb)
  = local_cache w.
Proof.
  destruct w as [cu0 hw es sl qe0 di0 co0 nr0 iso0 sb0].
  unfold local_cache. unfold_m. cbn. destruct hw, sl; reflexivity.
Qed.

(** A hydration whose fetch is not answered, or whose write the storage
    does not take, leaves the cache as it was. *)
Lemma loadFromSupabase_no_effect (w : World) :
  (replies (supabase w) = []
   \/ (exists c rest, replies (supabase w) = Reject c :: rest)
   \/ hasWindow w = false
   \/ quotaExceeded w = true) ->
  local_unchanged w (snd (loadFromSupabase w)).
Proof.
  destruct w as [cu hw es sl qe di co nr iso [au tbl rp cl]].
  cbn [supabase replies hasWindow quotaExceeded]. intros H.
  unfold local_unchanged, local_cache, loadFromSupabase.
  unfold_m. unfold_service. cbn -[forEach_row].
  destruct cu as [u|]; cbn -[forEach_row];
    [|destruct hw, sl; repeat split].
  destruct rp as [|[c|uuid now] rp]; cbn -[forEach_row];
    try (destruct hw, sl; repeat split; fail).
  rewrite forEach_row_spec. cbn.
  destruct hw, qe; cbn; try (destruct sl; repeat split; fail).
  destruct H as [H|[[c [rest H]]|[H|H]]]; discriminate H.
Qed.

Lemma hydrated_item (id : number) (uuid now user : string) (item : MediaItem.t) :
  item_of_row id (row_of_insert uuid now user (mediaItemToSupabase item))
  = as_hydrated id now item.
Proof.
  destruct item as [i t ti mt pp ry ra st ad cs ce ov ru ns ne].
  unfold item_of_row, row_of_insert, mediaItemToSupabase, as_hydrated. cbn.
  destruct cs, ce, ov, ru, ns, ne; reflexivity.
Qed.

Lemma inserted_keeps (user : string) (items : list MediaItem.t) :
  forall rs tbl r, In r tbl -> In r (inserted user items rs tbl).
Proof.
  induction items as [|i items IH]; intros [|[c|uuid now] rs] tbl r H;
    cbn [inserted]; auto.
  destruct (existsb _ tbl); apply IH; [exact H | right; exact H].
Qed.

Lemma inserted_accepted (user : string) (items : list MediaItem.t) :
  forall rs tbl i,
    In i (accepted items rs (map Row.key tbl)) ->
    exists uuid now,
      In (row_of_insert uuid now user (mediaItemToSupabase i))
         (inserted user items rs tbl).
Proof.
  induction items as [|x items IH]; intros [|[c|uuid now] rs] tbl i;
    cbn [inserted accepted]; try (intros []).
  - apply IH.
  - rewrite existsb_keys_item.
    destruct (existsb _ tbl); [apply IH|].
    intros [<-|H].
    + exists uuid, now. apply inserted_keeps. left. reflexivity.
    + apply (IH rs (row_of_insert uuid now user (mediaItemToSupabase x) :: tbl)).
      exact H.
Qed.

Lemma inserted_from (user : string) (items : list MediaItem.t) :
  forall rs tbl r,
    In r (inserted user items rs tbl) ->
    In r tbl
    \/ exists i uuid now,
         In i (accepted items rs (map Row.key tbl))
         /\ r = row_of_insert uuid now user (mediaItemToSupabase i).
Proof.
  induction items as [|x items IH]; intros [|[c|uuid now] rs] tbl r;
    cbn [inserted accepted]; try (intros H; left; exact H).
  - apply IH.
  - rewrite existsb_keys_item.
    destruct (existsb _ tbl); [apply IH|].
    intros H.
    destruct (IH rs (row_of_insert uuid now user (mediaItemToSupabase x) :: tbl)
                 r H) as [[<-|K]|[i [uuid' [now' [K E]]]]].
    + right. exists x, uuid, now. split; [left; reflexivity | reflexivity].
    + left. exact K.
    + right. exists i, uuid', now'. split; [right; exact K | exact E].
Qed.

Lemma in_partition_of (s : WatchStatus) (rows : list (Row.t * number))
    (x : MediaItem.t) :
  In x (partition_of s rows)
  <-> exists r id, In (r, id) rows /\ Row.status r = s /\ x = item_of_row id r.
Proof.
  unfold partition_of. rewrite in_map_iff. split.
  - intros [[r id] [E H]]. apply filter_In in H as [H S]. cbn in *.
    exists r, id. split; [exact H|].
    split; [apply WatchStatus_eqb_eq, S | congruence].
  - intros [r [id [H [S E]]]]. exists (r, id). cbn.
    split; [congruence|]. apply filter_In. split; [exact H|].
    apply WatchStatus_eqb_eq, S.
Qed.

Lemma in_spread_partitioning (rows : list (Row.t * number)) (x : MediaItem.t) :
  In x (spread (partitioning rows))
  <-> exists r id, In (r, id) rows /\ x = item_of_row id r.
Proof.
  unfold spread, partitioning. cbn [want_to_watch watching completed].
  rewrite !in_app_iff, !in_partition_of. split.
  - intros [[r [id [H [_ E]]]]|[[r [id [H [_ E]]]]|[r [id [H [_ E]]]]]]; eauto.
  - intros [r [id [H E]]].
    destruct (Row.status r) eqn:S;
      [left | right; left | right; right]; exists r, id; auto.
Qed.

Lemma in_combine_draws (tbl : list Row.t) (r : Row.t) : forall stream,
  In r tbl -> exists id, In (r, id) (combine tbl (draws (List.length tbl) stream)).
Proof.
  induction tbl as [|r0 tbl IH]; intros stream; [intros []|].
  intros [->|H].
  - destruct stream as [|x xs]; cbn; eauto.
  - destruct stream as [|x xs]; cbn [List.length draws combine].
    + destruct (IH [] H) as [id K]. exists id. right. exact K.
    + destruct (IH xs H) as [id K]. exists id. right. exact K.
Qed.



(** The scenario of the specification, evaluated: three guest items, the
    insert of the second rejected.  The migration returns 2 and the cache
    afterwards holds the first and the third item and not the second. *)
Example migration_scenario :
  fst (migrateGuestDataToSupabase migration_world) = Return 2
  /\ keys (local_cache (snd (migrateGuestDataToSupabase migration_world)))
     = [key_of fight_club; key_of inception]
  /\ ~ In (key_of breaking_bad)
         (keys (local_cache (snd (migrateGuestDataToSupabase migration_world)))).
Proof.
  cbn. split; [reflexivity|]. split; [reflexivity|].
  intros [E|[E|[]]]; discriminate E.
Qed.


(** * More of the media store *)

(** ** A call that reaches the cache *)

Lemma found_existsb {A : Type} (p : A -> bool) (l : list A) :
  match find p l with Some _ => true | None => false end = existsb p l.
Proof.
  induction l as [|a l IH]; [reflexivity|].
  cbn. destruct (p a); [reflexivity | exact IH].
Qed.

Lemma existsb_spread (p : MediaItem.t -> bool) (c : UserMediaStore) :
  existsb p (spread c)
  = existsb p (want_to_watch c) || existsb p (watching c)
    || existsb p (completed c).
Proof. unfold spread. rewrite !existsb_app, orb_assoc. reflexivity. Qed.

Lemma take_out_found (t : Z) (m : MediaType) (c : UserMediaStore) :
  match fst (take_out t m all_statuses c) with Some _ => true | None => false end
  = existsb (same_key t m) (spread c).
Proof.
  rewrite existsb_spread, <- !found_existsb. unfold all_statuses. cbn.
  destruct (find (same_key t m) (want_to_watch c)); [reflexivity|].
  destruct (find (same_key t m) (watching c)); [reflexivity|].
  destruct (find (same_key t m) (completed c)); reflexivity.
Qed.

(** Whatever the session, the cache half of a mutation returns, and with a
    storage that takes writes the collection read afterwards is the one the
    call computed; an event is dispatched exactly when a collection was
    stored in a browser. *)
Lemma cache_phase (o : Op) (w : World) :
  quotaExceeded w = false ->
  fst (exec_cache o w) = Return tt
  /\ local_cache (snd (exec_cache o w)) = apply_local (local_cache w) o
  /\ quotaExceeded (snd (exec_cache o w)) = false
  /\ hasWindow (snd (exec_cache o w)) = hasWindow w
  /\ currentUser (snd (exec_cache o w)) = currentUser w
  /\ supabase (snd (exec_cache o w)) = supabase w
  /\ dispatched (snd (exec_cache o w))
     = if hasWindow w && stores o (local_cache w)
       then S (dispatched w) else dispatched w.
Proof.
  destruct w as [cu hw es sl qe di co nr iso sb]; cbn; intros ->.
  destruct o as [item|tmdbId mediaType|tmdbId mediaType newStatus];
    unfold exec_cache, addToList_cache, removeFromList_cache, updateStatus_cache,
      stores, local_cache, apply_local, add_local, remove_local, change_local;
    unfold_m; cbn -[take_out spread].
  - destruct hw, sl; cbn -[spread];
      match goal with
      | |- context [existsb ?f ?l] => destruct (existsb f l)
      end; cbn; auto 8.
  - destruct hw, sl; cbn; auto 8.
  - destruct hw, sl; cbn -[take_out spread];
      rewrite <- ?take_out_found; unfold all_statuses;
      match goal with
      | |- context [take_out ?a ?b ?c ?d] =>
          destruct (take_out a b c d) as [[item|] c']
      end; cbn; auto 8.
Qed.

Lemma exec_guest_split (o : Op) (w : World) :
  currentUser w = None -> exec o w = exec_cache o w.
Proof.
  intros G.
  destruct o; unfold exec, exec_cache, addToList, removeFromList, updateStatus,
    isLoggedIn, read, bind at 1 2; rewrite G; reflexivity.
Qed.

Lemma exec_session_split (o : Op) (w : World) (u : string) :
  currentUser w = Some u ->
  exec o w
  = match exec_remote o w with
    | (Return _, w1) => exec_cache o w1
    | (Throw e, w1) =>
        (Throw e, set_console (console w1 ++ [remote_error_line o]) w1)
    end.
Proof.
  intros G.
  destruct o as [item|t m|t m ns]; unfold exec, exec_cache, exec_remote.
  - rewrite (addToList_session item w u G). unfold bind, ret.
    destruct (userMediaService.addUserMedia (mediaItemToSupabase item) w)
      as [[row|e] w1]; reflexivity.
  - unfold removeFromList, isLoggedIn, read, try_catch, bind at 1 2 3.
    rewrite G.
    destruct (userMediaService.removeUserMedia t m w) as [[[]|e] w1];
      reflexivity.
  - rewrite (updateStatus_session t m ns w u G). unfold bind, ret.
    destruct (userMediaService.updateMediaStatus t m ns w)
      as [[row|e] w1]; reflexivity.
Qed.

Lemma exec_remote_frame (o : Op) (w : World) :
  exists sb c, snd (exec_remote o w) = frame w sb c.
Proof.
  destruct o as [item|t m|t m ns]; unfold exec_remote.
  - destruct (addUserMedia_frame (mediaItemToSupabase item) w) as [sb [c E]].
    exists sb, c. unfold bind, ret.
    destruct (userMediaService.addUserMedia (mediaItemToSupabase item) w)
      as [[row|e] w1]; exact E.
  - apply removeUserMedia_frame.
  - destruct (updateUserMedia_frame t m (UpdStatus ns) w) as [sb [c E]].
    exists sb, c. unfold bind, ret.
    fold (userMediaService.updateMediaStatus t m ns) in E.
    destruct (userMediaService.updateMediaStatus t m ns w)
      as [[row|e] w1]; exact E.
Qed.

Lemma frame_quota (w : World) (sb : Supabase) (c : list Log) :
  quotaExceeded (frame w sb c) = quotaExceeded w
  /\ hasWindow (frame w sb c) = hasWindow w
  /\ dispatched (frame w sb c) = dispatched w.
Proof. destruct w; cbn; auto. Qed.

(** A mutation that returns has done to the cache what its cache half
    computes, guest or session. *)
Lemma exec_returns (o : Op) (w : World) :
  quotaExceeded w = false ->
  fst (exec o w) = Return tt ->
  local_cache (snd (exec o w)) = apply_local (local_cache w) o
  /\ dispatched (snd (exec o w))
     = if hasWindow w && stores o (local_cache w)
       then S (dispatched w) else dispatched w.
Proof.
  intros Q R.
  destruct (currentUser w) as [u|] eqn:G.
  - rewrite (exec_session_split o w u G) in *.
    destruct (exec_remote_frame o w) as [sb [c E]].
    destruct (exec_remote o w) as [[[]|e] w1]; cbn in E; subst w1;
      [|discriminate].
    destruct (frame_quota w sb c) as [Q' [W' D']].
    destruct (cache_phase o (frame w sb c)) as [_ [C [_ [_ [_ [_ D]]]]]];
      [congruence|].
    rewrite C, D, local_cache_frame, W', D'. auto.
  - rewrite (exec_guest_split o w G) in *.
    destruct (cache_phase o w Q) as [_ [C [_ [_ [_ [_ D]]]]]]. auto.
Qed.

(** ** The queries read the cache *)

Lemma getItemStatus_reads (t : Z) (m : MediaType) (w : World) :
  fst (getItemStatus t m w) = Return (status_in t m (local_cache w)).
Proof.
  destruct (getLocalStore_returns w) as [r [c [E _]]].
  unfold getItemStatus, bind, ret. rewrite E. reflexivity.
Qed.

Lemma isInList_reads (t : Z) (m : MediaType) (w : World) :
  fst (isInList t m w)
  = Return (existsb (same_key t m) (spread (local_cache w))).
Proof.
  destruct (getLocalStore_returns w) as [r [c [E _]]].
  unfold isInList, bind, ret. rewrite E. reflexivity.
Qed.

Lemma getAllItems_reads (w : World) :
  fst (getAllItems w) = Return (spread (local_cache w)).
Proof.
  destruct (getLocalStore_returns w) as [r [c [E _]]].
  unfold getAllItems, bind, ret. rewrite E. reflexivity.
Qed.

Lemma getGuestDataCount_reads (w : World) :
  fst (getGuestDataCount w) = Return (List.length (spread (local_cache w))).
Proof.
  destruct (getLocalStore_returns w) as [r [c [E _]]].
  unfold getGuestDataCount, bind, ret. rewrite E. cbn.
  unfold spread. rewrite !length_app, Nat.add_assoc. reflexivity.
Qed.

Lemma getProgress_reads (t : Z) (w : World) :
  fst (getProgress t tv w)
  = Return (find_progress t tv all_statuses (local_cache w)).
Proof.
  destruct (getLocalStore_returns w) as [r [c [E _]]].
  unfold getProgress, bind, ret. cbn [MediaType_eqb negb]. rewrite E.
  reflexivity.
Qed.

Lemma status_in_spec (t : Z) (m : MediaType) (c : UserMediaStore) :
  status_in t m c
  = if existsb (same_key t m) (want_to_watch c) then Some WantToWatch
    else if existsb (same_key t m) (watching c) then Some Watching
    else if existsb (same_key t m) (completed c) then Some Completed
    else None.
Proof.
  unfold status_in, all_statuses. cbn. rewrite !found_existsb. reflexivity.
Qed.

Lemma status_in_only (t : Z) (m : MediaType) (c : UserMediaStore)
    (ns : WatchStatus) :
  (forall s, existsb (same_key t m) (at_status s c) = WatchStatus_eqb s ns) ->
  status_in t m c = Some ns.
Proof.
  intros H. rewrite status_in_spec.
  pose proof (H WantToWatch) as A. pose proof (H Watching) as B.
  pose proof (H Completed) as C. cbn [at_status] in A, B, C.
  rewrite A, B, C.
  destruct ns; reflexivity.
Qed.

Lemma status_in_same (t : Z) (m : MediaType) (c c' : UserMediaStore) :
  (forall s, existsb (same_key t m) (at_status s c')
             = existsb (same_key t m) (at_status s c)) ->
  status_in t m c' = status_in t m c.
Proof.
  intros H. rewrite !status_in_spec.
  pose proof (H WantToWatch) as A. pose proof (H Watching) as B.
  pose proof (H Completed) as C. cbn [at_status] in A, B, C.
  rewrite A, B, C. reflexivity.
Qed.

Lemma status_in_none (t : Z) (m : MediaType) (c : UserMediaStore) :
  (forall s, existsb (same_key t m) (at_status s c) = false) ->
  status_in t m c = None.
Proof.
  intros H. rewrite status_in_spec.
  pose proof (H WantToWatch) as A. pose proof (H Watching) as B.
  pose proof (H Completed) as C. cbn [at_status] in A, B, C.
  rewrite A, B, C. reflexivity.
Qed.

(** ** Adding, then asking *)

Lemma absent_everywhere (t : Z) (m : MediaType) (c : UserMediaStore) :
  ~ In (t, m) (keys c) ->
  forall s, existsb (same_key t m) (at_status s c) = false.
Proof.
  intros N s. destruct (existsb (same_key t m) (at_status s c)) eqn:E;
    [|reflexivity].
  exfalso. apply N. apply existsb_same_key in E.
  apply in_map_iff in E as [x [K H]]. unfold keys. apply in_map_iff.
  exists x. split; [exact K | apply in_spread; eauto].
Qed.

Lemma absent_spread (t : Z) (m : MediaType) (c : UserMediaStore) :
  ~ In (t, m) (keys c) -> existsb (same_key t m) (spread c) = false.
Proof.
  intros N. destruct (existsb (same_key t m) (spread c)) eqn:E; [|reflexivity].
  apply existsb_same_key in E. contradiction.
Qed.

Lemma at_status_push (s s' : WatchStatus) (i : MediaItem.t) (c : UserMediaStore) :
  at_status s (push s' i c)
  = if WatchStatus_eqb s s' then at_status s c ++ [i] else at_status s c.
Proof.
  unfold push. rewrite at_status_set.
  destruct (WatchStatus_eqb s s') eqn:E; [|reflexivity].
  apply WatchStatus_eqb_eq in E. subst. reflexivity.
Qed.

Lemma existsb_push (p : MediaItem.t -> bool) (s s' : WatchStatus)
    (i : MediaItem.t) (c : UserMediaStore) :
  existsb p (at_status s (push s' i c))
  = existsb p (at_status s c) || (WatchStatus_eqb s s' && p i).
Proof.
  rewrite at_status_push. destruct (WatchStatus_eqb s s'); cbn.
  - rewrite existsb_app. cbn. rewrite orb_false_r. reflexivity.
  - rewrite orb_false_r. reflexivity.
Qed.

Lemma same_key_self (i : MediaItem.t) :
  same_key (MediaItem.tmdbId i) (MediaItem.mediaType i) i = true.
Proof. apply same_key_eq. reflexivity. Qed.

Lemma same_key_other (t : Z) (m : MediaType) (i : MediaItem.t) :
  (t, m) <> key_of i -> same_key t m i = false.
Proof. intros N. apply same_key_neq. congruence. Qed.

Lemma WatchStatus_eqb_refl (s : WatchStatus) : WatchStatus_eqb s s = true.
Proof. destruct s; reflexivity. Qed.

Lemma WatchStatus_eqb_neq (s s' : WatchStatus) :
  s <> s' -> WatchStatus_eqb s s' = false.
Proof.
  intros N. destruct (WatchStatus_eqb s s') eqn:E; [|reflexivity].
  apply WatchStatus_eqb_eq in E. contradiction.
Qed.

Lemma length_spread_push (s : WatchStatus) (i : MediaItem.t) (c : UserMediaStore) :
  List.length (spread (push s i c)) = S (List.length (spread c)).
Proof. rewrite (Permutation_length (spread_push s i c)). reflexivity. Qed.

(** X1. When [addToList] returns for an item whose key the collection does
    not hold (a guest call, or a session call whose insert was accepted),
    with a storage that takes writes: [getItemStatus] on the key gives the
    item's status and [isInList] gives true; the item is the new last
    element of the list its status names and the other two lists are
    untouched; the count of items grows by one; and the status of every
    other key is what it was. *)
Theorem addToList_then_queries (item : MediaItem.t) (w : World) :
  quotaExceeded w = false ->
  ~ In (key_of item) (keys (local_cache w)) ->
  fst (addToList item w) = Return tt ->
  let w' := snd (addToList item w) in
  fst (getItemStatus (MediaItem.tmdbId item) (MediaItem.mediaType item) w')
  = Return (Some (MediaItem.status item))
  /\ fst (isInList (MediaItem.tmdbId item) (MediaItem.mediaType item) w')
     = Return true
  /\ at_status (MediaItem.status item) (local_cache w')
     = at_status (MediaItem.status item) (local_cache w) ++ [item]
  /\ (forall s, s <> MediaItem.status item ->
        at_status s (local_cache w') = at_status s (local_cache w))
  /\ fst (getGuestDataCount w')
     = Return (S (List.length (spread (local_cache w))))
  /\ (forall t m, (t, m) <> key_of item ->
        fst (getItemStatus t m w') = fst (getItemStatus t m w)).
Proof.
  intros Q N R w'.
  destruct (exec_returns (AddItem item) w Q R) as [C _].
  change (exec (AddItem item) w) with (addToList item w) in C. fold w' in C.
  cbn [apply_local] in C. unfold add_local in C.
  pose proof (absent_spread _ _ _ N) as A. unfold key_of in A. cbn in A.
  rewrite A in C.
  rewrite !getItemStatus_reads, isInList_reads, getGuestDataCount_reads, C.
  split.
  - f_equal. apply status_in_only. intros s.
    rewrite existsb_push, (absent_everywhere _ _ _ N s), same_key_self.
    cbn. rewrite andb_true_r. reflexivity.
  - split.
    + f_equal. apply existsb_same_key.
      apply (Permutation_in _ (Permutation_sym
               (Permutation_map key_of (spread_push _ _ _)))).
      left. reflexivity.
    + split; [rewrite at_status_push, WatchStatus_eqb_refl; reflexivity|].
      split.
      * intros s D. rewrite at_status_push, WatchStatus_eqb_neq by exact D.
        reflexivity.
      * split; [rewrite length_spread_push; reflexivity|].
        intros t m D. rewrite !getItemStatus_reads, C. f_equal.
        apply status_in_same. intros s.
        rewrite existsb_push, (same_key_other _ _ _ D), andb_false_r, orb_false_r.
        reflexivity.
Qed.

Lemma addToList_then_queries_witness :
  quotaExceeded guest_world = false
  /\ ~ In (key_of breaking_bad) (keys (local_cache guest_world))
  /\ fst (addToList breaking_bad guest_world) = Return tt
  /\ fst (getItemStatus 1396 tv (snd (addToList breaking_bad guest_world)))
     = Return (Some Watching).
Proof.
  split; [reflexivity|].
  assert (N : ~ In (key_of breaking_bad) (keys (local_cache guest_world)))
    by (intros []).
  split; [exact N|]. split; [reflexivity|].
  exact (proj1 (addToList_then_queries breaking_bad guest_world
                  eq_refl N eq_refl)).
Defined.

(** ** Removing, then asking *)

Lemma existsb_without_same (t : Z) (m : MediaType) (l : list MediaItem.t) :
  existsb (same_key t m) (filter (fun i => negb (same_key t m i)) l) = false.
Proof.
  induction l as [|x l IH]; [reflexivity|].
  cbn. destruct (same_key t m x) eqn:E; cbn; [exact IH|].
  rewrite E. exact IH.
Qed.

Lemma existsb_without_other (t t' : Z) (m m' : MediaType) (l : list MediaItem.t) :
  (t', m') <> (t, m) ->
  existsb (same_key t' m') (filter (fun i => negb (same_key t m i)) l)
  = existsb (same_key t' m') l.
Proof.
  intros D. induction l as [|x l IH]; [reflexivity|].
  cbn. destruct (same_key t m x) eqn:E; cbn; rewrite IH; [|reflexivity].
  apply same_key_eq in E.
  rewrite (same_key_other t' m' x) by congruence. reflexivity.
Qed.

Lemma at_status_remove (s : WatchStatus) (t : Z) (m : MediaType)
    (c : UserMediaStore) :
  at_status s (remove_local t m c)
  = filter (fun i => negb (same_key t m i)) (at_status s c).
Proof. destruct s; reflexivity. Qed.

Lemma without_twice (t : Z) (m : MediaType) (l : list MediaItem.t) :
  filter (fun i => negb (same_key t m i))
         (filter (fun i => negb (same_key t m i)) l)
  = filter (fun i => negb (same_key t m i)) l.
Proof.
  induction l as [|x l IH]; [reflexivity|].
  cbn. destruct (same_key t m x) eqn:E; cbn; [exact IH|].
  rewrite E. cbn. rewrite IH. reflexivity.
Qed.

Lemma remove_local_twice (t : Z) (m : MediaType) (c : UserMediaStore) :
  remove_local t m (remove_local t m c) = remove_local t m c.
Proof. unfold remove_local. cbn. rewrite !without_twice. reflexivity. Qed.

(** X2. When [removeFromList] returns, with a storage that takes writes:
    every list is the old list without the items of that key, in the old
    order; [isInList] on the key gives false and [getItemStatus] gives null;
    the status of every other key is what it was; the collection is stored
    and the event dispatched in a browser even when no list held the key;
    and for a guest a second removal leaves the collection as the first
    left it. *)
Theorem removeFromList_then_queries (t : Z) (m : MediaType) (w : World) :
  quotaExceeded w = false ->
  fst (removeFromList t m w) = Return tt ->
  let w' := snd (removeFromList t m w) in
  (forall s, at_status s (local_cache w')
             = filter (fun i => negb (same_key t m i)) (at_status s (local_cache w)))
  /\ fst (isInList t m w') = Return false
  /\ fst (getItemStatus t m w') = Return None
  /\ (forall t' m', (t', m') <> (t, m) ->
        fst (getItemStatus t' m' w') = fst (getItemStatus t' m' w))
  /\ dispatched w' = (if hasWindow w then S (dispatched w) else dispatched w)
  /\ (currentUser w = None ->
      local_cache (snd (removeFromList t m w')) = local_cache w').
Proof.
  intros Q R w'.
  destruct (exec_returns (RemoveItem t m) w Q R) as [C D].
  change (exec (RemoveItem t m) w) with (removeFromList t m w) in C, D.
  fold w' in C, D. cbn [apply_local stores] in C, D.
  rewrite andb_true_r in D.
  split; [intros s; rewrite C; apply at_status_remove|].
  split.
  { rewrite isInList_reads, C, spread_remove, existsb_without_same.
    reflexivity. }
  split.
  { rewrite getItemStatus_reads, C. f_equal. apply status_in_none.
    intros s. rewrite at_status_remove. apply existsb_without_same. }
  split.
  { intros t' m' N. rewrite !getItemStatus_reads, C. f_equal.
    apply status_in_same. intros s. rewrite at_status_remove.
    apply existsb_without_other, N. }
  split; [exact D|].
  intros G.
  assert (G' : currentUser w' = None /\ quotaExceeded w' = false).
  { destruct (guest_exec (RemoveItem t m) w G Q) as [_ [A [B _]]]. auto. }
  destruct G' as [G' Q'].
  destruct (guest_exec (RemoveItem t m) w' G' Q') as [_ [_ [_ [_ E]]]].
  change (exec (RemoveItem t m) w') with (removeFromList t m w') in E.
  rewrite E, C. apply remove_local_twice.
Qed.

Lemma removeFromList_then_queries_witness :
  quotaExceeded (run [AddItem fight_club; AddItem inception] guest_world) = false
  /\ fst (removeFromList 550 movie
            (run [AddItem fight_club; AddItem inception] guest_world))
     = Return tt
  /\ fst (isInList 550 movie
            (snd (removeFromList 550 movie
                    (run [AddItem fight_club; AddItem inception] guest_world))))
     = Return false.
Proof.
  split; [reflexivity|]. split; [reflexivity|].
  exact (proj1 (proj2 (removeFromList_then_queries 550 movie
                  (run [AddItem fight_club; AddItem inception] guest_world)
                  eq_refl eq_refl))).
Defined.

(** ** Changing the status, then asking *)

Lemma without_absent (t : Z) (m : MediaType) (l : list MediaItem.t) :
  ~ In (t, m) (map key_of l) ->
  filter (fun i => negb (same_key t m i)) l = l.
Proof.
  intros N. apply forallb_filter_id, forallb_forall. intros x Hx.
  apply negb_true_iff, same_key_neq. intros E. apply N.
  rewrite <- E. apply in_map, Hx.
Qed.

Lemma change_local_lists (t : Z) (m : MediaType) (ns : WatchStatus)
    (c : UserMediaStore) :
  NoDup (keys c) -> In (t, m) (keys c) ->
  exists item,
    In item (spread c) /\ key_of item = (t, m)
    /\ forall s,
         at_status s (change_local t m ns c)
         = filter (fun i => negb (same_key t m i)) (at_status s c)
           ++ (if WatchStatus_eqb s ns
               then [MediaItem.set_status ns item] else []).
Proof.
  intros N P. unfold change_local.
  pose proof (take_out_spec t m all_statuses c) as H.
  destruct (take_out t m all_statuses c) as [[item|] c'] eqn:E.
  - destruct H as [s0 [F ->]]. destruct (find_some _ _ F) as [Hin Hk].
    apply same_key_eq in Hk.
    exists item. split; [apply in_spread; eauto|]. split; [exact Hk|].
    intros s. rewrite at_status_push, at_status_set.
    assert (X : WatchStatus_eqb s s0 = false ->
                filter (fun i => negb (same_key t m i)) (at_status s c)
                = at_status s c).
    { intros D. apply without_absent.
      apply (disjoint_lists s0 s c (t, m) N).
      - intros ->. rewrite WatchStatus_eqb_refl in D. discriminate.
      - rewrite <- Hk. apply in_map, Hin. }
    destruct (WatchStatus_eqb s ns), (WatchStatus_eqb s s0) eqn:D;
      try (apply WatchStatus_eqb_eq in D; subst s0);
      rewrite ?X, ?app_nil_r by reflexivity; reflexivity.
  - exfalso. destruct (take_out_none t m c c' E) as [_ A]. contradiction.
Qed.

Lemma length_change_local (t : Z) (m : MediaType) (ns : WatchStatus)
    (c : UserMediaStore) :
  NoDup (keys c) ->
  List.length (spread (change_local t m ns c)) = List.length (spread c).
Proof.
  intros N. unfold change_local.
  destruct (take_out t m all_statuses c) as [[item|] c'] eqn:E; [|reflexivity].
  destruct (take_out_some t m c c' item N E) as [_ [_ [P _]]].
  rewrite length_spread_push, (Permutation_length P). reflexivity.
Qed.

(** X3. When [updateStatus] returns for a key the collection holds, in a
    collection where no key occurs twice and with a storage that takes
    writes: it is a move.  Every list loses the item of that key, the item
    with only its [status] replaced becomes the last element of the new
    status's list, [getItemStatus] on the key gives the new status, the
    count of items is unchanged and so is the status of every other key. *)
Theorem updateStatus_then_queries (t : Z) (m : MediaType) (ns : WatchStatus)
    (w : World) :
  quotaExceeded w = false ->
  NoDup (keys (local_cache w)) ->
  In (t, m) (keys (local_cache w)) ->
  fst (updateStatus t m ns w) = Return tt ->
  let w' := snd (updateStatus t m ns w) in
  fst (getItemStatus t m w') = Return (Some ns)
  /\ (exists item,
        In item (spread (local_cache w)) /\ key_of item = (t, m)
        /\ forall s,
             at_status s (local_cache w')
             = filter (fun i => negb (same_key t m i)) (at_status s (local_cache w))
               ++ (if WatchStatus_eqb s ns
                   then [MediaItem.set_status ns item] else []))
  /\ fst (getGuestDataCount w') = fst (getGuestDataCount w)
  /\ (forall t' m', (t', m') <> (t, m) ->
        fst (getItemStatus t' m' w') = fst (getItemStatus t' m' w)).
Proof.
  intros Q N P R w'.
  destruct (exec_returns (ChangeStatus t m ns) w Q R) as [C _].
  change (exec (ChangeStatus t m ns) w) with (updateStatus t m ns w) in C.
  fold w' in C. cbn [apply_local] in C.
  destruct (change_local_lists t m ns _ N P) as [item [Hin [Hk L]]].
  assert (K : same_key t m (MediaItem.set_status ns item) = true).
  { apply same_key_eq. exact Hk. }
  split.
  { rewrite getItemStatus_reads, C. f_equal. apply status_in_only.
    intros s. rewrite L, existsb_app, existsb_without_same.
    destruct (WatchStatus_eqb s ns); cbn; rewrite ?K; reflexivity. }
  split.
  { exists item. split; [exact Hin|]. split; [exact Hk|].
    intros s. rewrite C. apply L. }
  split.
  { rewrite !getGuestDataCount_reads, C, length_change_local by exact N.
    reflexivity. }
  intros t' m' D. rewrite !getItemStatus_reads, C. f_equal.
  apply status_in_same. intros s.
  rewrite L, existsb_app, existsb_without_other by exact D.
  destruct (WatchStatus_eqb s ns); cbn; [|apply orb_false_r].
  rewrite (same_key_other t' m')
    by (change (key_of (MediaItem.set_status ns item)) with (key_of item);
        rewrite Hk; exact D).
  apply orb_false_r.
Qed.

Lemma updateStatus_then_queries_witness :
  quotaExceeded (run [AddItem fight_club; AddItem inception] guest_world) = false
  /\ NoDup (keys (local_cache
               (run [AddItem fight_club; AddItem inception] guest_world)))
  /\ In (550%Z, movie)
        (keys (local_cache
                 (run [AddItem fight_club; AddItem inception] guest_world)))
  /\ fst (updateStatus 550 movie Completed
            (run [AddItem fight_club; AddItem inception] guest_world))
     = Return tt
  /\ fst (getItemStatus 550 movie
            (snd (updateStatus 550 movie Completed
                    (run [AddItem fight_club; AddItem inception] guest_world))))
     = Return (Some Completed).
Proof.
  split; [reflexivity|].
  assert (N : NoDup (keys (local_cache
                 (run [AddItem fight_club; AddItem inception] guest_world)))).
  { cbn. constructor.
    - intros [E|[]]. discriminate E.
    - constructor; [intros [] | constructor]. }
  split; [exact N|].
  assert (P : In (550%Z, movie)
                (keys (local_cache
                   (run [AddItem fight_club; AddItem inception] guest_world))))
    by (left; reflexivity).
  split; [exact P|]. split; [reflexivity|].
  exact (proj1 (updateStatus_then_queries 550 movie Completed
                  (run [AddItem fight_club; AddItem inception] guest_world)
                  eq_refl N P eq_refl)).
Defined.

(** ** Progress of a series *)

Lemma updateProgress_guest (t se ep : Z) (w : World) :
  currentUser w = None ->
  updateProgress t tv se ep w = updateProgress_cache t tv se ep w.
Proof.
  intros G. unfold updateProgress, isLoggedIn, read. cbn [MediaType_eqb negb].
  unfold bind at 1 2. rewrite G. reflexivity.
Qed.

Lemma updateProgress_session (t se ep : Z) (w : World) (u : string) :
  currentUser w = Some u ->
  updateProgress t tv se ep w
  = match userMediaService.updateTVProgress t se ep w with
    | (Return _, w1) => updateProgress_cache t tv se ep w1
    | (Throw e, w1) =>
        (Throw e,
         set_console
           (console w1 ++ [LogError "Error updating progress in Supabase:"]) w1)
    end.
Proof.
  intros G. unfold updateProgress, isLoggedIn, read. cbn [MediaType_eqb negb].
  unfold try_catch, bind at 1 2 3 4. rewrite G.
  destruct (userMediaService.updateTVProgress t se ep w) as [[row|e] w1];
    reflexivity.
Qed.

Lemma mark_found (t : Z) (m : MediaType) (se ep : Z) (c : UserMediaStore) :
  fst (mark_progress t m se ep all_statuses c)
  = existsb (same_key t m) (spread c).
Proof.
  rewrite existsb_spread, <- !found_existsb. unfold all_statuses. cbn.
  destruct (find (same_key t m) (want_to_watch c)); [reflexivity|].
  destruct (find (same_key t m) (watching c)); [reflexivity|].
  destruct (find (same_key t m) (completed c)); reflexivity.
Qed.

Lemma mark_unfound (t : Z) (m : MediaType) (se ep : Z)
    (sts : list WatchStatus) (c : UserMediaStore) :
  fst (mark_progress t m se ep sts c) = false ->
  snd (mark_progress t m se ep sts c) = c.
Proof.
  induction sts as [|s sts IH]; cbn; [reflexivity|].
  destruct (find (same_key t m) (at_status s c)); [discriminate | exact IH].
Qed.

Lemma progress_cache_phase (t se ep : Z) (w : World) :
  quotaExceeded w = false ->
  fst (updateProgress_cache t tv se ep w) = Return tt
  /\ local_cache (snd (updateProgress_cache t tv se ep w))
     = progress_local t se ep (local_cache w)
  /\ dispatched (snd (updateProgress_cache t tv se ep w))
     = if hasWindow w && existsb (same_key t tv) (spread (local_cache w))
       then S (dispatched w) else dispatched w.
Proof.
  destruct w as [cu hw es sl qe di co nr iso sb]; cbn; intros ->.
  unfold updateProgress_cache, progress_local, local_cache; unfold_m;
    cbn -[mark_progress spread].
  destruct hw, sl; cbn -[mark_progress spread];
    rewrite <- ?(mark_found t tv se ep); unfold all_statuses;
    match goal with
    | |- context [mark_progress ?a ?b ?c ?d ?e ?f] =>
        pose proof (mark_unfound a b c d e f) as U;
        destruct (mark_progress a b c d e f) as [[|] c']
    end; cbn in *; rewrite ?U by reflexivity; auto.
Qed.

Lemma find_mark_first (t : Z) (m : MediaType) (se ep : Z)
    (l : list MediaItem.t) (x : MediaItem.t) :
  find (same_key t m) l = Some x ->
  find (same_key t m) (mark_first t m se ep l)
  = Some (MediaItem.set_progress se ep x).
Proof.
  induction l as [|a l IH]; cbn; [discriminate|].
  destruct (same_key t m a) eqn:E; cbn.
  - intros [= <-]. unfold same_key in *. cbn. rewrite E. reflexivity.
  - rewrite E. exact IH.
Qed.

Lemma existsb_mark_first (t t' : Z) (m m' : MediaType) (se ep : Z)
    (l : list MediaItem.t) :
  existsb (same_key t' m') (mark_first t m se ep l)
  = existsb (same_key t' m') l.
Proof.
  induction l as [|a l IH]; [reflexivity|].
  cbn. destruct (same_key t m a); cbn; [reflexivity|].
  rewrite IH. reflexivity.
Qed.

Lemma mark_first_related (t : Z) (m : MediaType) (se ep : Z)
    (l : list MediaItem.t) :
  Forall2 (fun x' x => x' = x \/ x' = MediaItem.set_progress se ep x)
          (mark_first t m se ep l) l.
Proof.
  induction l as [|a l IH]; cbn; [constructor|].
  destruct (same_key t m a).
  - constructor; [auto|]. clear IH.
    induction l; constructor; auto.
  - constructor; auto.
Qed.

Lemma unchanged_related (se ep : Z) (l : list MediaItem.t) :
  Forall2 (fun x' x => x' = x \/ x' = MediaItem.set_progress se ep x) l l.
Proof. induction l; constructor; auto. Qed.

Lemma progress_local_lists (t se ep : Z) (c : UserMediaStore) (s : WatchStatus) :
  Forall2 (fun x' x => x' = x \/ x' = MediaItem.set_progress se ep x)
          (at_status s (progress_local t se ep c)) (at_status s c)
  /\ forall t' m',
       existsb (same_key t' m') (at_status s (progress_local t se ep c))
       = existsb (same_key t' m') (at_status s c).
Proof.
  unfold progress_local, all_statuses. cbn [mark_progress].
  destruct (find (same_key t tv) (at_status WantToWatch c)).
  { cbn [snd]. rewrite at_status_set.
    destruct (WatchStatus_eqb s WantToWatch) eqn:E.
    - apply WatchStatus_eqb_eq in E. subst s.
      split; [apply mark_first_related | intros; apply existsb_mark_first].
    - split; [apply unchanged_related | reflexivity]. }
  destruct (find (same_key t tv) (at_status Watching c)).
  { cbn [snd]. rewrite at_status_set.
    destruct (WatchStatus_eqb s Watching) eqn:E.
    - apply WatchStatus_eqb_eq in E. subst s.
      split; [apply mark_first_related | intros; apply existsb_mark_first].
    - split; [apply unchanged_related | reflexivity]. }
  destruct (find (same_key t tv) (at_status Completed c)).
  { cbn [snd]. rewrite at_status_set.
    destruct (WatchStatus_eqb s Completed) eqn:E.
    - apply WatchStatus_eqb_eq in E. subst s.
      split; [apply mark_first_related | intros; apply existsb_mark_first].
    - split; [apply unchanged_related | reflexivity]. }
  cbn [snd]. split; [apply unchanged_related | reflexivity].
Qed.

Lemma progress_then_find (t se ep : Z) (c : UserMediaStore) :
  existsb (same_key t tv) (spread c) = true ->
  find_progress t tv all_statuses (progress_local t se ep c)
  = Some (mkProgress (Val se) (Val ep)).
Proof.
  rewrite existsb_spread, <- !found_existsb.
  unfold progress_local, all_statuses. cbn [mark_progress find_progress].
  change (want_to_watch c) with (at_status WantToWatch c).
  change (watching c) with (at_status Watching c).
  change (completed c) with (at_status Completed c).
  destruct (find (same_key t tv) (at_status WantToWatch c)) as [x|] eqn:A.
  { intros _. cbn [snd]. rewrite at_status_set. cbn [WatchStatus_eqb].
    rewrite (find_mark_first _ _ _ _ _ _ A). reflexivity. }
  destruct (find (same_key t tv) (at_status Watching c)) as [y|] eqn:B.
  { intros _. cbn [snd]. rewrite !at_status_set. cbn [WatchStatus_eqb].
    rewrite A, (find_mark_first _ _ _ _ _ _ B). reflexivity. }
  destruct (find (same_key t tv) (at_status Completed c)) as [z|] eqn:D.
  { intros _. cbn [snd]. rewrite !at_status_set. cbn [WatchStatus_eqb].
    rewrite A, B, (find_mark_first _ _ _ _ _ _ D). reflexivity. }
  discriminate.
Qed.

Lemma progress_local_absent (t se ep : Z) (c : UserMediaStore) :
  existsb (same_key t tv) (spread c) = false ->
  progress_local t se ep c = c.
Proof.
  rewrite existsb_spread, <- !found_existsb.
  unfold progress_local, all_statuses. cbn [mark_progress at_status].
  destruct (find (same_key t tv) (want_to_watch c)); [discriminate|].
  destruct (find (same_key t tv) (watching c)); [discriminate|].
  destruct (find (same_key t tv) (completed c)); [discriminate|].
  reflexivity.
Qed.

Lemma updateProgress_returns (t se ep : Z) (w : World) :
  quotaExceeded w = false ->
  fst (updateProgress t tv se ep w) = Return tt ->
  local_cache (snd (updateProgress t tv se ep w))
  = progress_local t se ep (local_cache w)
  /\ dispatched (snd (updateProgress t tv se ep w))
     = if hasWindow w && existsb (same_key t tv) (spread (local_cache w))
       then S (dispatched w) else dispatched w.
Proof.
  intros Q R.
  destruct (currentUser w) as [u|] eqn:G.
  - rewrite (updateProgress_session t se ep w u G) in *.
    destruct (updateUserMedia_frame t tv (UpdProgress se ep) w) as [sb [c E]].
    fold (userMediaService.updateTVProgress t se ep) in E.
    destruct (userMediaService.updateTVProgress t se ep w) as [[row|e] w1];
      cbn in E; subst w1; [|discriminate].
    destruct (frame_quota w sb c) as [Q' [W' D']].
    destruct (progress_cache_phase t se ep (frame w sb c)) as [_ [C D]];
      [congruence|].
    rewrite C, D, local_cache_frame, W', D'. auto.
  - rewrite (updateProgress_guest t se ep w G) in *.
    destruct (progress_cache_phase t se ep w Q) as [_ [C D]]. auto.
Qed.

(** X4. When [updateProgress] returns for a series the collection holds,
    with a storage that takes writes: [getProgress] on the key gives the
    season and episode just written; every list keeps its length and order,
    each item being the old item or the old item with those two fields set;
    and [getItemStatus] answers for every key what it answered before. *)
Theorem updateProgress_then_getProgress (t se ep : Z) (w : World) :
  quotaExceeded w = false ->
  In (t, tv) (keys (local_cache w)) ->
  fst (updateProgress t tv se ep w) = Return tt ->
  let w' := snd (updateProgress t tv se ep w) in
  fst (getProgress t tv w') = Return (Some (mkProgress (Val se) (Val ep)))
  /\ (forall s,
        Forall2 (fun x' x => x' = x \/ x' = MediaItem.set_progress se ep x)
                (at_status s (local_cache w')) (at_status s (local_cache w)))
  /\ (forall t' m', fst (getItemStatus t' m' w') = fst (getItemStatus t' m' w)).
Proof.
  intros Q P R w'.
  destruct (updateProgress_returns t se ep w Q R) as [C _]. fold w' in C.
  apply existsb_same_key in P.
  split; [rewrite getProgress_reads, C, progress_then_find by exact P;
          reflexivity|].
  split; [intros s; rewrite C; apply progress_local_lists|].
  intros t' m'. rewrite !getItemStatus_reads, C. f_equal.
  apply status_in_same. intros s. apply progress_local_lists.
Qed.

Lemma updateProgress_then_getProgress_witness :
  quotaExceeded (run [AddItem breaking_bad] guest_world) = false
  /\ In (1396%Z, tv) (keys (local_cache (run [AddItem breaking_bad] guest_world)))
  /\ fst (updateProgress 1396 tv 2 5 (run [AddItem breaking_bad] guest_world))
     = Return tt
  /\ fst (getProgress 1396 tv
            (snd (updateProgress 1396 tv 2 5
                    (run [AddItem breaking_bad] guest_world))))
     = Return (Some (mkProgress (Val 2%Z) (Val 5%Z))).
Proof.
  split; [reflexivity|].
  assert (P : In (1396%Z, tv)
                (keys (local_cache (run [AddItem breaking_bad] guest_world))))
    by (left; reflexivity).
  split; [exact P|]. split; [reflexivity|].
  exact (proj1 (updateProgress_then_getProgress 1396 2 5
                  (run [AddItem breaking_bad] guest_world) eq_refl P eq_refl)).
Defined.

(** X5. [updateProgress] on a series the collection does not hold, when it
    returns: the cache is untouched, nothing is stored and no event is
    dispatched; for a guest it always returns, no request is made, and the
    last console line is the warning that the item was not found. *)
Theorem updateProgress_absent (t se ep : Z) (w : World) :
  ~ In (t, tv) (keys (local_cache w)) ->
  (fst (updateProgress t tv se ep w) = Return tt ->
   local_unchanged w (snd (updateProgress t tv se ep w)))
  /\ (currentUser w = None ->
      fst (updateProgress t tv se ep w) = Return tt
      /\ supabase (snd (updateProgress t tv se ep w)) = supabase w
      /\ exists l, console (snd (updateProgress t tv se ep w))
                   = console w ++ l
                     ++ [LogWarn "Item not found for progress update"]).
Proof.
  intros N.
  assert (X : forall w0, local_cache w0 = local_cache w ->
     exists l, updateProgress_cache t tv se ep w0
               = (Return tt,
                  set_console (console w0 ++ l
                     ++ [LogWarn "Item not found for progress update"]) w0)).
  { intros w0 E0. pose proof (absent_spread _ _ _ N) as A. rewrite <- E0 in A.
    rewrite <- (mark_found t tv se ep) in A. clear E0. revert A.
    destruct w0 as [cu hw es sl qe di co nr iso sb].
    unfold updateProgress_cache, local_cache; unfold_m; cbn -[mark_progress].
    destruct hw, sl; cbn -[mark_progress]; unfold all_statuses;
      match goal with
      | |- context [mark_progress ?a ?b ?c ?d ?e ?f] =>
          destruct (mark_progress a b c d e f) as [[|] c']
      end; cbn; intros A; try discriminate A;
      try (exists []; reflexivity);
      (exists [LogError "Error reading from localStorage:"]);
      unfold set_console; cbn; rewrite <- app_assoc; reflexivity. }
  split.
  - intros R. destruct (currentUser w) as [u|] eqn:G.
    + rewrite (updateProgress_session t se ep w u G) in *.
      destruct (updateUserMedia_frame t tv (UpdProgress se ep) w) as [sb [c E]].
      fold (userMediaService.updateTVProgress t se ep) in E.
      destruct (userMediaService.updateTVProgress t se ep w) as [[row|e] w1];
        cbn in E; subst w1; [|discriminate].
      destruct (X (frame w sb c) (local_cache_frame w sb c)) as [l ->].
      cbn [snd]. eapply local_unchanged_trans;
        [apply local_unchanged_frame | apply local_unchanged_warn].
    + rewrite (updateProgress_guest t se ep w G).
      destruct (X w eq_refl) as [l ->]. apply local_unchanged_warn.
  - intros G. rewrite (updateProgress_guest t se ep w G).
    destruct (X w eq_refl) as [l ->]. cbn [fst snd].
    split; [reflexivity|]. split; [destruct w; reflexivity|].
    exists l. destruct w; reflexivity.
Qed.

Lemma updateProgress_absent_witness :
  ~ In (1396%Z, tv) (keys (local_cache (run [AddItem fight_club] guest_world)))
  /\ currentUser (run [AddItem fight_club] guest_world) = None
  /\ fst (updateProgress 1396 tv 1 1 (run [AddItem fight_club] guest_world))
     = Return tt.
Proof.
  assert (N : ~ In (1396%Z, tv)
                (keys (local_cache (run [AddItem fight_club] guest_world)))).
  { cbn. intros [E|[]]. discriminate E. }
  split; [exact N|]. split; [reflexivity|].
  exact (proj1 (proj2 (updateProgress_absent 1396 1 1
                  (run [AddItem fight_club] guest_world) N) eq_refl)).
Defined.

(** X6. In a session, when the remote call of [removeFromList],
    [updateStatus] or [updateProgress] (on a series) throws, the mutation
    throws the same error to its caller and the cache is untouched: nothing
    is stored and no event is dispatched. *)
Theorem remote_failure_leaves_cache (w : World) (u : string) (e : Exn) :
  currentUser w = Some u ->
  (forall t m,
     fst (userMediaService.removeUserMedia t m w) = Throw e ->
     fst (removeFromList t m w) = Throw e
     /\ local_unchanged w (snd (removeFromList t m w)))
  /\ (forall t m ns,
        fst (userMediaService.updateMediaStatus t m ns w) = Throw e ->
        fst (updateStatus t m ns w) = Throw e
        /\ local_unchanged w (snd (updateStatus t m ns w)))
  /\ (forall t se ep,
        fst (userMediaService.updateTVProgress t se ep w) = Throw e ->
        fst (updateProgress t tv se ep w) = Throw e
        /\ local_unchanged w (snd (updateProgress t tv se ep w))).
Proof.
  intros G.
  assert (L : forall sb c c', local_unchanged w (set_console c' (frame w sb c))).
  { intros sb c c'. exact (local_unchanged_frame w sb c'). }
  split; [|split].
  - intros t m H.
    change (removeFromList t m w) with (exec (RemoveItem t m) w).
    rewrite (exec_session_split _ w u G). unfold exec_remote.
    destruct (removeUserMedia_frame t m w) as [sb [c E]].
    destruct (userMediaService.removeUserMedia t m w) as [[[]|e'] w1];
      cbn in H, E; [discriminate|].
    injection H as ->. subst w1. cbn [fst snd]. split; [reflexivity | apply L].
  - intros t m ns H. rewrite (updateStatus_session t m ns w u G).
    destruct (updateUserMedia_frame t m (UpdStatus ns) w) as [sb [c E]].
    fold (userMediaService.updateMediaStatus t m ns) in E.
    destruct (userMediaService.updateMediaStatus t m ns w) as [[row|e'] w1];
      cbn in H, E; [discriminate|].
    injection H as ->. subst w1. cbn [fst snd]. split; [reflexivity | apply L].
  - intros t se ep H. rewrite (updateProgress_session t se ep w u G).
    destruct (updateUserMedia_frame t tv (UpdProgress se ep) w) as [sb [c E]].
    fold (userMediaService.updateTVProgress t se ep) in E.
    destruct (userMediaService.updateTVProgress t se ep w) as [[row|e'] w1];
      cbn in H, E; [discriminate|].
    injection H as ->. subst w1. cbn [fst snd]. split; [reflexivity | apply L].
Qed.

Lemma remote_failure_leaves_cache_witness :
  currentUser (session_world three_guest_items [] [Reject "503"] [])
  = Some "user-1"
  /\ fst (userMediaService.removeUserMedia 550 movie
            (session_world three_guest_items [] [Reject "503"] []))
     = Throw (PostgrestError "503")
  /\ fst (removeFromList 550 movie
            (session_world three_guest_items [] [Reject "503"] []))
     = Throw (PostgrestError "503").
Proof.
  split; [reflexivity|]. split; [reflexivity|].
  exact (proj1 (proj1 (remote_failure_leaves_cache
                  (session_world three_guest_items [] [Reject "503"] [])
                  "user-1" (PostgrestError "503") eq_refl) 550%Z movie eq_refl)).
Defined.

(** ** The two membership queries *)

(** X7. [isInList] and [getItemStatus] agree: one answers true exactly when
    the other answers a status.  The status answered names a list that holds
    the key, no answer means no list holds it, and in a collection where no
    key occurs twice the answer is the one list that holds the key. *)
Theorem queries_agree (t : Z) (m : MediaType) (w : World) :
  (fst (isInList t m w) = Return true
   <-> exists s, fst (getItemStatus t m w) = Return (Some s))
  /\ (forall s, fst (getItemStatus t m w) = Return (Some s) ->
        In (t, m) (map key_of (at_status s (local_cache w))))
  /\ (fst (getItemStatus t m w) = Return None ->
      ~ In (t, m) (keys (local_cache w)))
  /\ (NoDup (keys (local_cache w)) ->
      forall s, In (t, m) (map key_of (at_status s (local_cache w))) ->
                fst (getItemStatus t m w) = Return (Some s)).
Proof.
  rewrite isInList_reads, getItemStatus_reads.
  set (c := local_cache w).
  assert (S : forall s, status_in t m c = Some s ->
                        existsb (same_key t m) (at_status s c) = true).
  { intros s. rewrite status_in_spec.
    destruct (existsb (same_key t m) (want_to_watch c)) eqn:A;
      [intros [= <-]; exact A|].
    destruct (existsb (same_key t m) (watching c)) eqn:B;
      [intros [= <-]; exact B|].
    destruct (existsb (same_key t m) (completed c)) eqn:D;
      [intros [= <-]; exact D | discriminate]. }
  split.
  { rewrite existsb_spread, status_in_spec. split.
    - intros [= H].
      destruct (existsb (same_key t m) (want_to_watch c)); [eauto|].
      destruct (existsb (same_key t m) (watching c)); [eauto|].
      destruct (existsb (same_key t m) (completed c)); [eauto | discriminate].
    - intros [s [= H]].
      destruct (existsb (same_key t m) (want_to_watch c)); [reflexivity|].
      destruct (existsb (same_key t m) (watching c)); [reflexivity|].
      destruct (existsb (same_key t m) (completed c));
        [reflexivity | discriminate]. }
  split.
  { intros s [= H]. apply existsb_same_key, S, H. }
  split.
  { intros [= H] P. apply existsb_same_key in P.
    rewrite existsb_spread in P. rewrite status_in_spec in H.
    destruct (existsb (same_key t m) (want_to_watch c)); [discriminate|].
    destruct (existsb (same_key t m) (watching c)); [discriminate|].
    destruct (existsb (same_key t m) (completed c)); discriminate. }
  intros N s P. f_equal. apply status_in_only. intros s'.
  destruct (WatchStatus_eqb s' s) eqn:E.
  - apply WatchStatus_eqb_eq in E. subst s'. apply existsb_same_key, P.
  - destruct (existsb (same_key t m) (at_status s' c)) eqn:X; [|reflexivity].
    exfalso. apply existsb_same_key in X.
    apply (disjoint_lists s s' c (t, m) N); try assumption.
    intros ->. rewrite WatchStatus_eqb_refl in E. discriminate.
Qed.

(** ** What never throws *)

Lemma saveLocalStore_returns (st : UserMediaStore) (w : World) :
  fst (saveLocalStore st w) = Return tt.
Proof.
  destruct w as [cu hw es sl qe di co nr iso sb]. unfold_m. cbn.
  destruct hw, qe; reflexivity.
Qed.

Lemma loadFromSupabase_returns (w : World) :
  fst (loadFromSupabase w) = Return tt.
Proof.
  destruct w as [cu hw es sl qe di co nr iso [au tbl rp cl]].
  unfold loadFromSupabase. unfold_m. unfold_service. cbn -[forEach_row].
  destruct cu; cbn -[forEach_row]; [|reflexivity].
  destruct rp as [|[c|uuid now] rp]; cbn -[forEach_row]; try reflexivity.
  rewrite forEach_row_spec. cbn. destruct hw, qe; reflexivity.
Qed.

(** X8. With a stored payload that is out of reach, missing, blank,
    unparsable or a collection (the only payload the program writes),
    nothing in the cache layer throws: [saveLocalStore], [clearLocalCache],
    [loadFromSupabase] and the queries return, inside or outside a browser,
    whether or not the storage takes writes, and whatever the session and
    the hosted table are.  (A payload that parses to something that is no
    collection is not covered: see [Slot].) *)
Theorem cache_layer_never_throws (w : World) :
  (forall st, fst (saveLocalStore st w) = Return tt)
  /\ fst (clearLocalCache w) = Return tt
  /\ fst (loadFromSupabase w) = Return tt
  /\ (exists l, fst (getAllItems w) = Return l)
  /\ (exists n, fst (getGuestDataCount w) = Return n)
  /\ (forall s, exists l, fst (getByStatus s w) = Return l)
  /\ (forall t m, exists b, fst (isInList t m w) = Return b)
  /\ (forall t m, exists r, fst (getItemStatus t m w) = Return r)
  /\ (forall t m, exists r, fst (getProgress t m w) = Return r).
Proof.
  split; [intros st; apply saveLocalStore_returns|].
  split.
  { unfold clearLocalCache, read, bind. apply saveLocalStore_returns. }
  split; [apply loadFromSupabase_returns|].
  split; [rewrite getAllItems_reads; eauto|].
  split; [rewrite getGuestDataCount_reads; eauto|].
  split; [intros s; rewrite getByStatus_reads; eauto|].
  split; [intros t m; rewrite isInList_reads; eauto|].
  split; [intros t m; rewrite getItemStatus_reads; eauto|].
  intros t [|]; [|rewrite getProgress_reads; eauto].
  exists None. reflexivity.
Qed.

(** X9. Without a session, and with a stored payload that is out of reach,
    missing, blank, unparsable or a collection (the only payload the program
    writes), the four mutations return normally and make no request, also
    when the storage refuses the writes.  (A payload that parses to
    something that is no collection is not covered: see [Slot].) *)
Theorem guest_calls_never_throw (w : World) :
  currentUser w = None ->
  (forall o, fst (exec o w) = Return tt
             /\ supabase (snd (exec o w)) = supabase w)
  /\ (forall t m se ep,
        fst (updateProgress t m se ep w) = Return tt
        /\ supabase (snd (updateProgress t m se ep w)) = supabase w).
Proof.
  destruct w as [cu hw es sl qe di co nr iso sb]; cbn; intros ->.
  split.
  - intros o.
    destruct o as [item|tmdbId mediaType|tmdbId mediaType newStatus];
      unfold exec; unfold_m; cbn -[take_out spread].
    + destruct hw, sl, qe; cbn -[spread];
        match goal with
        | |- context [existsb ?f ?l] => destruct (existsb f l)
        end; cbn; auto.
    + destruct hw, sl, qe; cbn; auto.
    + destruct hw, sl, qe; cbn -[take_out];
        match goal with
        | |- context [take_out ?a ?b ?c ?d] =>
            destruct (take_out a b c d) as [[item|] c']
        end; cbn; auto.
  - intros t m se ep. destruct m; [cbn; auto|].
    unfold updateProgress; unfold_m; cbn -[mark_progress].
    destruct hw, sl, qe; cbn -[mark_progress];
      match goal with
      | |- context [mark_progress ?a ?b ?c ?d ?e ?f] =>
          destruct (mark_progress a b c d e f) as [[|] c']
      end; cbn; auto.
Qed.

Lemma guest_calls_never_throw_witness :
  currentUser full_storage_world = None
  /\ fst (exec (AddItem fight_club) full_storage_world) = Return tt.
Proof.
  split; [reflexivity|].
  exact (proj1 (proj1 (guest_calls_never_throw full_storage_world eq_refl)
                  (AddItem fight_club))).
Defined.

(** ** Writing the cache and reading it back *)

(** X10. In a browser whose storage takes the write, what [saveLocalStore]
    stores is what the next [getLocalStore] returns, as a new object and not
    the shared [emptyStore], and one event is dispatched; outside a browser
    or when the write is refused the call still returns, and the payload,
    the collection read back and the event count are what they were.
    [clearLocalCache] stores the [emptyStore] object: the collection read
    after it is what that object holds. *)
Theorem saveLocalStore_round_trip (st : UserMediaStore) (w : World) :
  (hasWindow w = true -> quotaExceeded w = false ->
   fst (getLocalStore (snd (saveLocalStore st w))) = Return (Parsed, st)
   /\ dispatched (snd (saveLocalStore st w)) = S (dispatched w)
   /\ emptyStore (snd (saveLocalStore st w)) = emptyStore w)
  /\ (hasWindow w = false \/ quotaExceeded w = true ->
      fst (saveLocalStore st w) = Return tt
      /\ local_unchanged w (snd (saveLocalStore st w)))
  /\ (hasWindow w = true -> quotaExceeded w = false ->
      local_cache (snd (clearLocalCache w)) = emptyStore w
      /\ dispatched (snd (clearLocalCache w)) = S (dispatched w)).
Proof.
  destruct w as [cu hw es sl qe di co nr iso sb].
  unfold local_unchanged, local_cache, clearLocalCache. unfold_m. cbn.
  split; [intros -> ->; cbn; auto|].
  split; [|intros -> ->; cbn; auto].
  intros [->| ->]; cbn.
  - repeat split; reflexivity.
  - destruct hw; cbn; [destruct sl|]; cbn; repeat split; reflexivity.
Qed.

Lemma saveLocalStore_round_trip_witness :
  hasWindow guest_world = true
  /\ quotaExceeded guest_world = false
  /\ fst (getLocalStore (snd (saveLocalStore three_guest_items guest_world)))
     = Return (Parsed, three_guest_items).
Proof.
  split; [reflexivity|]. split; [reflexivity|].
  exact (proj1 (proj1 (saveLocalStore_round_trip three_guest_items guest_world)
                  eq_refl eq_refl)).
Defined.

(** ** From an item to a row and back *)

Lemma row_columns_kept (id : number) (row : Row.t) (uuid now user : string) :
  row_of_insert uuid now user (mediaItemToSupabase (item_of_row id row))
  = Row.mk uuid user (Row.tmdb_id row) (Row.media_type row) (Row.status row)
      (Row.current_season row) (Row.current_episode row) (Row.title row)
      (Row.poster_path row) (Row.release_year row) (Row.rating row)
      (Row.overview row) (Row.runtime row) (Row.number_of_seasons row)
      (Row.number_of_episodes row) now now.
Proof.
  destruct row as [i us t mt st cs ce ti pp ry ra ov ru ns ne ca ua].
  unfold item_of_row, row_of_insert, mediaItemToSupabase. cbn.
  destruct cs, ce, ov, ru, ns, ne; reflexivity.
Qed.

(** X11. In a session, an item added to an account that has no row for its
    key comes back from the next hydration: the insert is accepted, the
    table gains the row, and after [loadFromSupabase] the list the item's
    status names holds that item as the table returns it, with the same key, title, poster, year, rating and status, a new local [id], the
    server's timestamp as [addedAt], and [null] where the item had left an
    optional field out.  A row turned into an item and sent back keeps all
    its columns. *)
Theorem addToList_then_hydrate (item : MediaItem.t) (w : World)
    (u uid uuid now uuid' now' : string) (rest : list Reply) :
  currentUser w = Some u ->
  authUser (supabase w) = Some uid ->
  hasWindow w = true ->
  quotaExceeded w = false ->
  replies (supabase w) = Accept uuid now :: Accept uuid' now' :: rest ->
  existsb (Row.has_key (MediaItem.tmdbId item) (MediaItem.mediaType item))
          (user_media (supabase w)) = false ->
  let w1 := snd (addToList item w) in
  let w2 := snd (loadFromSupabase w1) in
  fst (addToList item w) = Return tt
  /\ user_media (supabase w1)
     = row_of_insert uuid now uid (mediaItemToSupabase item)
       :: user_media (supabase w)
  /\ (exists id,
        In (as_hydrated id now item)
           (at_status (MediaItem.status item) (local_cache w2)))
  /\ fst (isInList (MediaItem.tmdbId item) (MediaItem.mediaType item) w2)
     = Return true
  /\ (forall id row uuid0 now0 user0,
        row_of_insert uuid0 now0 user0
          (mediaItemToSupabase (item_of_row id row))
        = Row.mk uuid0 user0 (Row.tmdb_id row) (Row.media_type row)
            (Row.status row) (Row.current_season row) (Row.current_episode row)
            (Row.title row) (Row.poster_path row) (Row.release_year row)
            (Row.rating row) (Row.overview row) (Row.runtime row)
            (Row.number_of_seasons row) (Row.number_of_episodes row)
            now0 now0).
Proof.
  intros G A W Q Rp X w1 w2.
  set (row := row_of_insert uuid now uid (mediaItemToSupabase item)).
  assert (E : exists c,
            userMediaService.addUserMedia (mediaItemToSupabase item) w
            = (Return row,
               frame w (mkSupabase (Some uid) (row :: user_media (supabase w))
                          (Accept uuid' now' :: rest)
                          (calls (supabase w)
                           ++ [AddUserMedia (mediaItemToSupabase item)])) c)).
  { clear w1 w2. subst row.
    destruct w as [cu hw es sl qe di co nr iso [au tbl rp cl]].
    cbn in G, A, W, Q, Rp, X. subst cu au hw qe rp.
    unfold_service. cbn. rewrite X. cbn. exists co. reflexivity. }
  destruct E as [c E].
  pose proof (addToList_session item w u G) as S1. rewrite E in S1.
  destruct (frame_quota w (mkSupabase (Some uid) (row :: user_media (supabase w))
                             (Accept uuid' now' :: rest)
                             (calls (supabase w)
                              ++ [AddUserMedia (mediaItemToSupabase item)])) c)
    as [Q' [W' _]].
  match type of S1 with
  | _ = addToList_cache item ?x =>
      destruct (cache_phase (AddItem item) x) as [R1 [_ [Q1 [W1 [G1 [B1 _]]]]]];
        [congruence|]
  end.
  cbn [exec_cache] in R1, Q1, W1, G1, B1. rewrite <- S1 in R1, Q1, W1, G1, B1.
  fold w1 in R1, Q1, W1, G1, B1.
  assert (B2 : supabase w1
               = mkSupabase (Some uid) (row :: user_media (supabase w))
                   (Accept uuid' now' :: rest)
                   (calls (supabase w)
                    ++ [AddUserMedia (mediaItemToSupabase item)])).
  { rewrite B1. destruct w; reflexivity. }
  assert (G2 : currentUser w1 = Some u).
  { rewrite G1. destruct w; cbn in *; exact G. }
  rewrite W', W in W1.
  split; [exact R1|]. split; [rewrite B2; reflexivity|].
  assert (C2 : local_cache w2
               = partitioning
                   (combine (row :: user_media (supabase w))
                      (draws (S (List.length (user_media (supabase w))))
                             (nowRandom w1)))).
  { subst w2. clearbody w1.
    destruct w1 as [cu1 hw1 es1 sl1 qe1 di1 co1 nr1 iso1 sb1].
    cbn in Q1, W1, G2, B2. subst cu1 hw1 qe1 sb1.
    rewrite loadFromSupabase_success. reflexivity. }
  assert (H : exists id ids,
            draws (S (List.length (user_media (supabase w)))) (nowRandom w1)
            = id :: ids).
  { cbn [draws]. destruct (nowRandom w1); eauto. }
  destruct H as [id [ids H]]. rewrite H in C2. cbn [combine] in C2.
  split.
  { exists id. rewrite C2.
    assert (Y : forall s, at_status s (partitioning
                  ((row, id) :: combine (user_media (supabase w)) ids))
                = partition_of s ((row, id)
                     :: combine (user_media (supabase w)) ids))
      by (intros []; reflexivity).
    rewrite Y, partition_of_cons.
    change (Row.status row) with (MediaItem.status item).
    rewrite WatchStatus_eqb_refl. subst row. rewrite hydrated_item.
    left. reflexivity. }
  split; [|intros; apply row_columns_kept].
  rewrite isInList_reads, C2. f_equal. apply existsb_same_key.
  fold (key_of item). apply in_keys_partitioning. cbn. left. reflexivity.
Qed.

Lemma addToList_then_hydrate_witness :
  currentUser (session_world empty []
                 [Accept "a1" "2024-01-05T10:00:01.000Z";
                  Accept "f0" "2024-01-05T10:00:09.000Z"] [])
  = Some "user-1"
  /\ fst (isInList 1396 tv
            (snd (loadFromSupabase
               (snd (addToList breaking_bad
                  (session_world empty []
                     [Accept "a1" "2024-01-05T10:00:01.000Z";
                      Accept "f0" "2024-01-05T10:00:09.000Z"] []))))))
     = Return true.
Proof.
  split; [reflexivity|].
  exact (proj1 (proj2 (proj2 (proj2
           (addToList_then_hydrate breaking_bad
              (session_world empty []
                 [Accept "a1" "2024-01-05T10:00:01.000Z";
                  Accept "f0" "2024-01-05T10:00:09.000Z"] [])
              "user-1" "user-1" "a1" "2024-01-05T10:00:01.000Z"
              "f0" "2024-01-05T10:00:09.000Z" []
              eq_refl eq_refl eq_refl eq_refl eq_refl eq_refl))))).
Defined.

(** ** The year of a card *)


Lemma before_dash_append (y rest : string) :
  has_dash y = false -> before_dash (y ++ String "-"%char rest)%string = y.
Proof.
  induction y as [|c y IH]; cbn; [reflexivity|].
  destruct (Ascii.eqb c "-"%char); cbn; [discriminate|].
  intros H. rewrite IH by exact H. reflexivity.
Qed.

Lemma has_dash_before (s : string) : has_dash (before_dash s) = false.
Proof.
  induction s as [|c s IH]; cbn; [reflexivity|].
  destruct (Ascii.eqb c "-"%char) eqn:E; cbn; [reflexivity|].
  rewrite E. exact IH.
Qed.

Lemma before_dash_prefix (s : string) :
  exists rest, s = (before_dash s ++ rest)%string.
Proof.
  induction s as [|c s [rest IH]]; cbn; [exists EmptyString; reflexivity|].
  destruct (Ascii.eqb c "-"%char).
  - exists (String c s). reflexivity.
  - exists rest. cbn. rewrite <- IH. reflexivity.
Qed.

Lemma getYear_dashless (d : opt string) : has_dash (getYear d) = false.
Proof.
  destruct d as [| |[|c s]]; try reflexivity. apply has_dash_before.
Qed.

Lemma getYear_of_card (y : string) :
  has_dash y = false -> getYear (Val (y ++ "-01-01")%string) = y.
Proof.
  intros H. unfold getYear.
  destruct (y ++ "-01-01")%string as [|c s] eqn:E.
  - destruct y; discriminate E.
  - rewrite <- E. apply before_dash_append, H.
Qed.



(** X13. The item a card builds for [addToList]: when the year shown on the
    card holds no dash, the item has the card's id and kind as its key and
    the card's title, poster, year and rating, the status chosen, the
    current time as [addedAt], a new local [id], and no overview and no
    progress. *)
Theorem card_item_spec (tmdbId : Z) (title : string) (posterPath : option string)
    (releaseYear : string) (rating : number) (mediaType : MediaType)
    (status : WatchStatus) (w : World) :
  has_dash releaseYear = false ->
  exists id,
    fst (card_item tmdbId title posterPath releaseYear rating mediaType status w)
    = Return (MediaItem.mk id tmdbId title mediaType posterPath releaseYear
                rating status (isoNow w)
                Undefined Undefined Undefined Undefined Undefined Undefined).
Proof.
  intros H.
  pose proof (getYear_of_card releaseYear H) as Y.
  destruct w as [cu hw es sl qe di co nr iso sb].
  destruct mediaType; unfold card_item, movieToMediaItem, tvToMediaItem,
    date_now_plus_random, bind, ret, read;
    cbn -[getYear]; destruct nr as [|x nr]; cbn -[getYear]; rewrite Y; eauto.
Qed.

Lemma card_item_spec_witness :
  has_dash "2008" = false
  /\ exists id,
       fst (card_item 1396 "Breaking Bad" None "2008" (QArith_base.Qmake 89 10)
              tv Watching guest_world)
       = Return (MediaItem.mk id 1396 "Breaking Bad" tv None "2008"
                   (QArith_base.Qmake 89 10) Watching (isoNow guest_world)
                   Undefined Undefined Undefined Undefined Undefined Undefined).
Proof.
  split; [reflexivity|].
  exact (card_item_spec 1396 "Breaking Bad" None "2008"
           (QArith_base.Qmake 89 10) tv Watching guest_world eq_refl).
Defined.


(** * The application around the stores *)

(** ** The bootstrap *)

Lemma marks_open_the_gate (s : appStore.Store) :
  let s' := appStore.markDataHydrated (appStore.markAuthResolved s) in
  appStore.authResolved (appStore.state s') = true
  /\ appStore.dataHydrated (appStore.state s') = true
  /\ appStore.appInitialized (appStore.state s') = true
  /\ (appStore.inv s -> appStore.appInitialized (appStore.state s) = false ->
      exists x, appStore.notified s' = appStore.notified s ++ [x]
                /\ appStore.appInitialized x = true).
Proof.
  destruct s as [[u ia g h a d i] n l]. unfold appStore.inv. cbn.
  destruct a, d, i; cbn; repeat split; try reflexivity;
    intros E1 E2; try discriminate; eauto.
Qed.

Lemma loadFromSupabase_session (w : World) :
  currentUser (snd (loadFromSupabase w)) = currentUser w.
Proof.
  destruct w as [cu hw es sl qe di co nr iso [au tbl rp cl]].
  unfold loadFromSupabase. unfold_m. unfold_service. cbn -[forEach_row].
  destruct cu; cbn -[forEach_row]; [|reflexivity].
  destruct rp as [|[c|uuid now] rp]; cbn -[forEach_row]; try reflexivity.
  rewrite forEach_row_spec. cbn. destruct hw, qe; reflexivity.
Qed.

Lemma set_currentUser_local (u : option string) (w : World) :
  local_unchanged w (set_currentUser u w)
  /\ supabase (set_currentUser u w) = supabase w.
Proof.
  destruct w as [cu hw es sl qe di co nr iso sb].
  unfold local_unchanged, local_cache, set_currentUser. unfold_m. cbn.
  destruct hw, sl; auto.
Qed.

(** X14. The bootstrap always opens the gate: whatever the session lookup
    resolves to, also when it rejects, and whatever the hosted table
    answers, the application store ends with [authResolved], [dataHydrated]
    and [appInitialized] all true, and from a closed gate its listeners are
    told exactly once, with the gate open.  For a guest and after a rejected
    lookup the cache is untouched and no request is made; with a session the
    user is recorded and, when the fetch is answered and the storage takes
    the write, the cache is the status partitioning of the account's rows. *)
Theorem bootstrap_opens_gate (getSession : Result (option string)) (a : App) :
  let a' := bootstrap getSession a in
  appStore.authResolved (appStore.state (store a')) = true
  /\ appStore.dataHydrated (appStore.state (store a')) = true
  /\ appStore.appInitialized (appStore.state (store a')) = true
  /\ (appStore.inv (store a) ->
      appStore.appInitialized (appStore.state (store a)) = false ->
      exists x, appStore.notified (store a') = appStore.notified (store a) ++ [x]
                /\ appStore.appInitialized x = true)
  /\ (getSession = Return None ->
      local_unchanged (world a) (world a')
      /\ supabase (world a') = supabase (world a)
      /\ currentUser (world a') = None)
  /\ (forall e, getSession = Throw e ->
      local_unchanged (world a) (world a')
      /\ supabase (world a') = supabase (world a)
      /\ currentUser (world a') = currentUser (world a))
  /\ (forall u uuid now rest, getSession = Return (Some u) ->
      currentUser (world a') = Some u
      /\ (hasWindow (world a) = true ->
          quotaExceeded (world a) = false ->
          replies (supabase (world a)) = Accept uuid now :: rest ->
          local_cache (world a')
          = partitioning
              (combine (user_media (supabase (world a)))
                 (draws (List.length (user_media (supabase (world a))))
                        (nowRandom (world a)))))).
Proof.
  destruct a as [w s gw gd sn]. cbn [world store].
  destruct (marks_open_the_gate s) as [A [B [C D]]].
  destruct getSession as [[u|]|e]; unfold bootstrap, initializeSession, throw,
    modify; cbn [world store fst snd].
  - change (currentUser (set_currentUser (Some u) w)) with (Some u).
    cbn iota.
    pose proof (loadFromSupabase_returns (set_currentUser (Some u) w)) as R.
    pose proof (loadFromSupabase_session (set_currentUser (Some u) w)) as K.
    destruct (loadFromSupabase (set_currentUser (Some u) w)) as [[[]|e] w2] eqn:L;
      cbn [fst snd] in R, K; [|discriminate]. cbn [world store].
    do 4 (split; [assumption|]).
    split; [discriminate|]. split; [discriminate|].
    intros u' uuid now rest [= <-].
    split; [exact K|].
    destruct w as [cu hw es sl qe di co nr iso [au tbl rp cl]].
    cbn [hasWindow quotaExceeded supabase replies user_media nowRandom].
    intros -> -> ->.
    change (set_currentUser (Some u)
              (mkWorld cu true es sl false di co nr iso
                 (mkSupabase au tbl (Accept uuid now :: rest) cl)))
      with (mkWorld (Some u) true es sl false di co nr iso
              (mkSupabase au tbl (Accept uuid now :: rest) cl)) in L.
    rewrite loadFromSupabase_success in L.
    injection L as <-. reflexivity.
  - change (currentUser (set_currentUser None w)) with (@None string).
    cbn iota. cbn [world store].
    do 4 (split; [assumption|]).
    split.
    + intros _. destruct (set_currentUser_local None w) as [U V].
      split; [exact U|]. split; [exact V|]. reflexivity.
    + split; [discriminate|]. intros; discriminate.
  - cbn [world store].
    do 4 (split; [assumption|]).
    split; [discriminate|].
    split; [|intros; discriminate].
    intros e' _. split; [apply local_unchanged_warn|].
    destruct w; cbn; auto.
Qed.

Lemma bootstrap_opens_gate_witness :
  appStore.inv appStore.initial
  /\ appStore.appInitialized (appStore.state appStore.initial) = false
  /\ exists x,
       appStore.notified
         (store (bootstrap (Throw (Error "network"))
                   (mkApp guest_world appStore.initial None None 1)))
       = appStore.notified appStore.initial ++ [x]
       /\ appStore.appInitialized x = true.
Proof.
  split; [reflexivity|]. split; [reflexivity|].
  exact (proj1 (proj2 (proj2 (proj2
           (bootstrap_opens_gate (Throw (Error "network"))
              (mkApp guest_world appStore.initial None None 1)))))
           eq_refl eq_refl).
Defined.

(** ** What the listeners of the application store can see *)

Lemma sound_initial : sound appStore.initial.
Proof. split; [split; reflexivity | constructor]. Qed.

Lemma sound_notifyListeners (s : appStore.Store) :
  sound s -> sound (appStore.notifyListeners s).
Proof.
  intros [A B]. split; [exact A|].
  unfold appStore.notifyListeners. cbn.
  apply Forall_app. split; [exact B|]. constructor; [exact A | constructor].
Qed.

Lemma sound_set_state (f : appStore.AppState -> appStore.AppState)
    (s : appStore.Store) :
  (forall st, coherent st -> coherent (f st)) ->
  sound s -> sound (appStore.set_state f s).
Proof. intros F [A B]. split; [apply F; exact A | exact B]. Qed.

Lemma coherent_set_flags (g h : bool) (st : appStore.AppState) :
  coherent st -> coherent (set_flags g h st).
Proof. destruct st. exact (fun H => H). Qed.

Lemma coherent_set_user (u : option string) (st : appStore.AppState) :
  coherent st -> coherent (set_user u st).
Proof. destruct st. intros [A _]. split; [exact A | reflexivity]. Qed.

Lemma sound_onSessionChange (user : option string) (s : appStore.Store) :
  sound s -> sound (onSessionChange user s).
Proof.
  intros S. unfold onSessionChange. cbv zeta.
  apply sound_notifyListeners.
  assert (T : sound (appStore.set_state (set_user user) s)).
  { apply sound_set_state; [|exact S]. intros st. apply coherent_set_user. }
  destruct (Bool.eqb _ _); [exact T|].
  destruct (appStore.isAuthenticated _); exact T.
Qed.

Lemma sound_step (o : appStore.Op) (s : appStore.Store) :
  sound s -> sound (appStore.step s o).
Proof.
  destruct s as [[u ia g h ar dh ai] n l]. unfold sound, coherent. cbn.
  intros [[A B] F].
  destruct ar, dh; cbn in A; subst ai; destruct o; cbn;
    (split; [split; [reflexivity | exact B]|]);
    try exact F;
    (apply Forall_app; split; [exact F|]);
    (constructor; [split; [reflexivity | exact B] | constructor]).
Qed.

Lemma sound_markGuestWarningShown (a : App) :
  sound (store a) -> sound (store (snd (markGuestWarningShown a))).
Proof.
  intros S. unfold markGuestWarningShown.
  assert (T : sound (appStore.set_state
                       (fun st => set_flags true (appStore.hasGuestData st) st)
                       (store a))).
  { apply sound_set_state; [|exact S]. intros st. apply coherent_set_flags. }
  destruct (hasWindow (world a)); [destruct (quotaExceeded (world a))|];
    cbn [snd store with_store]; try exact T; apply sound_notifyListeners, T.
Qed.

Lemma sound_markHasGuestData (a : App) :
  sound (store a) -> sound (store (snd (markHasGuestData a))).
Proof.
  intros S. unfold markHasGuestData.
  assert (T : sound (appStore.set_state
                       (fun st => set_flags (appStore.guestModeWarningShown st)
                                            true st)
                       (store a))).
  { apply sound_set_state; [|exact S]. intros st. apply coherent_set_flags. }
  destruct (hasWindow (world a)); [destruct (quotaExceeded (world a))|];
    cbn [snd store with_store]; try exact T; apply sound_notifyListeners, T.
Qed.

Lemma sound_clearGuestModeFlags (a : App) :
  sound (store a) -> sound (store (snd (clearGuestModeFlags a))).
Proof.
  intros S. unfold clearGuestModeFlags.
  assert (T : sound (appStore.set_state (set_flags false false) (store a))).
  { apply sound_set_state; [|exact S]. intros st. apply coherent_set_flags. }
  destruct (hasWindow (world a)); [destruct (storage_blocked (world a))|];
    cbn [snd store with_store]; try exact T; apply sound_notifyListeners, T.
Qed.

Lemma sound_bootstrap (getSession : Result (option string)) (a : App) :
  sound (store a) -> sound (store (bootstrap getSession a)).
Proof.
  intros S. unfold bootstrap.
  pose proof (sound_step appStore.MarkAuthResolved _ S) as S1.
  pose proof (sound_step appStore.MarkDataHydrated _ S1) as S2.
  pose proof (sound_step appStore.MarkAuthResolved _ S1) as S3.
  pose proof (sound_step appStore.MarkDataHydrated _ S3) as S4.
  cbn [appStore.step] in *.
  destruct (initializeSession getSession (world a)) as [[[]|e] w1];
    [|exact S2].
  destruct (match currentUser w1 with Some _ => true | None => false end);
    [destruct (loadFromSupabase w1) as [[[]|e] w2]|]; cbn [store];
    assumption.
Qed.

Lemma sound_handleAddToList (p : Card.t) (status : WatchStatus)
    (info : Result unit) (a : App) :
  sound (store a) -> sound (store (handleAddToList p status info a)).
Proof.
  intros S. unfold handleAddToList.
  set (first := if shouldShowGuestWarning a
                then match info with
                     | Throw e => (Throw e, a)
                     | Return _ => markGuestWarningShown a
                     end
                else (Return tt, a)).
  assert (S1 : sound (store (snd first))).
  { unfold first. destruct (shouldShowGuestWarning a); [|exact S].
    destruct info; [apply sound_markGuestWarningShown|]; exact S. }
  destruct first as [[[]|e] a1]; cbn [snd] in S1; [|exact S1].
  destruct (card_item _ _ _ _ _ _ _ (world a1)) as [[item|e] w]; [|exact S1].
  destruct (addToList item w) as [[[]|e] w']; [|exact S1].
  cbv zeta.
  destruct (isGuestMode (with_world w' a1)); [|exact S1].
  pose proof (sound_markHasGuestData (with_world w' a1) S1) as S2.
  destruct (markHasGuestData (with_world w' a1)) as [[[]|e] a2]; exact S2.
Qed.

Lemma sound_load (a : App) :
  sound (store a) ->
  sound (store (snd (let (r, w) := loadFromSupabase (world a) in
                     (r, with_world w a)))).
Proof. intros S. destruct (loadFromSupabase (world a)); exact S. Qed.

Lemma sound_handleAuthSuccess (offer : bool) (a : App) :
  sound (store a) -> sound (store (snd (handleAuthSuccess offer a))).
Proof.
  intros S. unfold handleAuthSuccess. cbv zeta.
  destruct (hasGuestData a); [|apply sound_load, S].
  destruct (getGuestDataCount (world a)) as [[n|e] w]; [|exact S].
  destruct (Nat.ltb 0 n); [|apply sound_load, S].
  destruct offer.
  - destruct (migrateGuestDataToSupabase _) as [[m|e] w1];
      [|apply sound_load, S].
    pose proof (sound_clearGuestModeFlags (with_world w1 (with_world w a)) S) as S2.
    destruct (clearGuestModeFlags _) as [[[]|e] a2]; apply sound_load, S2.
  - destruct (clearLocalCache _) as [[[]|e] w1]; [|exact S].
    pose proof (sound_clearGuestModeFlags (with_world w1 (with_world w a)) S) as S2.
    destruct (clearGuestModeFlags _) as [[[]|e] a2];
      [apply sound_load, S2 | exact S2].
Qed.

Lemma sound_happen (e : Event) (a : App) :
  sound (store a) -> sound (store (happen a e)).
Proof.
  intros S. destruct e; cbn [happen].
  - unfold initializeAppStore.
    destruct (hasWindow (world a)); [destruct (storage_blocked (world a))|];
      cbn [snd store with_store subscribeToSession]; try exact S;
      (apply sound_set_state; [|exact S]); intros st C;
      apply coherent_set_user; try apply coherent_set_flags; exact C.
  - apply sound_bootstrap, S.
  - unfold setUser. cbn [store].
    induction (subscribed a) as [|n IH]; [exact S|].
    cbn [Nat.iter nat_rect]. apply sound_onSessionChange, IH.
  - apply sound_step, S.
  - apply sound_markGuestWarningShown, S.
  - apply sound_markHasGuestData, S.
  - apply sound_clearGuestModeFlags, S.
  - unfold handleLogout. cbv zeta.
    pose proof (sound_step appStore.ResetInitialization _ S) as S1.
    cbn [appStore.step] in S1.
    destruct (clearAll _) as [[[]|e] w]; [|exact S1].
    set (a1 := with_world w (with_store _ a)).
    pose proof (sound_clearGuestModeFlags a1 S1) as S2.
    destruct (clearGuestModeFlags a1) as [[[]|e] a2]; exact S2.
  - apply sound_handleAuthSuccess, S.
  - apply sound_handleAddToList, S.
Qed.

(** X15. After a page load, whatever then happens in whatever order (the
    module initialisation, bootstraps, session changes, calls on the gate,
    the guest flags, logouts, sign-ins, cards adding items), and whatever the
    storage, the dialogs and the hosted table do: in the state of the
    application store, and in every snapshot its listeners were ever handed,
    [appInitialized] is true exactly when [authResolved] and [dataHydrated]
    both are, and [isAuthenticated] is true exactly when there is a user. *)
Theorem app_store_coherent (events : list Event) (a : App) :
  let a' := history events (reload a) in
  coherent (appStore.state (store a'))
  /\ Forall coherent (appStore.notified (store a')).
Proof.
  cbv zeta. unfold history.
  assert (G : forall evs b, sound (store b) ->
                            sound (store (fold_left happen evs b))).
  { induction evs as [|e evs IH]; intros b S; [exact S|].
    cbn [fold_left]. apply IH, sound_happen, S. }
  exact (G events (reload a) sound_initial).
Qed.

(** ** The guest flags *)

Lemma reload_browser (a : App) :
  hasWindow (world (reload a)) = hasWindow (world a)
  /\ storage_blocked (world (reload a)) = storage_blocked (world a)
  /\ currentUser (world (reload a)) = None.
Proof. destruct a as [[cu hw es sl qe di co nr iso sb] s gw gd sn]. cbn. auto. Qed.

(** X16. The guest flags outlive the page.  In a browser whose storage can
    be read: once [markHasGuestData] has returned, the next page load finds
    [hasGuestData] true; once [markGuestWarningShown] has returned, the next
    page load does not show the guest warning again; once
    [clearGuestModeFlags] has returned, the next page load finds no guest
    data and shows the warning to a guest again.  When the storage refuses
    the write, [markHasGuestData] throws with the flag set in memory only:
    the listeners are not told and the next page load finds whatever the
    storage held before. *)
Theorem guest_flags_survive_reload (a : App) :
  hasWindow (world a) = true ->
  storage_blocked (world a) = false ->
  (forall a1, markHasGuestData a = (Return tt, a1) ->
     exists a2, initializeAppStore (reload a1) = (Return tt, a2)
                /\ hasGuestData a2 = true)
  /\ (forall a1, markGuestWarningShown a = (Return tt, a1) ->
     exists a2, initializeAppStore (reload a1) = (Return tt, a2)
                /\ shouldShowGuestWarning a2 = false)
  /\ (forall a1, clearGuestModeFlags a = (Return tt, a1) ->
     exists a2, initializeAppStore (reload a1) = (Return tt, a2)
                /\ hasGuestData a2 = false
                /\ shouldShowGuestWarning a2 = true)
  /\ (forall e a1, markHasGuestData a = (Throw e, a1) ->
     hasGuestData a1 = true
     /\ appStore.notified (store a1) = appStore.notified (store a)
     /\ exists a2, initializeAppStore (reload a1) = (Return tt, a2)
                   /\ hasGuestData a2 = is_true_item (has_guest_data_item a)).
Proof.
  destruct a as [[cu hw es sl qe di co nr iso sb] s gw gd sn].
  unfold storage_blocked. cbn [world hasWindow slot].
  intros -> B.
  unfold markHasGuestData, markGuestWarningShown, clearGuestModeFlags,
    initializeAppStore, reload, storage_blocked.
  cbn [world hasWindow quotaExceeded slot set_currentUser set_emptyStore
       guest_warning_item has_guest_data_item store with_store].
  rewrite B.
  split; [|split; [|split]].
  - destruct qe; intros a1 [= <-]. cbn. rewrite B.
    eexists; split; reflexivity.
  - destruct qe; intros a1 [= <-]. cbn. rewrite B.
    eexists; split; [reflexivity|].
    reflexivity.
  - intros a1 [= <-]. cbn. rewrite B. eexists; split; [reflexivity|].
    split; reflexivity.
  - destruct qe; intros e a1 [= <- <-]. cbn. rewrite B.
    split; [reflexivity|]. split; [reflexivity|].
    eexists; split; reflexivity.
Qed.

Lemma guest_flags_survive_reload_witness :
  hasWindow guest_world = true
  /\ storage_blocked guest_world = false
  /\ exists a1,
       markHasGuestData (mkApp guest_world appStore.initial None None 1)
       = (Return tt, a1)
       /\ exists a2, initializeAppStore (reload a1) = (Return tt, a2)
                     /\ hasGuestData a2 = true.
Proof.
  split; [reflexivity|]. split; [reflexivity|].
  eexists. split; [reflexivity|].
  exact (proj1 (guest_flags_survive_reload
                  (mkApp guest_world appStore.initial None None 1)
                  eq_refl eq_refl) _ eq_refl).
Defined.

(** ** Logging out *)

(** X17. [handleLogout] in a browser whose storage works returns, and
    afterwards: the gate is closed (the three flags are false, whatever they
    were); the guest flags are false in the state and gone from the storage;
    the listeners were told twice, both times with the gate closed; the
    cache holds what the module's [emptyStore] object held; the session
    store's user and the hosted table are untouched; and the next bootstrap,
    whatever the session lookup gives, tells the listeners exactly once more,
    with the gate open. *)
Theorem handleLogout_spec (a : App) :
  hasWindow (world a) = true ->
  storage_blocked (world a) = false ->
  quotaExceeded (world a) = false ->
  let a' := snd (handleLogout a) in
  fst (handleLogout a) = Return tt
  /\ appStore.authResolved (appStore.state (store a')) = false
  /\ appStore.dataHydrated (appStore.state (store a')) = false
  /\ appStore.appInitialized (appStore.state (store a')) = false
  /\ hasGuestData a' = false
  /\ appStore.guestModeWarningShown (appStore.state (store a')) = false
  /\ guest_warning_item a' = None
  /\ has_guest_data_item a' = None
  /\ (exists x y,
        appStore.notified (store a') = appStore.notified (store a) ++ [x; y]
        /\ appStore.appInitialized x = false
        /\ appStore.appInitialized y = false)
  /\ local_cache (world a') = emptyStore (world a)
  /\ currentUser (world a') = currentUser (world a)
  /\ supabase (world a') = supabase (world a)
  /\ (forall getSession, exists z,
        appStore.notified (store (bootstrap getSession a'))
        = appStore.notified (store a') ++ [z]
        /\ appStore.appInitialized z = true).
Proof.
  destruct a as [[cu hw es sl qe di co nr iso sb] [[u ia g h ar dh ai] n l] gw gd sn].
  unfold storage_blocked. cbn [world hasWindow slot quotaExceeded].
  intros -> B ->.
  assert (E : handleLogout
                (mkApp (mkWorld cu true es sl false di co nr iso sb)
                   (appStore.mkStore (appStore.mkState u ia g h ar dh ai) n l)
                   gw gd sn)
              = (Return tt,
                 mkApp (mkWorld cu true es (Stored es) false (S di) co nr iso sb)
                   (appStore.mkStore
                      (appStore.mkState u ia false false false false false)
                      ((n ++ [appStore.mkState u ia g h false false false])
                         ++ [appStore.mkState u ia false false false false false])
                      (l ++ ["Initialization flags reset"]))
                   None None sn)).
  { unfold handleLogout, clearAll, clearLocalCache, clearGuestModeFlags,
      storage_blocked.
    unfold saveLocalStore. unfold_m. cbn. reflexivity. }
  rewrite E. cbn [fst snd world store].
  do 8 (split; [reflexivity|]).
  split.
  { eexists _, _. rewrite <- app_assoc. cbn. split; [reflexivity|].
    split; reflexivity. }
  do 3 (split; [reflexivity|]).
  intros getSession.
  match goal with
  | |- context [bootstrap getSession ?b] => set (a' := b)
  end.
  assert (S : forall w' gw' gd' s',
             s' = appStore.markDataHydrated (appStore.markAuthResolved (store a')) ->
             exists z, appStore.notified (store (mkApp w' s' gw' gd' sn))
                       = appStore.notified (store a') ++ [z]
                       /\ appStore.appInitialized z = true).
  { intros w' gw' gd' s' ->. cbn. eexists. split; reflexivity. }
  unfold bootstrap.
  destruct (initializeSession getSession (world a')) as [[[]|e] w1].
  - pose proof (loadFromSupabase_returns w1) as R.
    destruct (match currentUser w1 with Some _ => true | None => false end).
    + destruct (loadFromSupabase w1) as [[[]|e] w2]; cbn in R;
        [|discriminate]. apply S. reflexivity.
    + apply S. reflexivity.
  - apply S. reflexivity.
Qed.

Lemma handleLogout_spec_witness :
  hasWindow guest_world = true
  /\ storage_blocked guest_world = false
  /\ quotaExceeded guest_world = false
  /\ fst (handleLogout (mkApp guest_world appStore.initial None None 1))
     = Return tt.
Proof.
  split; [reflexivity|]. split; [reflexivity|]. split; [reflexivity|].
  exact (proj1 (handleLogout_spec
                  (mkApp guest_world appStore.initial None None 1)
                  eq_refl eq_refl eq_refl)).
Defined.

(** ** The service's reads of one row *)

(** X18. The four reads of one row, on the reply of the hosted table.  When
    the table has no row for the key (PGRST116) none of them throws or logs:
    [getUserMedia] gives null, [hasUserMedia] false, [getMediaStatus] null
    and [getTVProgress] null.  On any other error each logs once and throws
    that error.  On a row, [hasUserMedia] is true, [getMediaStatus] is the
    row's status, and [getTVProgress] is null exactly when a progress column
    is null or 0 (season 0 counts as no progress), and the two columns
    otherwise. *)
Theorem single_row_reads (w : World) :
  (getUserMedia (inl (PostgrestError "PGRST116")) w = (Return None, w)
   /\ hasUserMedia (inl (PostgrestError "PGRST116")) w = (Return false, w)
   /\ getMediaStatus (inl (PostgrestError "PGRST116")) w = (Return None, w)
   /\ getTVProgress (inl (PostgrestError "PGRST116")) w = (Return None, w))
  /\ (forall e, e <> PostgrestError "PGRST116" ->
      let w' := set_console (console w ++ [LogError "Error fetching user media:"]) w in
      getUserMedia (inl e) w = (Throw e, w')
      /\ hasUserMedia (inl e) w = (Throw e, w')
      /\ getMediaStatus (inl e) w = (Throw e, w')
      /\ getTVProgress (inl e) w = (Throw e, w'))
  /\ (forall r,
      getUserMedia (inr r) w = (Return (Some r), w)
      /\ hasUserMedia (inr r) w = (Return true, w)
      /\ getMediaStatus (inr r) w = (Return (Some (Row.status r)), w)
      /\ snd (getTVProgress (inr r) w) = w
      /\ (fst (getTVProgress (inr r) w) = Return None
          <-> (Row.current_season r = None \/ Row.current_season r = Some 0%Z
               \/ Row.current_episode r = None
               \/ Row.current_episode r = Some 0%Z))
      /\ (forall s e,
            Row.current_season r = Some s -> Row.current_episode r = Some e ->
            s <> 0%Z -> e <> 0%Z ->
            fst (getTVProgress (inr r) w)
            = Return (Some (mkProgress (Val s) (Val e))))).
Proof.
  split; [|split].
  - repeat split.
  - intros e N w'.
    assert (G : getUserMedia (inl e) w = (Throw e, w')).
    { destruct e as [code|m]; [|reflexivity].
      unfold getUserMedia.
      destruct (String.eqb code "PGRST116") eqn:E; [|reflexivity].
      apply String.eqb_eq in E. subst code. contradiction. }
    unfold hasUserMedia, getMediaStatus, getTVProgress, bind.
    rewrite G. repeat split.
  - intros r. do 3 (split; [reflexivity|]).
    unfold getTVProgress, getUserMedia, bind, ret, falsy.
    destruct (Row.current_season r) as [s|], (Row.current_episode r) as [e|];
      cbn [orb].
    + destruct (Z.eqb_spec s 0) as [->|Ns]; cbn [orb].
      * split; [reflexivity|]. split; [split; auto|].
        intros s e' [= <-]. congruence.
      * destruct (Z.eqb_spec e 0) as [->|Ne]; cbn [orb].
        -- split; [reflexivity|]. split; [split; auto|].
           intros s' e' _ [= <-]. congruence.
        -- split; [reflexivity|]. split.
           ++ split; [discriminate|].
              intros [H|[H|[H|H]]]; congruence.
           ++ intros s' e' [= <-] [= <-] _ _. reflexivity.
    + destruct (Z.eqb s 0); cbn; (split; [reflexivity|]);
        (split; [split; auto | intros; discriminate]).
    + cbn. split; [reflexivity|].
      split; [split; auto | intros; discriminate].
    + cbn. split; [reflexivity|].
      split; [split; auto | intros; discriminate].
Qed.

(** ** Progress after a hydration *)

Lemma find_absent_key (t : Z) (m : MediaType) (l : list MediaItem.t) :
  ~ In (t, m) (map key_of l) -> find (same_key t m) l = None.
Proof.
  intros N. pose proof (found_existsb (same_key t m) l) as F.
  destruct (find (same_key t m) l); [|reflexivity].
  symmetry in F. apply existsb_same_key in F. contradiction.
Qed.

Lemma partition_keys_in (s : WatchStatus) (rows : list (Row.t * number)) (k : Key) :
  In k (map key_of (partition_of s rows)) -> In k (map Row.key (map fst rows)).
Proof.
  rewrite keys_partition, !in_map_iff.
  intros [x [E H]]. apply filter_In in H as [H _]. eauto.
Qed.

Lemma same_key_item_of_row (t : Z) (m : MediaType) (id : number) (r : Row.t) :
  same_key t m (item_of_row id r) = true <-> Row.key r = (t, m).
Proof. rewrite same_key_eq. reflexivity. Qed.

Lemma find_in_partition (rows : list (Row.t * number)) (r : Row.t)
    (s : WatchStatus) :
  NoDup (map Row.key (map fst rows)) ->
  In r (map fst rows) ->
  (Row.status r = s ->
   exists id, find (same_key (Row.tmdb_id r) (Row.media_type r))
                   (partition_of s rows)
              = Some (item_of_row id r))
  /\ (Row.status r <> s ->
      find (same_key (Row.tmdb_id r) (Row.media_type r)) (partition_of s rows)
      = None).
Proof.
  induction rows as [|[r0 id0] rows IH]; [intros _ []|].
  cbn [map fst]. intros D I. inversion D as [|k ks N D' E]; subst.
  rewrite partition_of_cons.
  destruct I as [->|I].
  - assert (A : find (same_key (Row.tmdb_id r) (Row.media_type r))
                     (partition_of s rows) = None).
    { apply find_absent_key. intros H. apply N.
      apply partition_keys_in in H. exact H. }
    split.
    + intros <-. rewrite WatchStatus_eqb_refl. exists id0. cbn [find].
      assert (K : same_key (Row.tmdb_id r) (Row.media_type r) (item_of_row id0 r)
                  = true) by (apply same_key_item_of_row; reflexivity).
      rewrite K. reflexivity.
    + intros Ns. rewrite WatchStatus_eqb_neq by exact Ns. exact A.
  - assert (K : same_key (Row.tmdb_id r) (Row.media_type r) (item_of_row id0 r0)
                = false).
    { destruct (same_key (Row.tmdb_id r) (Row.media_type r) (item_of_row id0 r0))
        eqn:E; [|reflexivity].
      apply same_key_item_of_row in E. exfalso. apply N. rewrite E.
      apply in_map_iff. exists r. split; [reflexivity | exact I]. }
    destruct (IH D' I) as [P Q].
    destruct (WatchStatus_eqb (Row.status r0) s); cbn [find]; rewrite ?K;
      split; assumption.
Qed.

Lemma find_progress_partitioning (rows : list (Row.t * number)) (r : Row.t) :
  NoDup (map Row.key (map fst rows)) ->
  In r (map fst rows) ->
  find_progress (Row.tmdb_id r) (Row.media_type r) all_statuses
    (partitioning rows)
  = Some (mkProgress (to_opt (Row.current_season r))
                     (to_opt (Row.current_episode r))).
Proof.
  intros D I.
  pose proof (fun s => find_in_partition rows r s D I) as F.
  unfold all_statuses, partitioning.
  cbn [find_progress at_status want_to_watch watching completed].
  destruct (F WantToWatch) as [A1 A2], (F Watching) as [B1 B2],
           (F Completed) as [C1 C2].
  destruct (Row.status r) eqn:S.
  - destruct (A1 eq_refl) as [id ->].
    destruct r as [i us t mt st cs ce ti pp ry ra ov ru ns ne ca ua]; cbn.
    destruct cs, ce; reflexivity.
  - rewrite A2 by discriminate. destruct (B1 eq_refl) as [id ->].
    destruct r as [i us t mt st cs ce ti pp ry ra ov ru ns ne ca ua]; cbn.
    destruct cs, ce; reflexivity.
  - rewrite A2, B2 by discriminate. destruct (C1 eq_refl) as [id ->].
    destruct r as [i us t mt st cs ce ti pp ry ra ov ru ns ne ca ua]; cbn.
    destruct cs, ce; reflexivity.
Qed.

(** X19. After a hydration that succeeded, [getProgress] on a series of the
    account never gives null: it gives the row's two progress columns, so
    for a series whose progress was never recorded it gives an object whose
    [season] and [episode] are both null.  (The rows of the account have
    distinct keys.) *)
Theorem getProgress_after_hydration (w : World) (u uuid now : string)
    (rest : list Reply) (r : Row.t) :
  currentUser w = Some u ->
  hasWindow w = true ->
  quotaExceeded w = false ->
  replies (supabase w) = Accept uuid now :: rest ->
  NoDup (map Row.key (user_media (supabase w))) ->
  In r (user_media (supabase w)) ->
  Row.media_type r = tv ->
  fst (getProgress (Row.tmdb_id r) tv (snd (loadFromSupabase w)))
  = Return (Some (mkProgress (to_opt (Row.current_season r))
                             (to_opt (Row.current_episode r))))
  /\ to_opt (Row.current_season r) <> Undefined
  /\ to_opt (Row.current_episode r) <> Undefined.
Proof.
  destruct w as [cu hw es sl qe di co nr iso [au tbl rp cl]].
  cbn [currentUser hasWindow quotaExceeded supabase replies user_media].
  intros -> -> -> -> D I T.
  split; [|split; [destruct (Row.current_season r) | destruct (Row.current_episode r)];
           discriminate].
  rewrite getProgress_reads, loadFromSupabase_success.
  cbn [snd]. rewrite local_cache_stored. rewrite <- T.
  assert (L : map fst (combine tbl (draws (List.length tbl) nr)) = tbl)
    by (apply rows_of_combine, draws_length).
  rewrite find_progress_partitioning; [reflexivity | |]; rewrite L; assumption.
Qed.

Lemma getProgress_after_hydration_witness :
  fst (getProgress 1396 tv
         (snd (loadFromSupabase
                 (session_world empty
                    [Row.mk "r1" "user-1" 1396 tv Watching None None
                       "Breaking Bad" None "2008" (QArith_base.Qmake 89 10)
                       None None None None "2024-01-01" "2024-01-01"]
                    [Accept "f0" "2024-01-05T10:00:09.000Z"] []))))
  = Return (Some (mkProgress Null Null)).
Proof.
  exact (proj1 (getProgress_after_hydration
                  (session_world empty
                     [Row.mk "r1" "user-1" 1396 tv Watching None None
                        "Breaking Bad" None "2008" (QArith_base.Qmake 89 10)
                        None None None None "2024-01-01" "2024-01-01"]
                     [Accept "f0" "2024-01-05T10:00:09.000Z"] [])
                  "user-1" "f0" "2024-01-05T10:00:09.000Z" []
                  (Row.mk "r1" "user-1" 1396 tv Watching None None
                        "Breaking Bad" None "2008" (QArith_base.Qmake 89 10)
                        None None None None "2024-01-01" "2024-01-01")
                  eq_refl eq_refl eq_refl eq_refl
                  (NoDup_cons _ (fun H : In _ [] => H) (NoDup_nil _))
                  (or_introl eq_refl) eq_refl)).
Defined.

(** ** A guest adds an item from a card *)

Lemma addToList_guest_stores (item : MediaItem.t) (w : World) :
  currentUser w = None -> hasWindow w = true -> quotaExceeded w = false ->
  existsb (same_key (MediaItem.tmdbId item) (MediaItem.mediaType item))
          (spread (local_cache w)) = false ->
  let w' := snd (addToList item w) in
  fst (addToList item w) = Return tt
  /\ slot w' = Stored (push (MediaItem.status item) item (local_cache w))
  /\ hasWindow w' = true
  /\ quotaExceeded w' = false
  /\ currentUser w' = None
  /\ supabase w' = supabase w.
Proof.
  intros G. rewrite (addToList_guest item w G). revert G.
  destruct w as [cu hw es sl qe di co nr iso sb]; cbn.
  intros -> -> ->.
  unfold addToList_cache, local_cache. unfold_m.
  destruct sl; cbn; intros ->; cbn; repeat split.
Qed.

Lemma card_item_runs (tmdbId : Z) (title : string) (posterPath : option string)
    (releaseYear : string) (rating : number) (mediaType : MediaType)
    (status : WatchStatus) (w : World) :
  exists item stream,
    card_item tmdbId title posterPath releaseYear rating mediaType status w
    = (Return item, set_nowRandom stream w)
    /\ MediaItem.tmdbId item = tmdbId
    /\ MediaItem.mediaType item = mediaType
    /\ MediaItem.status item = status
    /\ MediaItem.title item = title.
Proof.
  destruct w as [cu hw es sl qe di co nr iso sb].
  destruct mediaType; unfold card_item, movieToMediaItem, tvToMediaItem,
    date_now_plus_random, bind, ret, read;
    cbn -[getYear]; destruct nr as [|x nr]; cbn -[getYear];
    eexists; eexists; (split; [reflexivity|]); repeat split.
Qed.

Lemma local_cache_set_nowRandom (stream : list number) (w : World) :
  local_cache (set_nowRandom stream w) = local_cache w.
Proof.
  destruct w as [cu hw es sl qe di co nr iso sb].
  unfold local_cache. unfold_m. cbn. destruct hw, sl; reflexivity.
Qed.

Lemma local_cache_reload (a : App) (c : UserMediaStore) :
  hasWindow (world a) = true -> slot (world a) = Stored c ->
  local_cache (world (reload a)) = c.
Proof.
  destruct a as [[cu hw es sl qe di co nr iso sb] s gw gd sn]. cbn.
  intros -> ->. reflexivity.
Qed.

(** X20. A guest adds an item from a card, in a browser whose storage works,
    the two stores agreeing that nobody is signed in and the guest dialog
    closing normally.  When the collection does not hold the card's key,
    after [handleAddToList]: [getItemStatus] on the key gives the status
    chosen; [hasGuestData] is true and stored; the guest warning will not be
    shown again on this page; no request went to the hosted table; and after
    the next page load the item is still there with its status and
    [hasGuestData] is still true. *)
Theorem handleAddToList_guest (p : Card.t) (status : WatchStatus) (a : App) :
  currentUser (world a) = None ->
  isGuestMode a = true ->
  hasWindow (world a) = true ->
  storage_blocked (world a) = false ->
  quotaExceeded (world a) = false ->
  ~ In (Card.tmdbId p, Card.mediaType p) (keys (local_cache (world a))) ->
  let a' := handleAddToList p status (Return tt) a in
  fst (getItemStatus (Card.tmdbId p) (Card.mediaType p) (world a'))
  = Return (Some status)
  /\ hasGuestData a' = true
  /\ has_guest_data_item a' = Some "true"
  /\ shouldShowGuestWarning a' = false
  /\ supabase (world a') = supabase (world a)
  /\ (exists b, initializeAppStore (reload a') = (Return tt, b)
                /\ hasGuestData b = true
                /\ fst (getItemStatus (Card.tmdbId p) (Card.mediaType p) (world b))
                   = Return (Some status)).
Proof.
  intros G GM W B Q N a'.
  (* the warning *)
  set (first := if shouldShowGuestWarning a
                then markGuestWarningShown a else (Return tt, a)).
  assert (F : exists a1, first = (Return tt, a1)
                         /\ world a1 = world a
                         /\ isGuestMode a1 = true
                         /\ appStore.guestModeWarningShown
                              (appStore.state (store a1)) = true).
  { unfold first, shouldShowGuestWarning, markGuestWarningShown.
    rewrite GM, W, Q. cbn [andb].
    destruct (appStore.guestModeWarningShown (appStore.state (store a))) eqn:S;
      cbn [negb]; eexists; (split; [reflexivity|]).
    - auto.
    - split; [reflexivity|]. split; [exact GM | reflexivity]. }
  destruct F as [a1 [F1 [F2 [F3 F4]]]].
  (* the item *)
  destruct (card_item_runs (Card.tmdbId p) (Card.title p) (Card.posterPath p)
              (Card.releaseYear p) (Card.rating p) (Card.mediaType p) status
              (world a1)) as [item [stream [I1 [I2 [I3 [I4 _]]]]]].
  set (w1 := set_nowRandom stream (world a1)) in *.
  assert (C1 : local_cache w1 = local_cache (world a))
    by (unfold w1; rewrite local_cache_set_nowRandom, F2; reflexivity).
  assert (A : existsb (same_key (MediaItem.tmdbId item) (MediaItem.mediaType item))
                      (spread (local_cache w1)) = false).
  { rewrite I2, I3, C1. apply absent_spread, N. }
  assert (G1 : currentUser w1 = None)
    by (unfold w1; rewrite F2; destruct (world a); exact G).
  assert (W1 : hasWindow w1 = true)
    by (unfold w1; rewrite F2; destruct (world a); exact W).
  assert (Q1 : quotaExceeded w1 = false)
    by (unfold w1; rewrite F2; destruct (world a); exact Q).
  assert (S1 : supabase w1 = supabase (world a))
    by (unfold w1; rewrite F2; destruct (world a); reflexivity).
  destruct (addToList_guest_stores item w1 G1 W1 Q1 A)
    as [R [SL [W2 [Q2 [G2 S2]]]]].
  destruct (addToList item w1) as [r w2] eqn:E. cbn [fst snd] in *. subst r.
  rewrite I4, C1 in SL.
  (* the handler *)
  assert (H : a' = mkApp w2
                     (appStore.notifyListeners
                        (appStore.set_state
                           (fun st => set_flags (appStore.guestModeWarningShown st)
                                                true st)
                           (store a1)))
                     (guest_warning_item a1) (Some "true") (subscribed a1)).
  { unfold a', handleAddToList. fold first. rewrite F1, I1. fold w1.
    rewrite E. cbv zeta.
    assert (GM2 : isGuestMode (with_world w2 a1) = true) by exact F3.
    rewrite GM2. unfold markHasGuestData. cbn [world with_world].
    rewrite W2, Q2. reflexivity. }
  rewrite H. cbn [world has_guest_data_item].
  assert (ST : status_in (Card.tmdbId p) (Card.mediaType p)
                 (push status item (local_cache (world a))) = Some status).
  { apply status_in_only. intros s.
    rewrite existsb_push, (absent_everywhere _ _ _ N s).
    rewrite <- I2, <- I3, same_key_self. cbn. rewrite andb_true_r.
    reflexivity. }
  assert (LC : local_cache w2 = push status item (local_cache (world a))).
  { destruct w2 as [cu hw es sl qe di co nr iso sb].
    cbn in SL, W2. subst hw sl. reflexivity. }
  split; [rewrite getItemStatus_reads, LC, ST; reflexivity|].
  split; [reflexivity|]. split; [reflexivity|].
  split.
  { unfold shouldShowGuestWarning. cbn. rewrite F4. apply andb_false_r. }
  split; [congruence|].
  unfold initializeAppStore.
  assert (RW : hasWindow (world (reload (mkApp w2
                     (appStore.notifyListeners
                        (appStore.set_state
                           (fun st => set_flags (appStore.guestModeWarningShown st)
                                                true st)
                           (store a1)))
                     (guest_warning_item a1) (Some "true") (subscribed a1)))) = true).
  { destruct w2; exact W2. }
  assert (RB : storage_blocked (world (reload (mkApp w2
                     (appStore.notifyListeners
                        (appStore.set_state
                           (fun st => set_flags (appStore.guestModeWarningShown st)
                                                true st)
                           (store a1)))
                     (guest_warning_item a1) (Some "true") (subscribed a1)))) = false).
  { destruct w2 as [cu hw es sl qe di co nr iso sb]. cbn in SL. subst sl.
    reflexivity. }
  rewrite RW, RB. eexists. split; [reflexivity|].
  split; [reflexivity|].
  cbn [world with_store subscribeToSession].
  rewrite getItemStatus_reads.
  erewrite local_cache_reload; [|exact W2|exact SL].
  rewrite ST. reflexivity.
Qed.

Lemma handleAddToList_guest_witness :
  fst (getItemStatus 1396 tv
         (world (handleAddToList
                   (Card.mk 1396 "Breaking Bad" None "2008"
                      (QArith_base.Qmake 89 10) tv)
                   Watching (Return tt)
                   (mkApp guest_world appStore.initial None None 1))))
  = Return (Some Watching).
Proof.
  assert (N : ~ In (1396%Z, tv) (keys (local_cache guest_world)))
    by (intros []).
  exact (proj1 (handleAddToList_guest
                  (Card.mk 1396 "Breaking Bad" None "2008"
                     (QArith_base.Qmake 89 10) tv)
                  Watching (mkApp guest_world appStore.initial None None 1)
                  eq_refl eq_refl eq_refl eq_refl eq_refl N)).
Defined.

(** ** Signing in with guest items *)

Lemma getGuestDataCount_runs (w : World) :
  exists c, getGuestDataCount w
            = (Return (List.length (spread (local_cache w))), set_console c w).
Proof.
  destruct (getLocalStore_returns w) as [r [c [E _]]].
  exists c. unfold getGuestDataCount, bind, ret. rewrite E. cbn [snd].
  unfold spread. rewrite !length_app, Nat.add_assoc. reflexivity.
Qed.

Lemma load_answered (u : string) (es : UserMediaStore) (sl : Slot) (di : nat)
    (co : list Log) (nr : list number) (iso : string) (au : option string)
    (tbl : list Row.t) (uuid now : string) (rest : list Reply) (cl : list Call)
    (s : appStore.Store) (gw gd : option string) (sn : nat) :
  let a := mkApp (mkWorld (Some u) true es sl false di co nr iso
                    (mkSupabase au tbl (Accept uuid now :: rest) cl)) s gw gd sn in
  let r := (let (r, w) := loadFromSupabase (world a) in (r, with_world w a)) in
  fst r = Return tt
  /\ store (snd r) = s
  /\ guest_warning_item (snd r) = gw
  /\ has_guest_data_item (snd r) = gd
  /\ local_cache (world (snd r))
     = partitioning (combine tbl (draws (List.length tbl) nr))
  /\ user_media (supabase (world (snd r))) = tbl
  /\ calls (supabase (world (snd r))) = cl ++ [GetAllUserMedia].
Proof.
  cbn [world]. rewrite loadFromSupabase_success. cbn. repeat split.
Qed.

(** X21. Signing in when the guest items are not migrated.  In a session,
    with a storage that works and the fetch answered: when the offer to
    migrate is declined, and also when no offer is made because
    [hasGuestData] is false, [handleAuthSuccess] returns having made one
    request, the fetch; the hosted table is as it was, and the cache is the
    status partitioning of its rows, so a guest item is still in the
    collection only if the account has a row for its key.  After a declined
    offer the guest flags are false and gone from the storage. *)
Theorem handleAuthSuccess_without_migration (offer : bool) (a : App)
    (u uuid now : string) (rest : list Reply) :
  currentUser (world a) = Some u ->
  hasWindow (world a) = true ->
  storage_blocked (world a) = false ->
  quotaExceeded (world a) = false ->
  replies (supabase (world a)) = Accept uuid now :: rest ->
  hasGuestData a = false \/ offer = false ->
  let a' := snd (handleAuthSuccess offer a) in
  fst (handleAuthSuccess offer a) = Return tt
  /\ local_cache (world a')
     = partitioning
         (combine (user_media (supabase (world a)))
            (draws (List.length (user_media (supabase (world a))))
                   (nowRandom (world a))))
  /\ user_media (supabase (world a')) = user_media (supabase (world a))
  /\ calls (supabase (world a')) = calls (supabase (world a)) ++ [GetAllUserMedia]
  /\ (forall k, In k (keys (local_cache (world a')))
                <-> In k (map Row.key (user_media (supabase (world a)))))
  /\ (hasGuestData a = true ->
      0 < List.length (spread (local_cache (world a))) ->
      hasGuestData a' = false
      /\ appStore.guestModeWarningShown (appStore.state (store a')) = false
      /\ guest_warning_item a' = None
      /\ has_guest_data_item a' = None).
Proof.
  destruct a as [[cu hw es sl qe di co nr iso [au tbl rp cl]] s gw gd sn].
  unfold storage_blocked.
  cbn [world currentUser hasWindow slot quotaExceeded supabase replies
       user_media calls nowRandom].
  intros -> -> B -> -> D.
  assert (K : forall c : UserMediaStore,
            c = partitioning (combine tbl (draws (List.length tbl) nr)) ->
            forall k, In k (keys c) <-> In k (map Row.key tbl)).
  { intros c -> k. rewrite in_keys_partitioning, rows_of_combine;
      [reflexivity | apply draws_length]. }
  set (w := mkWorld (Some u) true es sl false di co nr iso
              (mkSupabase au tbl (Accept uuid now :: rest) cl)) in *.
  destruct (getGuestDataCount_runs w) as [c G].
  unfold handleAuthSuccess.
  cbn [world]. cbv zeta.
  destruct (hasGuestData (mkApp w s gw gd sn)) eqn:H.
  - rewrite G. cbv zeta.
    destruct (Nat.ltb 0 (List.length (spread (local_cache w)))) eqn:L.
    + destruct D as [D|D]; [discriminate|]. subst offer.
      cbn [world with_world].
      unfold w, set_console.
      cbn [currentUser hasWindow emptyStore slot quotaExceeded dispatched console
           nowRandom isoNow supabase].
      assert (CL : forall co',
                clearLocalCache
                  (mkWorld (Some u) true es sl false di co' nr iso
                     (mkSupabase au tbl (Accept uuid now :: rest) cl))
                = (Return tt,
                   mkWorld (Some u) true es (Stored es) false (S di) co' nr iso
                     (mkSupabase au tbl (Accept uuid now :: rest) cl))).
      { intros co'. unfold clearLocalCache, saveLocalStore. unfold_m.
        reflexivity. }
      rewrite CL.
      unfold clearGuestModeFlags, storage_blocked.
      cbn [world with_world hasWindow slot store].
      destruct (load_answered u es (Stored es) (S di) c nr iso au tbl uuid now
                  rest cl
                  (appStore.notifyListeners
                     (appStore.set_state (set_flags false false) s))
                  None None sn)
        as [R [S1 [S2 [S3 [S4 [S5 S6]]]]]].
      cbv zeta in R, S1, S2, S3, S4, S5, S6.
      split; [exact R|]. split; [exact S4|]. split; [exact S5|].
      split; [exact S6|]. split; [apply K, S4|].
      intros _ _.
      split; [exact (f_equal (fun st => appStore.hasGuestData (appStore.state st))
                             S1)|].
      split; [exact (f_equal (fun st => appStore.guestModeWarningShown
                                          (appStore.state st)) S1)|].
      split; [exact S2 | exact S3].
    + unfold w, set_console.
      cbn [world with_world currentUser hasWindow emptyStore slot quotaExceeded
           dispatched console nowRandom isoNow supabase].
      destruct (load_answered u es sl di c nr iso au tbl uuid now rest cl s gw gd sn)
        as [R [S1 [S2 [S3 [S4 [S5 S6]]]]]].
      cbv zeta in R, S1, S2, S3, S4, S5, S6.
      split; [exact R|]. split; [exact S4|]. split; [exact S5|].
      split; [exact S6|]. split; [apply K, S4|].
      intros _ P. apply Nat.ltb_ge in L. unfold w in L. lia.
  - destruct (load_answered u es sl di co nr iso au tbl uuid now rest cl s gw gd sn)
      as [R [S1 [S2 [S3 [S4 [S5 S6]]]]]].
    cbv zeta in R, S1, S2, S3, S4, S5, S6.
    split; [exact R|]. split; [exact S4|]. split; [exact S5|].
    split; [exact S6|]. split; [apply K, S4|].
    intros F. unfold hasGuestData in H, F. cbn in H, F. congruence.
Qed.

Lemma handleAuthSuccess_without_migration_witness :
  fst (handleAuthSuccess false
         (mkApp (session_world three_guest_items [fight_club_row]
                   [Accept "f0" "2024-01-05T10:00:09.000Z"] [])
            appStore.initial None (Some "true") 1))
  = Return tt.
Proof.
  exact (proj1 (handleAuthSuccess_without_migration false
                  (mkApp (session_world three_guest_items [fight_club_row]
                            [Accept "f0" "2024-01-05T10:00:09.000Z"] [])
                     appStore.initial None (Some "true") 1)
                  "user-1" "f0" "2024-01-05T10:00:09.000Z" []
                  eq_refl eq_refl eq_refl eq_refl eq_refl
                  (or_intror eq_refl))).
Defined.
